(** * Henbrook daily menu generator: the transformation core of
      [generate_menus.py], embedded in Rocq.

    Text is a list of Unicode code points ([pystr]), so that [len], slicing and
    the typographic characters the program writes (the apostrophe of
    "Chef’s", the dashes of "— Vegan —") are what they are in Python.
    The whitespace class is Python's full [str.isspace] table.  Letters,
    digits, case mapping and the regex word class are those of the Basic
    Latin block, in which every keyword of the program lives; code points
    outside it are carried through as caseless symbols.

    The pure functions of the program are Rocq functions of the same name.
    Code that may raise returns a [result].  The day record and the display
    contexts are records; the Standard builder is given a second time on
    Python's object store ([Store]), where the sharing of dicts between the
    day record and the builder's working list can be seen. *)

From Stdlib Require Import List NArith ZArith Lia Bool String Ascii.
From stdpp Require Import gmap strings.
Import ListNotations.
Open Scope N_scope.
Open Scope list_scope.

(* ------------------------------------------------------------------ *)
(** ** Text *)

Abbreviation pystr := (list N).

Fixpoint bytes_of (s : string) : list N :=
  match s with
  | EmptyString => []
  | String a r => N_of_ascii a :: bytes_of r
  end.

(** UTF-8 decoding of the bytes of a literal. *)
Fixpoint utf8_go (need : nat) (acc : N) (bs : list N) : pystr :=
  match bs with
  | [] => []
  | b :: r =>
      match need with
      | O => if b <? 128 then b :: utf8_go 0 0 r
             else if b <? 224 then utf8_go 1 (b mod 32) r
             else if b <? 240 then utf8_go 2 (b mod 16) r
             else utf8_go 3 (b mod 8) r
      | S n => let acc' := acc * 64 + b mod 64 in
               match n with
               | O => acc' :: utf8_go 0 0 r
               | S _ => utf8_go n acc' r
               end
      end
  end.

(** The escapes of Python literals used in the sources: \n, \t, \r. *)
Fixpoint unescape (esc : bool) (cs : pystr) : pystr :=
  match cs with
  | [] => []
  | c :: r =>
      if esc then
        (if c =? 110 then 10 else if c =? 116 then 9
         else if c =? 114 then 13 else c) :: unescape false r
      else if c =? 92 then unescape true r
      else c :: unescape false r
  end.

(** [py "..."] is the Python string with that literal. *)
Definition py (s : string) : pystr := unescape false (utf8_go 0 0 (bytes_of s)).

Definition chr_of (s : string) : N := hd 0 (py s).

Definition NL : N := 10.
Definition SP : N := 32.

(** [str.isspace] of one character (Py_UNICODE_ISSPACE), also the regex
    class \s. *)
Definition isspace (c : N) : bool :=
  ((9 <=? c) && (c <=? 13)) || ((28 <=? c) && (c <=? 32))
  || (c =? 133) || (c =? 160) || (c =? 5760)
  || ((8192 <=? c) && (c <=? 8202))
  || (c =? 8232) || (c =? 8233) || (c =? 8239) || (c =? 8287) || (c =? 12288).

(** Letters, digits and letter case are those of the Basic Latin block:
    [str.isalpha], [str.upper], [str.lower] and the regex classes \d, \w, \b
    and the flag [re.IGNORECASE] agree with the definitions below on text
    whose code points are below 128, and only there.  Statements that rest
    on them for arbitrary input are made for such text. *)
Definition is_upper (c : N) : bool := (65 <=? c) && (c <=? 90).
Definition is_lower (c : N) : bool := (97 <=? c) && (c <=? 122).
Definition is_digit (c : N) : bool := (48 <=? c) && (c <=? 57).
Definition isalpha (c : N) : bool := is_upper c || is_lower c.
(** The regex class \w. *)
Definition is_word (c : N) : bool := isalpha c || is_digit c || (c =? 95).

Definition lower1 (c : N) : N := if is_upper c then c + 32 else c.
Definition upper1 (c : N) : N := if is_lower c then c - 32 else c.
Definition lower (s : pystr) : pystr := map lower1 s.
Definition upper (s : pystr) : pystr := map upper1 s.

Definition mem (c : N) (cs : pystr) : bool := existsb (N.eqb c) cs.

(** [s.lstrip()], [s.rstrip()], [s.strip()] and the forms with a character
    set, over a class [p]. *)
Fixpoint lstrip_by (p : N -> bool) (s : pystr) : pystr :=
  match s with
  | c :: r => if p c then lstrip_by p r else s
  | [] => []
  end.

Definition rstrip_by (p : N -> bool) (s : pystr) : pystr :=
  rev (lstrip_by p (rev s)).

Definition strip_by (p : N -> bool) (s : pystr) : pystr :=
  rstrip_by p (lstrip_by p s).

Definition strip (s : pystr) : pystr := strip_by isspace s.
Definition strip_chars (cs : pystr) (s : pystr) : pystr :=
  strip_by (fun c => mem c cs) s.
Definition rstrip_chars (cs : pystr) (s : pystr) : pystr :=
  rstrip_by (fun c => mem c cs) s.

Fixpoint starts_with (pre s : pystr) : bool :=
  match pre, s with
  | [], _ => true
  | x :: pre', y :: s' => (x =? y) && starts_with pre' s'
  | _ :: _, [] => false
  end.

(** [needle in s]. *)
Fixpoint contains (needle s : pystr) : bool :=
  starts_with needle s ||
  match s with
  | [] => false
  | _ :: r => contains needle r
  end.

(** [s.replace(old, new)] for a non-empty [old]: non-overlapping occurrences,
    left to right.  [skip] counts the characters of an occurrence still to be
    dropped. *)
Fixpoint replace_go (old new : pystr) (skip : nat) (s : pystr) : pystr :=
  match s with
  | [] => []
  | c :: r =>
      match skip with
      | S k => replace_go old new k r
      | O => if starts_with old s
             then new ++ replace_go old new (Nat.pred (length old)) r
             else c :: replace_go old new 0 r
      end
  end.

Definition replace (old new s : pystr) : pystr := replace_go old new 0 s.

(** [s.split(sep)] for a one-character separator: empty pieces are kept. *)
Fixpoint split_on (sep : N) (cur : pystr) (s : pystr) : list pystr :=
  match s with
  | [] => [rev cur]
  | c :: r => if c =? sep then rev cur :: split_on sep [] r
              else split_on sep (c :: cur) r
  end.

Definition split (sep : N) (s : pystr) : list pystr := split_on sep [] s.

(** [sep.join(parts)]. *)
Fixpoint join (sep : pystr) (parts : list pystr) : pystr :=
  match parts with
  | [] => []
  | [p] => p
  | p :: rest => p ++ sep ++ join sep rest
  end.

Definition nonempty (s : pystr) : bool :=
  match s with [] => false | _ => true end.

(* ------------------------------------------------------------------ *)
(** ** Regular expressions

    The patterns of the program only repeat single character classes, so a
    repetition node carries a class.  Matching is by backtracking in the
    priority order of Python's [re]: [ends r st] lists, best first, every
    state in which a match of [r] begun in [st] can stop.  A state is the
    text captured by the groups closed so far, the text before the position
    (reversed) and the text after it. *)

Inductive regex :=
| Eps
| Chr (p : N -> bool)
| Seq (a b : regex)
| Alt (a b : regex)
| Rep (p : N -> bool) (lo : nat) (greedy : bool)
| Grp (a : regex)
| Wordb
| Eos.

Definition rstate : Type := list pystr * pystr * pystr.

(** Stops of [p{lo,}], shortest first. *)
Fixpoint rep_asc (p : N -> bool) (lo : nat) (bef aft : pystr)
  : list (pystr * pystr) :=
  (match lo with O => [(bef, aft)] | S _ => [] end) ++
  match aft with
  | c :: r => if p c then rep_asc p (Nat.pred lo) (c :: bef) r else []
  | [] => []
  end.

Definition hd_word (s : pystr) : bool :=
  match s with c :: _ => is_word c | [] => false end.

(** $ without MULTILINE: the end, or just before a final newline. *)
Definition at_eos (aft : pystr) : bool :=
  match aft with
  | [] => true
  | [c] => c =? NL
  | _ => false
  end.

Fixpoint ends (r : regex) (st : rstate) : list rstate :=
  let '(caps, bef, aft) := st in
  match r with
  | Eps => [st]
  | Chr p => match aft with
             | c :: rest => if p c then [(caps, c :: bef, rest)] else []
             | [] => []
             end
  | Seq a b => flat_map (ends b) (ends a st)
  | Alt a b => ends a st ++ ends b st
  | Rep p lo greedy =>
      let stops := rep_asc p lo bef aft in
      map (fun '(b, a) => (caps, b, a)) (if greedy then rev stops else stops)
  | Grp a =>
      map (fun '(caps', bef', aft') =>
             (caps' ++ [firstn (length aft - length aft') aft], bef', aft'))
          (ends a st)
  | Wordb => if xorb (hd_word bef) (hd_word aft) then [st] else []
  | Eos => if at_eos aft then [st] else []
  end.

(** A match: where it starts, how long it is, its groups, and the text that
    follows it. *)
Record rmatch := { m_start : nat; m_len : nat; m_groups : list pystr;
                   m_rest : pystr }.

Definition m_end (m : rmatch) : nat := (m_start m + m_len m)%nat.

Definition match_here (r : regex) (bef aft : pystr) : option rmatch :=
  match ends r ([], bef, aft) with
  | (caps, bef', aft') :: _ =>
      Some {| m_start := length bef; m_len := length aft - length aft';
              m_groups := caps; m_rest := aft' |}
  | [] => None
  end.

(** [re.search]: the first position, from the left, at which a match begins. *)
Fixpoint search_from (r : regex) (bef aft : pystr) : option rmatch :=
  match match_here r bef aft with
  | Some m => Some m
  | None => match aft with
            | c :: rest => search_from r (c :: bef) rest
            | [] => None
            end
  end.

Definition re_search (r : regex) (s : pystr) : option rmatch :=
  search_from r [] s.

Definition slice (i j : nat) (s : pystr) : pystr := firstn (j - i) (skipn i s).

(** [m.group(0)] *)
Definition group0 (s : pystr) (m : rmatch) : pystr :=
  slice (m_start m) (m_end m) s.

(** [re.sub(r, repl, s)] for a literal replacement: scanning left to right,
    each match is replaced and scanning resumes behind it; an empty match
    also lets the next character through. *)
Fixpoint sub_go (fuel : nat) (r : regex) (repl : pystr) (bef aft : pystr)
  : pystr :=
  match fuel with
  | O => aft
  | S f =>
      match match_here r bef aft with
      | Some m =>
          let n := m_len m in
          match n, aft with
          | O, c :: rest => repl ++ c :: sub_go f r repl (c :: bef) rest
          | O, [] => repl
          | S _, _ => repl ++ sub_go f r repl (rev (firstn n aft) ++ bef) (m_rest m)
          end
      | None => match aft with
                | c :: rest => c :: sub_go f r repl (c :: bef) rest
                | [] => []
                end
      end
  end.

Definition re_sub (r : regex) (repl s : pystr) : pystr :=
  sub_go (S (length s)) r repl [] s.

(** [re.split(r, s)] for a pattern without groups. *)
Fixpoint split_go (fuel : nat) (r : regex) (cur : pystr) (bef aft : pystr)
  : list pystr :=
  match fuel with
  | O => [rev cur ++ aft]
  | S f =>
      match match_here r bef aft with
      | Some m =>
          let n := m_len m in
          match n, aft with
          | O, c :: rest => rev cur :: split_go f r [c] (c :: bef) rest
          | O, [] => [rev cur; []]
          | S _, _ => rev cur ::
                      split_go f r [] (rev (firstn n aft) ++ bef) (m_rest m)
          end
      | None => match aft with
                | c :: rest => split_go f r (c :: cur) (c :: bef) rest
                | [] => [rev cur]
                end
      end
  end.

Definition re_split (r : regex) (s : pystr) : list pystr :=
  split_go (S (length s)) r [] [] s.

(** Pattern builders. *)
Definition lit1 (c : N) : regex := Chr (N.eqb c).
Definition lit1_i (c : N) : regex := Chr (fun x => lower1 x =? lower1 c).

Fixpoint lit (s : pystr) : regex :=
  match s with
  | [] => Eps
  | [c] => lit1 c
  | c :: r => Seq (lit1 c) (lit r)
  end.

Fixpoint lit_i (s : pystr) : regex :=
  match s with
  | [] => Eps
  | [c] => lit1_i c
  | c :: r => Seq (lit1_i c) (lit_i r)
  end.

Fixpoint alts (rs : list regex) : regex :=
  match rs with
  | [] => Chr (fun _ => false)
  | [r] => r
  | r :: rest => Alt r (alts rest)
  end.

Fixpoint seqs (rs : list regex) : regex :=
  match rs with
  | [] => Eps
  | [r] => r
  | r :: rest => Seq r (seqs rest)
  end.

(** The class of "." : anything but a newline. *)
Definition dot (c : N) : bool := negb (c =? NL).
Definition ascii_letter (c : N) : bool := is_upper c || is_lower c.
Definition blank (c : N) : bool := (c =? SP) || (c =? 9).

(* ------------------------------------------------------------------ *)
(** ** Small utilities: formatting, text *)

(** A value handed to the templating engine: a plain string, or a
    [RichText] run highlighted in yellow ([_yellow]). *)
Inductive text :=
| Plain (s : pystr)
| Yellow (s : pystr).

Definition _yellow (s : pystr) : text := Yellow s.

Definition _is_chefs_choice_soup (title : pystr) : bool :=
  let s := replace (py "’") (py "'") (lower title) in
  contains (py "chef") s && contains (py "choice") s && contains (py "soup") s.

Fixpoint first_alpha_idx (s : pystr) : option nat :=
  match s with
  | [] => None
  | c :: r => if isalpha c then Some O
              else option_map S (first_alpha_idx r)
  end.

Definition sentence_case (s : pystr) : pystr :=
  let s := strip s in
  if negb (nonempty s) then s
  else match first_alpha_idx s with
       | None => s
       | Some i => firstn i s ++ upper (slice i (i + 1) s)
                   ++ lower (skipn (i + 1) s)
       end.

(** \s*\((Ve|V)\)\s*$ *)
Definition SUFFIX_RE : regex :=
  seqs [Rep isspace 0 true; lit1 (chr_of "("); Grp (Alt (lit (py "Ve")) (lit (py "V")));
        lit1 (chr_of ")"); Rep isspace 0 true; Eos].

Definition strip_suffixes (s : pystr) : pystr :=
  strip (re_sub SUFFIX_RE [] s).

Definition add_suffix (s suffix : pystr) : pystr :=
  strip (strip_suffixes s ++ py " " ++ suffix).

(** ,|/|\t+|\s{2,}|\n+ *)
Definition SIDES_SPLIT_RE : regex :=
  alts [lit1 (chr_of ","); lit1 (chr_of "/"); Rep (N.eqb 9) 1 true;
        Rep isspace 2 true; Rep (N.eqb NL) 1 true].

(** The de-duplication loop of [normalise_sides]. *)
Fixpoint uniq_lower (seen : gset pystr) (parts : list pystr) : list pystr :=
  match parts with
  | [] => []
  | p :: rest =>
      if decide (lower p ∈ seen) then uniq_lower seen rest
      else p :: uniq_lower ({[lower p]} ∪ seen) rest
  end.

Definition normalise_sides (text : pystr) : pystr :=
  if negb (nonempty text) then []
  else
    let raw := replace (py "\r") (py "\n") text in
    let parts := re_split SIDES_SPLIT_RE raw in
    let parts :=
      map (fun p => strip (rstrip_chars (py ".") (strip_chars (py " -–•") p)))
          (List.filter (fun p => nonempty p && nonempty (strip p)) parts) in
    join (py ", ") (uniq_lower ∅ parts).

Definition ensure_len {A} (lst : list A) (n : nat) (filler : A) : list A :=
  firstn n (lst ++ repeat filler (n - length lst)).

(* ------------------------------------------------------------------ *)
(** ** Allergens mapping / parsing *)

Definition CANON_COLS : list pystr :=
  map py ["Celery"; "Cereals with Gluten"; "Crustaceans"; "Eggs"; "Fish";
          "Lupin"; "Milk"; "Molluscs"; "Mustards"; "Peanuts";
          "Nuts from Trees"; "Sesame"; "Soybeans"; "Sulphur"; "Alcohol";
          "Pork"]%string.

Definition ALLERGEN_NORMALISE : gmap pystr pystr :=
  list_to_map
    (map (fun '(k, v) => (py k, py v))
       [("celery", "Celery"); ("gluten", "Cereals with Gluten");
        ("cereals with gluten", "Cereals with Gluten");
        ("crustaceans", "Crustaceans"); ("egg", "Eggs"); ("eggs", "Eggs");
        ("fish", "Fish"); ("lupin", "Lupin"); ("milk", "Milk");
        ("mollusc", "Molluscs"); ("molluscs", "Molluscs");
        ("mustard", "Mustards"); ("mustards", "Mustards");
        ("peanut", "Peanuts"); ("peanuts", "Peanuts");
        ("tree nuts", "Nuts from Trees"); ("nuts", "Nuts from Trees");
        ("sesame", "Sesame"); ("soya", "Soybeans"); ("soy", "Soybeans");
        ("soybeans", "Soybeans"); ("sulphite", "Sulphur");
        ("sulphites", "Sulphur"); ("sulfur dioxide", "Sulphur");
        ("sulphur dioxide", "Sulphur"); ("sulphur", "Sulphur");
        ("alcohol", "Alcohol"); ("pork", "Pork")]%string).

Definition NON_VEGAN_CANON : gset pystr := {[ py "Milk"; py "Eggs" ]}.

(** \b(?:Milk|Egg|Soya|Gluten|Nuts|Peanuts|Sesame|Mustard|Celery|Sulphites|Fish|Crustaceans|Molluscs)\b.*$
    with IGNORECASE *)
Definition ALLERGEN_WORDS : list pystr :=
  map py ["Milk"; "Egg"; "Soya"; "Gluten"; "Nuts"; "Peanuts"; "Sesame";
          "Mustard"; "Celery"; "Sulphites"; "Fish"; "Crustaceans";
          "Molluscs"]%string.

Definition ALLERGEN_TAIL_RE : regex :=
  seqs [Wordb; alts (map lit_i ALLERGEN_WORDS); Wordb; Rep dot 0 true; Eos].

(** The tokens of a comma or slash separated list, trimmed, blanks dropped. *)
Definition csv_tokens (csv_text : pystr) : list pystr :=
  let raw := replace (py "/") (py ",") csv_text in
  map strip (List.filter (fun t => nonempty (strip t)) (split (chr_of ",") raw)).

Definition _parse_allergen_csv (csv_text : pystr) : gset pystr :=
  if negb (nonempty csv_text) then ∅
  else
    list_to_set
      (omap (fun t => ALLERGEN_NORMALISE !! lower t) (csv_tokens csv_text)).

Definition _scrub_vegan_csv_to_canonset (csv_text : pystr) : gset pystr :=
  filter (fun c => c ∉ NON_VEGAN_CANON) (_parse_allergen_csv csv_text).

Definition FORBIDDEN : gset pystr := {[ py "milk"; py "egg"; py "eggs" ]}.

Definition _remove_tokens_from_csv (csv_text : pystr) : pystr :=
  if negb (nonempty csv_text) then []
  else
    let keep := List.filter (fun t => bool_decide (lower t ∉ FORBIDDEN))
                       (csv_tokens csv_text) in
    join (py ", ") keep.

(* ------------------------------------------------------------------ *)
(** ** Weekly grid parsing *)

(** The dict returned by [parse_title_desc_allergens]. *)
Record Cell := { c_title : pystr; c_description : pystr; c_allergens : pystr }.

(** [ \t]{2,}  and  \s*,\s* *)
Definition LONG_SPACES_RE : regex := Rep blank 2 true.
Definition COMMA_RE : regex :=
  seqs [Rep isspace 0 true; lit1 (chr_of ","); Rep isspace 0 true].

Definition tidy_allergens (allergens : pystr) : pystr :=
  if nonempty allergens then
    let a := re_sub COMMA_RE (py ", ") allergens in
    strip_chars (py " ,") (replace (py " ,") (py ",") a)
  else allergens.

Definition split_body (body : pystr) : pystr * pystr :=
  let body := re_sub LONG_SPACES_RE (py "\n") body in
  let lines := List.filter nonempty (map strip (split NL body)) in
  let title := match lines with l :: _ => l | [] => [] end in
  let description :=
    if (1 <? length lines)%nat then strip (join (py " ") (tl lines)) else [] in
  (title, description).

Definition parse_title_desc_allergens (cell_text : pystr) : Cell :=
  let raw := strip (replace (py "\r") (py "\n") cell_text) in
  let '(allergens, body) :=
    match re_search ALLERGEN_TAIL_RE raw with
    | Some m => (strip (skipn (m_start m) raw), strip (firstn (m_start m) raw))
    | None => ([], raw)
    end in
  let '(title, description) := split_body body in
  {| c_title := title; c_description := description;
     c_allergens := tidy_allergens allergens |}.


(* ------------------------------------------------------------------ *)
(** ** Dates

    [datetime.strptime] for the three formats of [to_iso], as CPython's
    [_strptime] does it: the format becomes a pattern ([%d], [%m], [%y], [%Y]
    are groups of digits), [re.match] must consume the whole string, and the
    numbers must form a calendar date with a year in 1..9999. *)

Record date := { year : N; month : N; day : N }.

Definition in_range (lo hi : string) (c : N) : bool :=
  (chr_of lo <=? c) && (c <=? chr_of hi).

(** 3[0-1]|[1-2]\d|0[1-9]|[1-9]| [1-9] *)
Definition RE_d : regex :=
  Grp (alts [Seq (lit1 (chr_of "3")) (Chr (in_range "0" "1"));
             Seq (Chr (in_range "1" "2")) (Chr is_digit);
             Seq (lit1 (chr_of "0")) (Chr (in_range "1" "9"));
             Chr (in_range "1" "9");
             Seq (lit1 SP) (Chr (in_range "1" "9"))]).
(** 1[0-2]|0[1-9]|[1-9] *)
Definition RE_m : regex :=
  Grp (alts [Seq (lit1 (chr_of "1")) (Chr (in_range "0" "2"));
             Seq (lit1 (chr_of "0")) (Chr (in_range "1" "9"));
             Chr (in_range "1" "9")]).
Definition RE_y : regex := Grp (Seq (Chr is_digit) (Chr is_digit)).
Definition RE_Y : regex :=
  Grp (seqs [Chr is_digit; Chr is_digit; Chr is_digit; Chr is_digit]).

Inductive date_format := DMY4 | DMY2 | ISO.

Definition format_regex (f : date_format) : regex :=
  match f with
  | DMY4 => seqs [RE_d; lit1 (chr_of "/"); RE_m; lit1 (chr_of "/"); RE_Y]
  | DMY2 => seqs [RE_d; lit1 (chr_of "/"); RE_m; lit1 (chr_of "/"); RE_y]
  | ISO => seqs [RE_Y; lit1 (chr_of "-"); RE_m; lit1 (chr_of "-"); RE_d]
  end.

(** [int(s)] of a group: decimal digits, a leading blank ignored. *)
Definition int_of (s : pystr) : N :=
  fold_left (fun acc c => if is_digit c then acc * 10 + (c - 48) else acc) s 0.

Definition is_leap (y : N) : bool :=
  ((y mod 4 =? 0) && negb (y mod 100 =? 0)) || (y mod 400 =? 0).

Definition days_in_month (y m : N) : N :=
  if m =? 2 then (if is_leap y then 29 else 28)
  else if (m =? 4) || (m =? 6) || (m =? 9) || (m =? 11) then 30
  else 31.

Definition make_date (y m d : N) : option date :=
  if (1 <=? y) && (y <=? 9999) && (1 <=? m) && (m <=? 12)
     && (1 <=? d) && (d <=? days_in_month y m)
  then Some {| year := y; month := m; day := d |}
  else None.

Definition century (y : N) : N := if y <=? 68 then y + 2000 else y + 1900.

(** [None] stands for the ValueError of [strptime]. *)
Definition strptime (ds : pystr) (f : date_format) : option date :=
  match match_here (format_regex f) [] ds with
  | Some m =>
      if negb (m_end m =? length ds)%nat then None
      else match f, m_groups m with
           | DMY4, [d; mo; y] => make_date (int_of y) (int_of mo) (int_of d)
           | DMY2, [d; mo; y] =>
               make_date (century (int_of y)) (int_of mo) (int_of d)
           | ISO, [y; mo; d] => make_date (int_of y) (int_of mo) (int_of d)
           | _, _ => None
           end
  | None => None
  end.

Definition digit_chr (n : N) : N := 48 + n mod 10.
Definition pad2 (n : N) : pystr := [digit_chr (n / 10); digit_chr n].
Definition pad4 (n : N) : pystr :=
  [digit_chr (n / 1000); digit_chr (n / 100); digit_chr (n / 10); digit_chr n].

Definition isoformat (d : date) : pystr :=
  pad4 (year d) ++ py "-" ++ pad2 (month d) ++ py "-" ++ pad2 (day d).

(** The loop of [to_iso]: the first format that parses decides. *)
Fixpoint first_parse (ds : pystr) (fmts : list date_format) : option date :=
  match fmts with
  | [] => None
  | f :: rest => match strptime ds f with
                 | Some d => Some d
                 | None => first_parse ds rest
                 end
  end.

Definition DATE_FORMATS : list date_format := [DMY4; DMY2; ISO].

Definition to_iso (date_str : pystr) : pystr :=
  let ds := strip date_str in
  match first_parse ds DATE_FORMATS with
  | Some d => isoformat d
  | None => ds
  end.

(** [date.fromisoformat] on the form YYYY-MM-DD, the form [isoformat]
    writes, where it reads what [strptime] reads with the ISO pattern.  On
    other strings the two differ (unpadded fields, the basic form YYYYMMDD);
    statements about [date_label] are made for strings [isoformat] wrote. *)
Definition fromisoformat (s : pystr) : option date := strptime s ISO.

(** [d.strftime('%d/%m/%Y')], the year written with four digits, as the
    platform writes the years from 1000 on. *)
Definition strftime_dmy (d : date) : pystr :=
  pad2 (day d) ++ py "/" ++ pad2 (month d) ++ py "/" ++ pad4 (year d).

Definition date_label (iso_date weekday_name : pystr) : pystr :=
  match fromisoformat iso_date with
  | Some d => weekday_name ++ py " – " ++ strftime_dmy d
  | None => weekday_name ++ py " – " ++ iso_date
  end.

(* ------------------------------------------------------------------ *)
(** ** The day record *)

(** A {"title": ..., "allergens": ...} dict. *)
Record Item := { title : pystr; allergens : pystr }.

Record Header := { theme : pystr; date_ : pystr; date_iso : pystr;
                   weekday : pystr }.

Record Lunch := { starters : list Item; veg_main : Cell; meat_main : Cell;
                  vegan_main : Cell; optional_sides : Item;
                  desserts : list Item }.

Record Supper := { starter : Item; selection : pystr; specials : Cell;
                   vegan_special : Cell; s_desserts : list Item }.

Record Source := { lunch : Lunch; supper : Supper }.

Record Day := { header : Header; source : Source }.

(** The weekly table: rows of cell texts.  [cell] is the accessor of
    [parse_week], which answers the empty string wherever the table has no
    such cell. *)
Definition Grid := list (list pystr).

Definition cell (rows : Grid) (r c : nat) : pystr :=
  match nth_error rows r with
  | Some row => match nth_error row c with
                | Some t => t
                | None => []
                end
  | None => []
  end.

Definition WEEKDAYS : list pystr :=
  map py ["Monday"; "Tuesday"; "Wednesday"; "Thursday"; "Friday"; "Saturday";
          "Sunday"]%string.

Definition EMPTY_ITEM : Item := {| title := []; allergens := [] |}.

Definition item_of (c : Cell) : Item :=
  {| title := c_title c; allergens := c_allergens c |}.

Definition ICE_CREAMS : pystr := py "Ice creams / sorbet (V)".
Definition VEGAN_ICES : pystr :=
  py "Selection of vegan ice creams or sorbet with seasonal fruits (Ve)".
Definition SELECTION_ALLERGENS : pystr := py "Sulphites, Gluten, Mustard, Soya".

Section ParseWeek.
Variable rows : Grid.

(** g[r] of [daily]: the parsed cell of row [r] in the day's column. *)
Definition g (day_idx r : nat) : Cell :=
  parse_title_desc_allergens (cell rows r (day_idx + 1)).

Definition daily (day_idx : nat) : Day :=
  let day_name :=
    let n := strip (cell rows 0 (day_idx + 1)) in
    if nonempty n then n else nth day_idx WEEKDAYS [] in
  let date_iso := to_iso (strip (cell rows 1 (day_idx + 1))) in
  let theme := strip (cell rows 2 (day_idx + 1)) in
  let g := g day_idx in
  let lunch_starters := [item_of (g 3%nat); item_of (g 4%nat)] in
  let opt_raw :=
    strip (join (py " ") [c_title (g 8%nat); c_description (g 8%nat)]) in
  let opt_sides := {| title := normalise_sides opt_raw;
                      allergens := c_allergens (g 8%nat) |} in
  let desserts_ :=
    [item_of (g 9%nat);
     {| title := ICE_CREAMS; allergens := c_allergens (g 10%nat) |}] in
  let supper_desserts :=
    [item_of (g 16%nat);
     {| title := VEGAN_ICES; allergens := c_allergens (g 17%nat) |}] in
  {| header := {| theme := theme; date_ := date_label date_iso day_name;
                  date_iso := date_iso; weekday := day_name |};
     source :=
       {| lunch := {| starters := ensure_len lunch_starters 2 EMPTY_ITEM;
                      veg_main := g 6%nat; meat_main := g 7%nat;
                      vegan_main := g 5%nat;
                      optional_sides := opt_sides;
                      desserts := ensure_len desserts_ 2 EMPTY_ITEM |};
          supper := {| starter := {| title := py "Chef’s choice soup";
                                     allergens := c_allergens (g 12%nat) |};
                       selection := SELECTION_ALLERGENS;
                       specials := g 15%nat;
                       vegan_special := g 13%nat;
                       s_desserts := ensure_len supper_desserts 2 EMPTY_ITEM |}
       |} |}.

(** {"days": [daily(i) for i in range(7)]} *)
Definition parse_week : list Day := map daily (seq 0 7).
End ParseWeek.

(* ------------------------------------------------------------------ *)
(** ** Display contexts *)

Inductive exn := IndexError | KeyError | TypeError.

(** The outcome of code that may raise. *)
Definition result (A : Type) : Type := exn + A.

Definition ret {A} (a : A) : result A := inr a.
Definition bind {A B} (m : result A) (f : A -> result B) : result B :=
  match m with
  | inl e => inl e
  | inr a => f a
  end.

Notation "'let*' x ':=' m 'in' k" := (bind m (fun x => k))
  (at level 10, x name, m at level 100, k at level 200, only parsing).

(** [lst[i]] *)
Definition idx {A} (lst : list A) (i : nat) : result A :=
  match nth_error lst i with
  | Some a => ret a
  | None => inl IndexError
  end.

(** An entry whose title may be a highlighted run. *)
Record TItem := { t_title : text; t_allergens : pystr }.

(** A vegan main or special: the description may be a highlighted run. *)
Record VMain := { v_title : pystr; v_description : text; v_allergens : pystr }.

Record CtxHeader := { h_theme : pystr; h_date : pystr }.

Record StdLunch := { sl_starters : list TItem; sl_mains : list Cell;
                     sl_optional_sides : Item; sl_desserts : list Item }.
Record StdSupper := { ss_starter : TItem; ss_selection : pystr;
                      ss_specials : Cell; ss_desserts : list Item }.
Record StdContext := { std_header : CtxHeader; std_days : CtxHeader;
                       std_lunch : StdLunch; std_supper : StdSupper }.

Record VegLunch := { vl_starters : list Item; vl_mains : list VMain;
                     vl_optional_sides : Item; vl_desserts : list TItem }.
Record VegSupper := { vs_starter : TItem; vs_selection : Item;
                      vs_specials : VMain; vs_desserts : list TItem }.
Record VegContext := { veg_header : CtxHeader; veg_days : CtxHeader;
                       veg_lunch : VegLunch; veg_supper : VegSupper }.

(** The soup highlight of the Standard menu. *)
Definition highlight_soup (t : pystr) : text :=
  if _is_chefs_choice_soup t then _yellow t else Plain t.

Definition build_standard_context (day : Day) : result StdContext :=
  let src := source day in
  let header := header day in
  let starters_ := ensure_len (starters (lunch src)) 2 EMPTY_ITEM in
  let mv := veg_main (lunch src) in
  let mm := meat_main (lunch src) in
  let mains :=
    [ {| c_title := strip_suffixes (c_title mv) ++ py " (V)";
         c_description := c_description mv; c_allergens := c_allergens mv |};
      {| c_title := strip_suffixes (c_title mm);
         c_description := c_description mm; c_allergens := c_allergens mm |} ] in
  let opt := optional_sides (lunch src) in
  let* d0 := idx (desserts (lunch src)) 0 in
  let d0_title := sentence_case (strip_suffixes (title d0)) ++ py " (V)" in
  let* d1 := idx (desserts (lunch src)) 1 in
  let d1_all := allergens d1 in
  let* st0 := idx (starters (lunch src)) 0 in
  let supper_starter_title := py "Chef’s choice soup (V)" in
  let sp := specials (supper src) in
  let* sd0 := idx (s_desserts (supper src)) 0 in
  let sd0_title := sentence_case (strip_suffixes (title sd0)) ++ py " (V)" in
  let* sd1 := idx (s_desserts (supper src)) 1 in
  let sd1_all := allergens sd1 in
  let* s0 := idx starters_ 0 in
  let* s1 := idx starters_ 1 in
  ret {| std_header := {| h_theme := theme header; h_date := date_ header |};
         std_days := {| h_theme := theme header; h_date := date_ header |};
         std_lunch :=
           {| sl_starters :=
                [ {| t_title := highlight_soup (title s0);
                     t_allergens := allergens s0 |};
                  {| t_title := highlight_soup (title s1);
                     t_allergens := allergens s1 |} ];
              sl_mains := mains;
              sl_optional_sides :=
                {| title := title opt; allergens := allergens opt |};
              sl_desserts :=
                [ {| title := d0_title; allergens := allergens d0 |};
                  {| title := title d1; allergens := d1_all |} ] |};
         std_supper :=
           {| ss_starter := {| t_title := highlight_soup supper_starter_title;
                               t_allergens := allergens st0 |};
              ss_selection := SELECTION_ALLERGENS;
              ss_specials :=
                {| c_title := strip_suffixes (c_title sp);
                   c_description := c_description sp;
                   c_allergens := c_allergens sp |};
              ss_desserts :=
                [ {| title := sd0_title; allergens := allergens sd0 |};
                  {| title := title sd1; allergens := sd1_all |} ] |} |}.

(** [A-Za-z].+\(ve\), ([A-Za-z].*?\(ve\)) and [A-Za-z].*?\(ve\)\s*,
    all with IGNORECASE *)
Definition VE_ANY_RE : regex :=
  seqs [Chr ascii_letter; Rep dot 1 true; lit_i (py "(ve)")].
Definition VE_TITLE_RE : regex :=
  Grp (seqs [Chr ascii_letter; Rep dot 0 false; lit_i (py "(ve)")]).
Definition VE_CUT_RE : regex :=
  seqs [Chr ascii_letter; Rep dot 0 false; lit_i (py "(ve)");
        Rep isspace 0 true].

Definition is_some {A} (o : option A) : bool :=
  match o with Some _ => true | None => false end.

(** The guard against a title dumped in the allergens: from the raw title
    and allergens of a vegan row to the pair used afterwards. *)
Definition recover_title (title_raw all_raw : pystr) : pystr * pystr :=
  if contains (py "(ve") (lower all_raw) || is_some (re_search VE_ANY_RE all_raw)
  then
    let title_raw :=
      match re_search VE_TITLE_RE all_raw with
      | Some m =>
          if (length (strip_suffixes title_raw) <? 2)%nat
          then strip (nth 0 (m_groups m) [])
          else title_raw
      | None => title_raw
      end in
    (title_raw, strip (re_sub VE_CUT_RE [] all_raw))
  else (title_raw, all_raw).

(** \s*(?:/|\n|;|\||\bor\b)\s* with IGNORECASE *)
Definition VARIANT_SPLIT_RE : regex :=
  seqs [Rep isspace 0 true;
        alts [lit1 (chr_of "/"); lit1 NL; lit1 (chr_of ";"); lit1 (chr_of "|");
              seqs [Wordb; lit_i (py "or"); Wordb]];
        Rep isspace 0 true].

Definition VE : pystr := py "(Ve)".

Definition pick_vegan_variant (title description : pystr) : pystr :=
  let combined := strip (join (py " ") [title; description]) in
  if negb (nonempty combined) then add_suffix title VE
  else
    let parts := re_split VARIANT_SPLIT_RE combined in
    match find (fun p => contains (py "(ve)") (lower p)
                         || contains (py "vegan") (lower p)) parts with
    | Some p => add_suffix (strip_suffixes (strip p)) VE
    | None => add_suffix (strip_suffixes title) VE
    end.

(** A description of the vegan menu: the row's own, or the Standard one
    borrowed and highlighted. *)
Definition borrow_desc (own std : pystr) : text :=
  let own := strip own in
  if nonempty own then Plain own
  else let borrowed := strip std in
       if nonempty borrowed then _yellow borrowed else Plain [].

Definition VEGAN_DESSERTS_ALL : pystr := py "Gluten, Nuts, Soya, Sulphites".

Definition build_vegan_context (day : Day) : result VegContext :=
  let src := source day in
  let header := header day in
  let starters_ := ensure_len (starters (lunch src)) 2 EMPTY_ITEM in
  let* s0 := idx starters_ 0 in
  let lunch_soup_title := add_suffix (strip_suffixes (title s0)) VE in
  let lunch_soup_all := _remove_tokens_from_csv (allergens s0) in
  let vmain := vegan_main (lunch src) in
  let vegstd := veg_main (lunch src) in
  let '(v_title_raw, v_all_raw) :=
    recover_title (c_title vmain) (c_allergens vmain) in
  let vegan_main_title := add_suffix (strip_suffixes v_title_raw) VE in
  let vegan_main_desc :=
    borrow_desc (c_description vmain) (c_description vegstd) in
  let vegan_main_all := _remove_tokens_from_csv v_all_raw in
  let opt_title := title (optional_sides (lunch src)) in
  let opt_all :=
    _remove_tokens_from_csv (allergens (optional_sides (lunch src))) in
  let* d0 := idx (desserts (lunch src)) 0 in
  let lunch_dessert_title :=
    _yellow (sentence_case (strip_suffixes (title d0)) ++ py " (Ve)") in
  let lunch_ice_title := VEGAN_ICES in
  let supper_soup_title := _yellow (py "Chef’s choice soup (Ve)") in
  let supper_soup_all := _remove_tokens_from_csv (allergens s0) in
  let sp_std := specials (supper src) in
  let sp_veg := vegan_special (supper src) in
  let '(vs_title_raw, vs_all_raw) :=
    recover_title (c_title sp_veg) (c_allergens sp_veg) in
  let vs_title_raw :=
    if negb (nonempty (strip vs_title_raw))
    then add_suffix
           (strip_suffixes
              (pick_vegan_variant (c_title sp_std) (c_description sp_std))) VE
    else vs_title_raw in
  let veg_special_title := add_suffix (strip_suffixes vs_title_raw) VE in
  let veg_special_desc :=
    borrow_desc (c_description sp_veg) (c_description sp_std) in
  let veg_special_all := _remove_tokens_from_csv vs_all_raw in
  let* sd0 := idx (s_desserts (supper src)) 0 in
  let supper_dessert_title :=
    _yellow (sentence_case (strip_suffixes (title sd0)) ++ py " (Ve)") in
  let supper_ice_title := VEGAN_ICES in
  ret {| veg_header := {| h_theme := theme header; h_date := date_ header |};
         veg_days := {| h_theme := theme header; h_date := date_ header |};
         veg_lunch :=
           {| vl_starters :=
                [ {| title := lunch_soup_title; allergens := lunch_soup_all |};
                  {| title := []; allergens := [] |} ];
              vl_mains :=
                [ {| v_title := py "Jacket potato and toppings (Ve)";
                     v_description := Plain []; v_allergens := [] |};
                  {| v_title := vegan_main_title;
                     v_description := vegan_main_desc;
                     v_allergens := vegan_main_all |} ];
              vl_optional_sides :=
                {| title := opt_title; allergens := opt_all |};
              vl_desserts :=
                [ {| t_title := lunch_dessert_title;
                     t_allergens := VEGAN_DESSERTS_ALL |};
                  {| t_title := Plain lunch_ice_title;
                     t_allergens := VEGAN_DESSERTS_ALL |} ] |};
         veg_supper :=
           {| vs_starter := {| t_title := supper_soup_title;
                               t_allergens := supper_soup_all |};
              vs_selection :=
                {| title := py "Henbrook’s assorted sandwiches (Ve)";
                   allergens := SELECTION_ALLERGENS |};
              vs_specials :=
                {| v_title := veg_special_title;
                   v_description := veg_special_desc;
                   v_allergens := veg_special_all |};
              vs_desserts :=
                [ {| t_title := supper_dessert_title;
                     t_allergens := VEGAN_DESSERTS_ALL |};
                  {| t_title := Plain supper_ice_title;
                     t_allergens := VEGAN_DESSERTS_ALL |} ] |} |}.

(* ------------------------------------------------------------------ *)
(** ** Allergens table: build rows *)

(** (title, set_of_columns, is_heading) *)
Definition Row : Type := pystr * gset pystr * bool.

Definition row_label (r : Row) : pystr := fst (fst r).
Definition row_cols (r : Row) : gset pystr := snd (fst r).
Definition row_is_heading (r : Row) : bool := snd r.

(** The [allergens] argument of [add]: a list still to be parsed, or a set
    of columns. *)
Inductive allergens_arg :=
| Csv (s : pystr)
| Cols (s : gset pystr).

(** The columns [add] ticks for its [allergens] argument. *)
Definition cols_of (allergens : allergens_arg) (force_vegan_dessert : bool)
  : gset pystr :=
  match allergens with
  | Cols s => s
  | Csv a => _parse_allergen_csv
               (if force_vegan_dessert then VEGAN_DESSERTS_ALL else a)
  end.

(** The local [add] of the assembler, on the list of rows built so far. *)
Definition add (items : list Row) (title : pystr) (allergens : allergens_arg)
    (heading force_vegan_dessert : bool) : list Row :=
  if heading then items ++ [(title, ∅, true)]
  else if negb (nonempty (strip title)) then items
  else items ++ [(strip title, cols_of allergens force_vegan_dessert, false)].

Definition JACKET_COLS : gset pystr :=
  {[ py "Celery"; py "Sulphur"; py "Cereals with Gluten"; py "Mustards" ]}.

Definition add_vegan_main (items : list Row) (m : VMain) : list Row :=
  if contains (py "jacket") (lower (v_title m))
  then add items (py "Jacket potato and toppings (Ve)") (Cols JACKET_COLS)
           false false
  else add items (v_title m)
           (Cols (_scrub_vegan_csv_to_canonset (v_allergens m))) false false.

Definition _collect_allergen_items_for_table
    (day : Day) (std_ctx : StdContext) (veg_ctx : VegContext)
  : result (list Row) :=
  let src := source day in
  let items := [] in
  (* ----- Standard ----- *)
  let items := add items (py "— Standard —") (Csv []) true false in
  let items :=
    fold_left (fun items st => add items (title st) (Csv (allergens st))
                                   false false)
              (starters (lunch src)) items in
  let items := add items (c_title (veg_main (lunch src)))
                   (Csv (c_allergens (veg_main (lunch src)))) false false in
  let items := add items (c_title (meat_main (lunch src)))
                   (Csv (c_allergens (meat_main (lunch src)))) false false in
  let items := add items (title (optional_sides (lunch src)))
                   (Csv (allergens (optional_sides (lunch src)))) false false in
  let* d0 := idx (sl_desserts (std_lunch std_ctx)) 0 in
  let items := add items (title d0) (Csv (allergens d0)) false false in
  let items := add items (py "Chef’s choice soup (V)")
                   (Csv (allergens (starter (supper src)))) false false in
  let items := add items (c_title (ss_specials (std_supper std_ctx)))
                   (Csv (c_allergens (ss_specials (std_supper std_ctx))))
                   false false in
  let* sd0 := idx (ss_desserts (std_supper std_ctx)) 0 in
  let items := add items (title sd0) (Csv (allergens sd0)) false false in
  (* ----- Vegan ----- *)
  let items := add items (py "— Vegan —") (Csv []) true false in
  let* st0 := idx (starters (lunch src)) 0 in
  let items := add items (add_suffix (title st0) VE)
                   (Cols (_scrub_vegan_csv_to_canonset (allergens st0)))
                   false false in
  let items := fold_left add_vegan_main (vl_mains (veg_lunch veg_ctx)) items in
  let items :=
    add items (title (optional_sides (lunch src)))
        (Cols (_scrub_vegan_csv_to_canonset
                 (allergens (optional_sides (lunch src))))) false false in
  let* ld0 := idx (desserts (lunch src)) 0 in
  let items := add items (sentence_case (strip_suffixes (title ld0)) ++ py " (Ve)")
                   (Csv VEGAN_DESSERTS_ALL) false true in
  let items :=
    add items (py "Chef’s choice soup (Ve)")
        (Cols (_scrub_vegan_csv_to_canonset (allergens (starter (supper src)))))
        false false in
  let items :=
    add items
        (add_suffix (strip_suffixes (c_title (vegan_special (supper src)))) VE)
        (Cols (_scrub_vegan_csv_to_canonset
                 (c_allergens (vegan_special (supper src))))) false false in
  let* sd := idx (s_desserts (supper src)) 0 in
  let items := add items (sentence_case (strip_suffixes (title sd)) ++ py " (Ve)")
                   (Csv VEGAN_DESSERTS_ALL) false true in
  ret items.

(** The three artifacts of one day, in the order in which
    [render_day_to_zip] derives them, each from the day record as the week
    parser returned it.  That is what the code computes on a day none of
    whose lunch starters is a chef's choice soup; on the other days
    [build_standard_context] writes into the record it is given (module
    [Store] below) and what runs after it sees the rewritten record. *)
Definition day_artifacts (day : Day)
  : result (StdContext * VegContext * list Row) :=
  let* std_ctx := build_standard_context day in
  let* veg_ctx := build_vegan_context day in
  let* rows := _collect_allergen_items_for_table day std_ctx veg_ctx in
  ret (std_ctx, veg_ctx, rows).

(* ------------------------------------------------------------------ *)
(** ** The Standard builder on Python's object store

    Dicts and lists are objects reached through references, so that two
    names for one dict see each other's assignments.  This is the level at
    which "the day record is left as it was" can be asked of
    [build_standard_context]. *)

Module Store.

Definition loc := nat.

Inductive val :=
| VNone
| VStr (s : pystr)
| VRich (s : pystr)      (* a RichText: one yellow run of [s] *)
| VRef (l : loc).        (* a dict or a list *)

Inductive obj :=
| ODict (d : gmap string val)
| OList (l : list val).

Abbreviation heap := (gmap loc obj).

(** A computation: the outcome and the store it leaves. *)
Definition M (A : Type) : Type := heap -> result A * heap.

Definition mret {A} (a : A) : M A := fun h => (inr a, h).
Definition raise {A} (e : exn) : M A := fun h => (inl e, h).
Definition mbind {A B} (m : M A) (f : A -> M B) : M B :=
  fun h => match m h with
           | (inr a, h') => f a h'
           | (inl e, h') => (inl e, h')
           end.

Notation "'let!' x ':=' m 'in' k" := (mbind m (fun x => k))
  (at level 10, x name, m at level 100, k at level 200, only parsing).

Definition alloc (o : obj) : M val :=
  fun h => let l := fresh (dom h) in (inr (VRef l), <[l := o]> h).

Definition deref (v : val) : M obj :=
  fun h => match v with
           | VRef l => match h !! l with
                       | Some o => (inr o, h)
                       | None => (inl TypeError, h)
                       end
           | _ => (inl TypeError, h)
           end.

(** [v[k]] on a dict *)
Definition getitem (v : val) (k : string) : M val :=
  let! o := deref v in
  match o with
  | ODict d => match d !! k with
               | Some x => mret x
               | None => raise KeyError
               end
  | OList _ => raise TypeError
  end.

(** [v[i]] on a list *)
Definition getidx (v : val) (i : nat) : M val :=
  let! o := deref v in
  match o with
  | OList l => match nth_error l i with
               | Some x => mret x
               | None => raise IndexError
               end
  | ODict _ => raise KeyError
  end.

(** [v.get(k, default)] *)
Definition dict_get (v : val) (k : string) (default : val) : M val :=
  let! o := deref v in
  match o with
  | ODict d => mret (match d !! k with Some x => x | None => default end)
  | OList _ => raise TypeError
  end.

(** [v[k] = x]: the dict itself is updated. *)
Definition setitem (v : val) (k : string) (x : val) : M unit :=
  fun h => match v with
           | VRef l => match h !! l with
                       | Some (ODict d) => (inr tt, <[l := ODict (<[k := x]> d)]> h)
                       | _ => (inl TypeError, h)
                       end
           | _ => (inl TypeError, h)
           end.

Definition new_dict (kvs : list (string * val)) : M val :=
  alloc (ODict (list_to_map kvs)).
Definition new_list (l : list val) : M val := alloc (OList l).

(** [ensure_len]: [list(lst)] is a new list of the same elements. *)
Definition ensure_len (lst : val) (n : nat) (filler : val) : M val :=
  let! o := deref lst in
  match o with
  | OList l =>
      let! out := new_list l in
      let! _ := (fun h => match out with
                          | VRef lo => (inr tt, <[lo := OList (l ++ repeat filler (n - length l))]> h)
                          | _ => (inr tt, h)
                          end) in
      new_list (firstn n (l ++ repeat filler (n - length l)))
  | ODict d =>
      (* list(dict) lists the keys *)
      let keys := map (fun kv => VStr (bytes_of (fst kv))) (map_to_list d) in
      let! out := new_list keys in
      let! _ := (fun h => match out with
                          | VRef lo => (inr tt, <[lo := OList (keys ++ repeat filler (n - length keys))]> h)
                          | _ => (inr tt, h)
                          end) in
      new_list (firstn n (keys ++ repeat filler (n - length keys)))
  end.

Section Builder.
(** What [str()] makes of a value that is not a string (a RichText's XML,
    the repr of a container): defined outside this program. *)
Variable str_of_object : heap -> val -> pystr.

Definition truthy (v : val) : M bool :=
  fun h => match v with
           | VNone => (inr false, h)
           | VStr s => (inr (nonempty s), h)
           | VRich _ => (inr true, h)
           | VRef l => match h !! l with
                       | Some (ODict d) => (inr (negb (bool_decide (d = ∅))), h)
                       | Some (OList l) => (inr (negb (bool_decide (l = []))), h)
                       | None => (inl TypeError, h)
                       end
           end.

(** [str(v)] *)
Definition py_str (v : val) : M pystr :=
  fun h => match v with
           | VStr s => (inr s, h)
           | VNone => (inr (py "None"), h)
           | _ => (inr (str_of_object h v), h)
           end.

(** The argument of [re.sub] in [strip_suffixes], [s] or else the empty
    string: it has to be a string. *)
Definition str_or_empty (v : val) : M pystr :=
  let! t := truthy v in
  if t then match v with
            | VStr s => mret s
            | _ => raise TypeError
            end
  else mret [].

Definition strip_suffixes (v : val) : M pystr :=
  let! s := str_or_empty v in mret (strip_suffixes s).

Definition _is_chefs_choice_soup (v : val) : M bool :=
  let! s := py_str v in mret (_is_chefs_choice_soup s).

(** [_yellow(text)]: a RichText to which [text], or else the empty string,
    is added. *)
Definition _yellow (v : val) : M val :=
  let! t := truthy v in
  if t then match v with
            | VStr s => mret (VRich s)
            | VRich s => mret (VRich s)
            | _ => let! s := py_str v in mret (VRich s)
            end
  else mret (VRich []).

Definition EMPTY_PAIR : list (string * val) :=
  [("title", VStr []); ("allergens", VStr [])]%string.

(** if _is_chefs_choice_soup(d["title"]): d["title"] = _yellow(d["title"]) *)
Definition highlight_in_place (d : val) : M unit :=
  let! t := getitem d "title" in
  let! soup := _is_chefs_choice_soup t in
  if soup then
    let! t' := getitem d "title" in
    let! y := _yellow t' in
    setitem d "title" y
  else mret tt.

Definition main_entry (m : val) (suffix : pystr) : M val :=
  let! t := dict_get m "title" (VStr []) in
  let! t := strip_suffixes t in
  let! d := dict_get m "description" (VStr []) in
  let! a := dict_get m "allergens" (VStr []) in
  new_dict [("title", VStr (t ++ suffix)); ("description", d);
            ("allergens", a)]%string.

Definition dessert_title (lst : val) : M pystr :=
  let! d0 := getidx lst 0 in
  let! t := getitem d0 "title" in
  let! t := strip_suffixes t in
  mret (sentence_case t ++ py " (V)").

Definition build_standard_context (day : val) : M val :=
  let! src := getitem day "source" in
  let! header := getitem day "header" in
  let! lunch := getitem src "lunch" in
  let! src_starters := getitem lunch "starters" in
  let! filler := new_dict EMPTY_PAIR in
  let! starters := ensure_len src_starters 2 filler in
  let! mv := getitem lunch "veg_main" in
  let! mm := getitem lunch "meat_main" in
  let! main_v := main_entry mv (py " (V)") in
  let! main_m := main_entry mm [] in
  let! mains := new_list [main_v; main_m] in
  let! opt := getitem lunch "optional_sides" in
  let! desserts := getitem lunch "desserts" in
  let! d0_title := dessert_title desserts in
  let! d1 := getidx desserts 1 in
  let! d1_all := getitem d1 "allergens" in
  let! st0 := getidx src_starters 0 in
  let! st0_all := dict_get st0 "allergens" (VStr []) in
  let! supper_starter :=
    new_dict [("title", VStr (py "Chef’s choice soup (V)"));
              ("allergens", st0_all)]%string in
  let! supper := getitem src "supper" in
  let! sp := getitem supper "specials" in
  let! s_desserts := getitem supper "desserts" in
  let! sd0_title := dessert_title s_desserts in
  let! sd1 := getidx s_desserts 1 in
  let! sd1_all := getitem sd1 "allergens" in
  let! s0 := getidx starters 0 in
  let! _ := highlight_in_place s0 in
  let! s1 := getidx starters 1 in
  let! _ := highlight_in_place s1 in
  let! _ := highlight_in_place supper_starter in
  (* the returned dict *)
  let! theme := getitem header "theme" in
  let! date := getitem header "date" in
  let! h1 := new_dict [("theme", theme); ("date", date)]%string in
  let! theme := getitem header "theme" in
  let! date := getitem header "date" in
  let! h2 := new_dict [("theme", theme); ("date", date)]%string in
  let! s0t := getitem s0 "title" in
  let! s0a := getitem s0 "allergens" in
  let! e0 := new_dict [("title", s0t); ("allergens", s0a)]%string in
  let! s1t := getitem s1 "title" in
  let! s1a := getitem s1 "allergens" in
  let! e1 := new_dict [("title", s1t); ("allergens", s1a)]%string in
  let! out_starters := new_list [e0; e1] in
  let! ot := dict_get opt "title" (VStr []) in
  let! oa := dict_get opt "allergens" (VStr []) in
  let! out_opt := new_dict [("title", ot); ("allergens", oa)]%string in
  let! d0 := getidx desserts 0 in
  let! d0a := getitem d0 "allergens" in
  let! od0 := new_dict [("title", VStr d0_title); ("allergens", d0a)]%string in
  let! d1' := getidx desserts 1 in
  let! d1t := getitem d1' "title" in
  let! od1 := new_dict [("title", d1t); ("allergens", d1_all)]%string in
  let! out_desserts := new_list [od0; od1] in
  let! out_lunch :=
    new_dict [("starters", out_starters); ("mains", mains);
              ("optional_sides", out_opt); ("desserts", out_desserts)]%string in
  let! sel := new_dict [("allergens", VStr SELECTION_ALLERGENS)]%string in
  let! out_sp := main_entry sp [] in
  let! sd0 := getidx s_desserts 0 in
  let! sd0a := getitem sd0 "allergens" in
  let! osd0 := new_dict [("title", VStr sd0_title); ("allergens", sd0a)]%string in
  let! sd1' := getidx s_desserts 1 in
  let! sd1t := getitem sd1' "title" in
  let! osd1 := new_dict [("title", sd1t); ("allergens", sd1_all)]%string in
  let! out_sdesserts := new_list [osd0; osd1] in
  let! out_supper :=
    new_dict [("starter", supper_starter); ("selection", sel);
              ("specials", out_sp); ("desserts", out_sdesserts)]%string in
  new_dict [("header", h1); ("days", h2); ("lunch", out_lunch);
            ("supper", out_supper)]%string.
End Builder.

(** A day record laid out in the store as [parse_week] builds it: every
    dict and list a distinct object. *)
Definition store_item (i : Item) : M val :=
  new_dict [("title", VStr (title i)); ("allergens", VStr (allergens i))]%string.

Definition store_cell (c : Cell) : M val :=
  new_dict [("title", VStr (c_title c)); ("description", VStr (c_description c));
            ("allergens", VStr (c_allergens c))]%string.

Fixpoint store_items (l : list Item) : M (list val) :=
  match l with
  | [] => mret []
  | i :: rest => let! v := store_item i in
                 let! vs := store_items rest in
                 mret (v :: vs)
  end.

Definition store_day (d : Day) : M val :=
  let hd := header d in
  let l := lunch (source d) in
  let s := supper (source d) in
  let! h := new_dict [("theme", VStr (theme hd)); ("date", VStr (date_ hd));
                      ("date_iso", VStr (date_iso hd));
                      ("weekday", VStr (weekday hd))]%string in
  let! sts := store_items (starters l) in
  let! sts := new_list sts in
  let! vm := store_cell (veg_main l) in
  let! mm := store_cell (meat_main l) in
  let! vg := store_cell (vegan_main l) in
  let! opt := store_item (optional_sides l) in
  let! ds := store_items (desserts l) in
  let! ds := new_list ds in
  let! lu := new_dict [("starters", sts); ("veg_main", vm); ("meat_main", mm);
                       ("vegan_main", vg); ("optional_sides", opt);
                       ("desserts", ds)]%string in
  let! st := store_item (starter s) in
  let! sel := new_dict [("allergens", VStr (selection s))]%string in
  let! sp := store_cell (specials s) in
  let! vsp := store_cell (vegan_special s) in
  let! sds := store_items (s_desserts s) in
  let! sds := new_list sds in
  let! su := new_dict [("starter", st); ("selection", sel); ("specials", sp);
                       ("vegan_special", vsp); ("desserts", sds)]%string in
  let! src := new_dict [("lunch", lu); ("supper", su)]%string in
  new_dict [("header", h); ("source", src)]%string.

(** day["source"]["lunch"]["starters"][i]["title"] *)
Definition starter_title (day : val) (i : nat) : M val :=
  let! src := getitem day "source" in
  let! lunch := getitem src "lunch" in
  let! sts := getitem lunch "starters" in
  let! st := getidx sts i in
  getitem st "title".

End Store.

(* ------------------------------------------------------------------ *)
(** ** Notions used in the statements *)

(** What trimming leaves: no character of the class [p] at either end. *)
Definition hd_ok (p : N -> bool) (t : pystr) : Prop :=
  match t with c :: _ => p c = false | [] => True end.
Definition last_ok (p : N -> bool) (t : pystr) : Prop := hd_ok p (rev t).


(** A weekly grid with four of its day columns filled in.  Monday opens
    lunch with the chef's soup; on Tuesday and Thursday the soup is the vegan
    supper special. *)
Definition week0 : Grid :=
  map (map py)
    [ [""; "Monday"; "Tuesday"; ""; "Thursday"];
      [""; "01/09/2025"; "tbc"; "3/9/25"; "2025-09-04"];
      [""; "Harvest week"; ""; ""; ""];
      [""; "Chef’s choice soup\nMilk, Celery"; "Melon"; "Tomato soup\nCelery"; "Melon"];
      [""; "Melon\nFish"; "Soup of the day\nCelery"; "Prawn cocktail\nCrustaceans"; "Pate\nPork"];
      [""; "Bean stew (Ve)\nSoya"; "Curry (Ve)"; "Lentil dahl (Ve)\nMustard"; "Chef's choice soup (Ve)"];
      [""; "Veg lasagne (V)\nWith salad\nMilk, Gluten, Egg"; "Omelette\nEggs"; "Cheese flan (V)\nMilk, Egg, Gluten"; "Omelette\nEggs"];
      [""; "Roast beef\nWith gravy\nGluten"; "Fish pie\nWith parsley sauce\nFish, Milk, Gluten"; "Chicken pie\nGluten"; "Gammon\nPork"];
      [""; "Peas, Carrots / peas\nCelery"; "Chips"; "Mash, Peas"; "Chips"];
      [""; "BAKED apple crumble (V)\nMilk, Fish"; "jelly"; "RICE pudding\nMilk, Fish"; "jelly"];
      [""; "House ice cream\nMilk"; "Sorbet"; "Ices"; "Sorbet"];
      [];
      [""; "Soup\nCelery, Milk"; "Soup\nCelery"; "Soup\nCelery"; "Soup\nCelery"];
      [""; "Vegan cakes (Ve)\nSoya"; "Chef’s choice soup (Ve)"; "Falafel wrap (Ve)\nGluten, Sesame"; "Chef's choice soup (Ve)"];
      [""; "Sandwiches"; "Sandwiches"; "Sandwiches"; "Sandwiches"];
      [""; "Fish cakes / Vegan cakes (Ve)\nwith chips\nFish, Egg"; "Pasta bake\nMilk, Gluten"; "Quiche\nEgg, Milk"; "Pasta bake\nMilk, Gluten"];
      [""; "fruit JELLY\nSulphites"; "Trifle\nMilk, Egg"; "Fruit salad"; "Trifle\nMilk, Egg"];
      [""; "Vanilla ice\nMilk"; "Ices"; ""; "Ices"] ]%string.

(** The invariant of a day record: two starters, two desserts at lunch and
    at supper. *)
Definition wf_day (day : Day) : Prop :=
  length (starters (lunch (source day))) = 2%nat
  /\ length (desserts (lunch (source day))) = 2%nat
  /\ length (s_desserts (supper (source day))) = 2%nat.

(** The label of a vegan dessert row, from the source dessert. *)
Definition vegan_dessert_label (d : Item) : pystr :=
  strip (sentence_case (strip_suffixes (title d)) ++ py " (Ve)").

Definition FIXED_DESSERT_COLS : gset pystr :=
  {[ py "Cereals with Gluten"; py "Nuts from Trees"; py "Soybeans";
     py "Sulphur" ]}.

Definition SOUP_VE : pystr := py "Chef’s choice soup (Ve)".

(** One call of [add]: its arguments. *)
Record entry := { e_title : pystr; e_arg : allergens_arg; e_heading : bool;
                  e_force : bool }.

Definition heading (t : pystr) : entry :=
  {| e_title := t; e_arg := Csv []; e_heading := true; e_force := false |}.
Definition plain_entry (t a : pystr) : entry :=
  {| e_title := t; e_arg := Csv a; e_heading := false; e_force := false |}.
Definition cols_entry (t : pystr) (s : gset pystr) : entry :=
  {| e_title := t; e_arg := Cols s; e_heading := false; e_force := false |}.
Definition forced_entry (t : pystr) : entry :=
  {| e_title := t; e_arg := Csv VEGAN_DESSERTS_ALL; e_heading := false;
     e_force := true |}.

(** The row a call of [add] appends, if any. *)
Definition row_of (e : entry) : list Row :=
  add [] (e_title e) (e_arg e) (e_heading e) (e_force e).

Definition JACKET : pystr := py "Jacket potato and toppings (Ve)".

(** The call of [add] that a main of the vegan menu leads to. *)
Definition vegan_main_entry (t a : pystr) : entry :=
  if contains (py "jacket") (lower t) then cols_entry JACKET JACKET_COLS
  else cols_entry t (_scrub_vegan_csv_to_canonset a).

(** Title and allergens of the weekly vegan main on the vegan menu. *)
Definition vegan_main_title (day : Day) : pystr :=
  let vm := vegan_main (lunch (source day)) in
  add_suffix (strip_suffixes (fst (recover_title (c_title vm) (c_allergens vm)))) VE.
Definition vegan_main_all (day : Day) : pystr :=
  let vm := vegan_main (lunch (source day)) in
  _remove_tokens_from_csv (snd (recover_title (c_title vm) (c_allergens vm))).

Definition std_dessert_title (d : Item) : pystr :=
  sentence_case (strip_suffixes (title d)) ++ py " (V)".

(** The calls of [add] that the assembler makes for a day, in order: those up
    to the vegan optional sides, then the four that end the vegan section. *)
Definition entries_head (day : Day) : list entry :=
  let l := lunch (source day) in
  let s := supper (source day) in
  let st0 := nth 0 (starters l) EMPTY_ITEM in
  let d0 := nth 0 (desserts l) EMPTY_ITEM in
  let sd0 := nth 0 (s_desserts s) EMPTY_ITEM in
  [heading (py "— Standard —")]
  ++ map (fun st => plain_entry (title st) (allergens st)) (starters l)
  ++ [plain_entry (c_title (veg_main l)) (c_allergens (veg_main l));
      plain_entry (c_title (meat_main l)) (c_allergens (meat_main l));
      plain_entry (title (optional_sides l)) (allergens (optional_sides l));
      plain_entry (std_dessert_title d0) (allergens d0);
      plain_entry (py "Chef’s choice soup (V)") (allergens (starter s));
      plain_entry (strip_suffixes (c_title (specials s))) (c_allergens (specials s));
      plain_entry (std_dessert_title sd0) (allergens sd0);
      heading (py "— Vegan —");
      cols_entry (add_suffix (title st0) VE)
                 (_scrub_vegan_csv_to_canonset (allergens st0));
      vegan_main_entry JACKET [];
      vegan_main_entry (vegan_main_title day) (vegan_main_all day);
      cols_entry (title (optional_sides l))
                 (_scrub_vegan_csv_to_canonset (allergens (optional_sides l)))].

Definition vegan_dessert_entry (d : Item) : entry :=
  forced_entry (sentence_case (strip_suffixes (title d)) ++ py " (Ve)").

Definition soup_entry (day : Day) : entry :=
  cols_entry SOUP_VE
    (_scrub_vegan_csv_to_canonset (allergens (starter (supper (source day))))).

Definition vegan_special_entry (day : Day) : entry :=
  let s := supper (source day) in
  cols_entry (add_suffix (strip_suffixes (c_title (vegan_special s))) VE)
             (_scrub_vegan_csv_to_canonset (c_allergens (vegan_special s))).

Definition table_entries (day : Day) : list entry :=
  entries_head day
  ++ [vegan_dessert_entry (nth 0 (desserts (lunch (source day))) EMPTY_ITEM);
      soup_entry day;
      vegan_special_entry day;
      vegan_dessert_entry (nth 0 (s_desserts (supper (source day))) EMPTY_ITEM)].

Definition blank_cell : Cell :=
  {| c_title := []; c_description := []; c_allergens := [] |}.




(** [build_standard_context] run on the day [d], laid out in an empty store
    as [parse_week] builds it: the title of the day's first lunch starter
    before the call, whether the call returns, and that title after it. *)
Definition starter_title_around_build
    (str_of_object : Store.heap -> Store.val -> pystr) (d : Day)
  : result Store.val * result unit * result Store.val :=
  match Store.store_day d ∅ with
  | (inr day, h0) =>
      let '(r, h1) := Store.build_standard_context str_of_object day h0 in
      (fst (Store.starter_title day 0 h0),
       match r with inr _ => inr tt | inl e => inl e end,
       fst (Store.starter_title day 0 h1))
  | (inl e, _) => (inl e, inl e, inl e)
  end.

(** [a] occurs in [b]. *)
Definition infix_of (a b : pystr) : Prop := exists x y, b = x ++ a ++ y.

Definition CHOICE_SOUP : pystr := py "choice soup".

(** The text does not hold "choice soup", in any letter case. *)
Definition soup_free (t : pystr) : Prop :=
  contains CHOICE_SOUP (lower t) = false.

(** The texts of a day from which the assembler derives row labels. *)
Definition day_titles (day : Day) : list pystr :=
  let l := lunch (source day) in
  let s := supper (source day) in
  map title (starters l)
  ++ [c_title (veg_main l); c_title (meat_main l); title (optional_sides l);
      title (nth 0 (desserts l) EMPTY_ITEM); c_title (specials s);
      title (nth 0 (s_desserts s) EMPTY_ITEM);
      c_title (vegan_main l); c_allergens (vegan_main l);
      c_title (vegan_special s)].

Definition has_soup_label (needle : pystr) (r : Row) : bool :=
  contains needle (row_label r).

(** The labels of the rows of a day that hold [needle]. *)
Definition soup_labels (needle : pystr) (day : Day) : list pystr :=
  match day_artifacts day with
  | inr (_, _, rows) => map row_label (List.filter (has_soup_label needle) rows)
  | inl _ => []
  end.

(** The fixed row of the vegan supper soup, and the rows that the assembler
    emits before it and after it. *)
Definition soup_row (day : Day) : Row :=
  (SOUP_VE,
   _scrub_vegan_csv_to_canonset (allergens (starter (supper (source day)))),
   false).

Definition rows_before_soup (day : Day) : list Row :=
  flat_map row_of
    (entries_head day
     ++ [vegan_dessert_entry (nth 0 (desserts (lunch (source day))) EMPTY_ITEM)]).

Definition rows_after_soup (day : Day) : list Row :=
  flat_map row_of
    [vegan_special_entry day;
     vegan_dessert_entry (nth 0 (s_desserts (supper (source day))) EMPTY_ITEM)].

Definition COMMA : N := 44.
Definition SLASH : N := 47.

(** What a token of a list is: trimmed, not empty, free of separators. *)
Definition token (t : pystr) : Prop :=
  t <> [] /\ hd_ok isspace t /\ last_ok isspace t /\ ~ In COMMA t /\ ~ In SLASH t.

Definition allowed (t : pystr) : bool := bool_decide (lower t ∉ FORBIDDEN).

(** [_canon_from_header]: the column a header cell of the allergens table
    stands for. *)
Definition _canon_from_header (text : pystr) : option pystr :=
  let t := lower text in
  let t := replace (py "d02") (py "dio") (replace (py "doi") (py "dio") t) in
  let has (k : string) := contains (py k) t in
  let checks :=
    [ (has "cereal" && has "gluten", py "Cereals with Gluten");
      (has "celery", py "Celery");
      (has "crustace", py "Crustaceans");
      (has "egg", py "Eggs");
      (has "fish", py "Fish");
      (has "lupin", py "Lupin");
      (has "milk", py "Milk");
      (has "mollusc", py "Molluscs");
      (has "mustard", py "Mustards");
      (has "peanut", py "Peanuts");
      ((has "nut" && has "tree") || has "nuts from trees", py "Nuts from Trees");
      (has "sesame", py "Sesame");
      (has "soya" || has "soy", py "Soybeans");
      (has "sulph" || has "sulfur", py "Sulphur");
      (has "alcohol", py "Alcohol");
      (has "pork", py "Pork") ]%string in
  option_map snd (List.find fst checks).

(** No lunch starter of the day is a chef's choice soup: the Standard
    builder then leaves the titles of the day record alone. *)
Definition plain_starters (day : Day) : Prop :=
  Forall (fun st => _is_chefs_choice_soup (title st) = false)
         (starters (lunch (source day))).

(** The calls of [add] between the two headings, and those after the
    second. *)
Definition std_entries (day : Day) : list entry :=
  let l := lunch (source day) in
  let s := supper (source day) in
  map (fun st => plain_entry (title st) (allergens st)) (starters l)
  ++ [plain_entry (c_title (veg_main l)) (c_allergens (veg_main l));
      plain_entry (c_title (meat_main l)) (c_allergens (meat_main l));
      plain_entry (title (optional_sides l)) (allergens (optional_sides l));
      plain_entry (std_dessert_title (nth 0 (desserts l) EMPTY_ITEM))
                  (allergens (nth 0 (desserts l) EMPTY_ITEM));
      plain_entry (py "Chef’s choice soup (V)") (allergens (starter s));
      plain_entry (strip_suffixes (c_title (specials s))) (c_allergens (specials s));
      plain_entry (std_dessert_title (nth 0 (s_desserts s) EMPTY_ITEM))
                  (allergens (nth 0 (s_desserts s) EMPTY_ITEM))].

Definition veg_entries (day : Day) : list entry :=
  let l := lunch (source day) in
  let s := supper (source day) in
  [cols_entry (add_suffix (title (nth 0 (starters l) EMPTY_ITEM)) VE)
              (_scrub_vegan_csv_to_canonset
                 (allergens (nth 0 (starters l) EMPTY_ITEM)));
   vegan_main_entry JACKET [];
   vegan_main_entry (vegan_main_title day) (vegan_main_all day);
   cols_entry (title (optional_sides l))
              (_scrub_vegan_csv_to_canonset (allergens (optional_sides l)));
   vegan_dessert_entry (nth 0 (desserts l) EMPTY_ITEM);
   soup_entry day;
   vegan_special_entry day;
   vegan_dessert_entry (nth 0 (s_desserts s) EMPTY_ITEM)].

Definition STANDARD_HEADING : Row := (py "— Standard —", ∅, true).
Definition VEGAN_HEADING : Row := (py "— Vegan —", ∅, true).

(** A row that is not a heading: its label is trimmed and not empty. *)
Definition data_row (r : Row) : Prop :=
  row_is_heading r = false /\ row_label r <> [] /\ strip (row_label r) = row_label r.

(** Every ticked column is a column of the allergens sheet, and a header
    cell with the column's name is recognised as that column. *)
Definition canonical_cols (cols : gset pystr) : Prop :=
  forall c, c ∈ cols -> c ∈ CANON_COLS /\ _canon_from_header c = Some c.

(** A calendar date in the range of [datetime.date]. *)
Definition valid_date (d : date) : Prop :=
  make_date (year d) (month d) (day d) = Some d.

Definition MONTHS : list N := Eval vm_compute in map N.of_nat (seq 1 12).
Definition DAYS : list N := Eval vm_compute in map N.of_nat (seq 1 31).

Definition CR : N := 13.

(** Text that stays on one line: no line feed, no carriage return. *)
Definition one_line (s : pystr) : Prop := forall x, In x s -> x <> NL /\ x <> CR.

(** The characters at which [normalise_sides] always splits, and the
    carriage return it replaces first. *)
Definition side_separator (c : N) : Prop :=
  c = COMMA \/ c = SLASH \/ c = 9 \/ c = NL \/ c = CR.

(** Text of the Basic Latin block, with the dash and the bullet that
    [normalise_sides] trims from its items. *)
Definition latin_or_bullet (s : pystr) : Prop :=
  Forall (fun c => c < 128 \/ In c (py "–•")) s.

(** [s] ends with [suffix]. *)
Definition ends_with (suffix s : pystr) : Prop := exists pre, s = pre ++ suffix.

(** The string of a value handed to the templating engine. *)
Definition text_str (t : text) : pystr :=
  match t with Plain s => s | Yellow s => s end.

(** The allergens fields of the vegan context, and the titles of its dishes
    (the first starter, the mains, the desserts, the supper starter, the
    sandwich selection and the special). *)
Definition veg_allergen_fields (veg : VegContext) : list pystr :=
  map allergens (vl_starters (veg_lunch veg))
  ++ map v_allergens (vl_mains (veg_lunch veg))
  ++ [allergens (vl_optional_sides (veg_lunch veg))]
  ++ map t_allergens (vl_desserts (veg_lunch veg))
  ++ [t_allergens (vs_starter (veg_supper veg));
      allergens (vs_selection (veg_supper veg));
      v_allergens (vs_specials (veg_supper veg))]
  ++ map t_allergens (vs_desserts (veg_supper veg)).

Definition veg_dish_titles (veg : VegContext) : list pystr :=
  map title (firstn 1 (vl_starters (veg_lunch veg)))
  ++ map v_title (vl_mains (veg_lunch veg))
  ++ map (fun d => text_str (t_title d)) (vl_desserts (veg_lunch veg))
  ++ [text_str (t_title (vs_starter (veg_supper veg)));
      title (vs_selection (veg_supper veg));
      v_title (vs_specials (veg_supper veg))]
  ++ map (fun d => text_str (t_title d)) (vs_desserts (veg_supper veg)).

(** A list of allergens without a milk, egg or eggs token, in any letter
    case, and without a milk or eggs column. *)
Definition vegan_safe (a : pystr) : Prop :=
  Forall (fun t => lower t ∉ FORBIDDEN) (csv_tokens a)
  /\ _parse_allergen_csv a ## NON_VEGAN_CANON.


(* ------------------------------------------------------------------ *)
(** ** Template path resolution

    The file system and [os.path.join] are outside the program: the
    resolution is given for any [isfile] and any [path_join]. *)

(** The command-line arguments read here; an option that was not given is
    [None]. *)
Record Args := { a_templates : option pystr; a_standard_tpl : option pystr;
                 a_vegan_tpl : option pystr; a_allergens_tpl : option pystr }.

(** Truth of an optional string: given, and not empty. *)
Definition given (o : option pystr) : bool :=
  match o with Some (_ :: _) => true | _ => false end.

(** [o or d] *)
Definition or_else (o : option pystr) (d : pystr) : pystr :=
  match o with Some (c :: s) => c :: s | _ => d end.

(** SystemExit, with its message. *)
Inductive exit := SystemExit (msg : pystr).

Section Templates.
Variable isfile : pystr -> bool.
Variable path_join : pystr -> pystr -> pystr.

Definition template_paths (args : Args) : list pystr :=
  let base := or_else (a_templates args) (py "templates") in
  [or_else (a_standard_tpl args) (path_join base (py "standard.docx"));
   or_else (a_vegan_tpl args) (path_join base (py "vegan.docx"));
   or_else (a_allergens_tpl args) (path_join base (py "allergens.docx"))].

Definition resolve_templates (args : Args) : exit + (pystr * pystr * pystr) :=
  if given (a_standard_tpl args) && given (a_vegan_tpl args)
     && given (a_allergens_tpl args)
  then inr (or_else (a_standard_tpl args) [], or_else (a_vegan_tpl args) [],
            or_else (a_allergens_tpl args) [])
  else
    match List.find (fun p => negb (isfile p)) (template_paths args) with
    | Some p => inl (SystemExit (py "Template not found: " ++ p))
    | None =>
        match template_paths args with
        | [std; veg; allg] => inr (std, veg, allg)
        | _ => inl (SystemExit [])
        end
    end.
End Templates.

(* ------------------------------------------------------------------ *)
(** ** The allergens sheet

    A table of the template: its rows, each the texts of its cells. *)
Definition DocTable : Type := list (list pystr).

(** col_map of a row: the columns whose header is recognised, by index. *)
Definition col_map_of (row : list pystr) : list (nat * pystr) :=
  omap (fun '(c_idx, text) =>
          option_map (pair c_idx) (_canon_from_header (strip text)))
       (combine (seq 0 (length row)) row).

(** The first column that is not an allergen column, or else column 0. *)
Definition title_col_of (row : list pystr) (col_map : list (nat * pystr)) : nat :=
  match List.filter (fun i => negb (existsb (Nat.eqb i) (map fst col_map)))
                    (seq 0 (length row)) with
  | i :: _ => i
  | [] => 0%nat
  end.

(** The rows of a table from index [r_idx] on: the first with six recognised
    headers. *)
Fixpoint scan_rows (r_idx : nat) (rows : list (list pystr))
  : option (nat * nat * list (nat * pystr)) :=
  match rows with
  | [] => None
  | row :: rest =>
      let col_map := col_map_of row in
      if (6 <=? length col_map)%nat
      then Some (r_idx, title_col_of row col_map, col_map)
      else scan_rows (S r_idx) rest
  end.

(** (table, header_row_idx, title_col_idx, col_map); [None] stands for the
    RuntimeError raised when no table has such a row among its first
    twelve. *)
Fixpoint _find_allergen_table (tables : list DocTable)
  : option (DocTable * nat * nat * list (nat * pystr)) :=
  match tables with
  | [] => None
  | tbl :: rest =>
      match scan_rows 0 (firstn 12 tbl) with
      | Some (r_idx, title_col, col_map) => Some (tbl, r_idx, title_col, col_map)
      | None => _find_allergen_table rest
      end
  end.

(** A row that does not qualify as the header row. *)
Definition no_header (row : list pystr) : Prop :=
  (length (col_map_of row) < 6)%nat.

(** What a cell of the sheet holds while the table is filled: the text of
    the template, nothing ([_clear_cell]), a label ([_set_text], centred or
    bold or neither) or a tick ([_set_tick]). *)
Inductive content :=
| Template (s : pystr)
| Blank
| Label (s : pystr) (center bold : bool)
| Tick.

Abbreviation Sheet := (list (list content)).

(** [cells[i]] is written: the index has to be in range. *)
Definition set_cell (cells : list content) (i : nat) (c : content)
  : result (list content) :=
  if (i <? length cells)%nat then ret (<[i := c]> cells) else inl IndexError.

(** The ticks of one row: the columns of [col_map] whose name is in [cols]. *)
Fixpoint tick_cells (cells : list content) (col_map : list (nat * pystr))
    (cols : gset pystr) : result (list content) :=
  match col_map with
  | [] => ret cells
  | (c_idx, templ_name) :: rest =>
      let* cells := (if bool_decide (templ_name ∈ cols)
                     then set_cell cells c_idx Tick else ret cells) in
      tick_cells cells rest cols
  end.

(** One turn of the loop over the data rows: the row is cleared, then
    receives the item of its rank, if there is one. *)
Definition write_row (cells : list content) (title_col : nat)
    (col_map : list (nat * pystr)) (item : option Row) : result (list content) :=
  let cells := map (fun _ => Blank) cells in
  match item with
  | None => ret cells
  | Some (title, cols, is_heading) =>
      if is_heading then set_cell cells title_col (Label title true true)
      else
        let* cells := set_cell cells title_col (Label title false false) in
        tick_cells cells col_map cols
  end.

Fixpoint write_rows (i : nat) (data_rows : Sheet) (title_col : nat)
    (col_map : list (nat * pystr)) (rows : list Row) : result Sheet :=
  match data_rows with
  | [] => ret []
  | r :: rest =>
      let* r' := write_row r title_col col_map (rows !! i) in
      let* rest' := write_rows (S i) rest title_col col_map rows in
      ret (r' :: rest')
  end.

(** The table part of [render_allergens_doc]: the rows below the header row
    are rewritten, those down to it are left alone. *)
Definition fill_table (tbl : Sheet) (header_row_idx title_col : nat)
    (col_map : list (nat * pystr)) (rows : list Row) : result Sheet :=
  let data_row_start := (header_row_idx + 1)%nat in
  let* body := write_rows 0 (skipn data_row_start tbl) title_col col_map rows in
  ret (firstn data_row_start tbl ++ body).

(** What the cell in column [c] of a data row holds once the row has
    received [item]. *)
Definition cell_after (title_col : nat) (col_map : list (nat * pystr))
    (item : option Row) (c : nat) : content :=
  match item with
  | None => Blank
  | Some (title, cols, is_heading) =>
      if (c =? title_col)%nat then Label title is_heading is_heading
      else if negb is_heading
              && existsb (fun '(c_idx, name) =>
                            (c_idx =? c)%nat && bool_decide (name ∈ cols)) col_map
           then Tick else Blank
  end.

(** A data row wide enough for the title column and the allergen columns. *)
Definition wide_enough (title_col : nat) (col_map : list (nat * pystr))
    (cells : list content) : Prop :=
  (title_col < length cells)%nat
  /\ Forall (fun c_idx => (c_idx < length cells)%nat) (map fst col_map).

(* ------------------------------------------------------------------ *)
(** ** Sample data *)

(** One day column of a weekly grid: no chef's choice soup among the lunch
    starters, milk and egg among the allergens of the vegan rows. *)
Definition week1 : Grid :=
  map (map py)
    [ [""; " thursday "];
      [""; "18/9/25"];
      [""; "Autumn menu"];
      [""; "Leek and potato soup\nMilk, Celery"];
      [""; "Melon"];
      [""; "Bean stew (Ve)\nSoya, Milk"];
      [""; "Cheese flan (V)\nMilk, Egg, Gluten"];
      [""; "Roast beef\nWith gravy\nGluten"];
      [""; "Peas, Carrots / peas\nMilk"];
      [""; "RICE pudding\nMilk"];
      [""; "House ice cream\nMilk"];
      [];
      [""; "Soup\nCelery, Mustard"];
      [""; "Falafel wrap (Ve)\nGluten, Sesame, Egg"];
      [""; "Sandwiches"];
      [""; "Fish cakes\nwith chips\nFish, Egg"];
      [""; "Fruit salad"];
      [""; "Ices"] ]%string.

(** The tables of a template: a note, then the allergens table with a
    banner row above its header row. *)
Definition tables0 : list DocTable :=
  map (map (map py))
    [ [ ["Kitchen copy"] ];
      [ ["Allergens - September 2025"];
        ["Dish"; "Celery"; "Cereals containing gluten"; "Eggs"; "Fish"; "Milk";
         "Sulphur doixide"];
        [""; ""; ""; ""; ""; ""; ""] ] ]%string.

(** A sheet with a header row and two data rows, and three items for it. *)
Definition sheet0 : Sheet :=
  [ [Template (py "Dish"); Template (py "Milk"); Template (py "Eggs")];
    [Template (py "old"); Template []; Tick];
    [Template []; Template []; Template []] ].

Definition items0 : list Row :=
  [ (py "— Standard —", ∅, true);
    (py "Omelette", {[ py "Eggs" ]}, false);
    (py "Trifle", {[ py "Milk"; py "Eggs" ]}, false) ].

(* ------------------------------------------------------------------ *)
(** ** Text of the Basic Latin block *)


(* ------------------------------------------------------------------ *)
(** ** Trimming *)

Section Trim.
Variable p : N -> bool.


Lemma lstrip_by_spec s :
  exists a, s = a ++ lstrip_by p s /\ forallb p a = true /\ hd_ok p (lstrip_by p s).
Proof.
  induction s as [|c s IH]; simpl.
  - exists []. repeat split.
  - destruct (p c) eqn:E.
    + destruct IH as (a & Ha & Hp & Hh).
      exists (c :: a). simpl. rewrite E, Hp. repeat split; auto. congruence.
    + exists []. simpl. repeat split; auto.
Qed.

Lemma lstrip_by_fix t : hd_ok p t -> lstrip_by p t = t.
Proof. destruct t; simpl; auto. intros ->. reflexivity. Qed.

Lemma rstrip_by_spec s :
  exists b, s = rstrip_by p s ++ b /\ forallb p b = true /\ last_ok p (rstrip_by p s).
Proof.
  unfold rstrip_by, last_ok.
  destruct (lstrip_by_spec (rev s)) as (a & Ha & Hp & Hh).
  exists (rev a). rewrite rev_involutive. repeat split; auto.
  - rewrite <- rev_app_distr, <- Ha, rev_involutive. reflexivity.
  - rewrite forallb_forall in *. intros x Hx. apply Hp. now apply in_rev.
Qed.

Lemma rstrip_by_fix t : last_ok p t -> rstrip_by p t = t.
Proof.
  unfold rstrip_by, last_ok. intros H.
  rewrite lstrip_by_fix by assumption. apply rev_involutive.
Qed.

Lemma hd_ok_prefix t b : hd_ok p (t ++ b) -> hd_ok p t.
Proof. destruct t; simpl; auto. Qed.

Lemma hd_ok_app t b : t <> [] -> hd_ok p t -> hd_ok p (t ++ b).
Proof. destruct t; simpl; auto. congruence. Qed.

Lemma last_ok_app t b : b <> [] -> last_ok p b -> last_ok p (t ++ b).
Proof.
  unfold last_ok. intros Hb H. rewrite rev_app_distr.
  apply hd_ok_app; auto. intros E. apply Hb.
  rewrite <- (rev_involutive b), E. reflexivity.
Qed.

Lemma strip_by_spec s :
  exists a b, s = a ++ strip_by p s ++ b /\ forallb p a = true /\
              forallb p b = true /\ hd_ok p (strip_by p s) /\ last_ok p (strip_by p s).
Proof.
  unfold strip_by.
  destruct (lstrip_by_spec s) as (a & Ha & Hpa & Hh).
  destruct (rstrip_by_spec (lstrip_by p s)) as (b & Hb & Hpb & Hl).
  exists a, b. repeat split; auto.
  - rewrite <- Hb. exact Ha.
  - rewrite Hb in Hh. eapply hd_ok_prefix; eauto.
Qed.

Lemma strip_by_fix t : hd_ok p t -> last_ok p t -> strip_by p t = t.
Proof.
  intros Hh Hl. unfold strip_by.
  rewrite lstrip_by_fix by assumption. now apply rstrip_by_fix.
Qed.

Lemma strip_by_idem s : strip_by p (strip_by p s) = strip_by p s.
Proof.
  destruct (strip_by_spec s) as (a & b & _ & _ & _ & Hh & Hl).
  now apply strip_by_fix.
Qed.

Lemma lstrip_by_all a s : forallb p a = true -> lstrip_by p (a ++ s) = lstrip_by p s.
Proof.
  induction a as [|c a IH]; simpl; auto.
  intros H. apply andb_true_iff in H as [-> H]. auto.
Qed.

Lemma rstrip_by_all s b : forallb p b = true -> rstrip_by p (s ++ b) = rstrip_by p s.
Proof.
  intros H. unfold rstrip_by. rewrite rev_app_distr, lstrip_by_all; auto.
  rewrite forallb_forall in *. intros x Hx. apply H. now apply in_rev.
Qed.

Lemma strip_by_all s : forallb p s = true -> strip_by p s = [].
Proof.
  intros H. unfold strip_by.
  rewrite <- (app_nil_r s), lstrip_by_all by assumption. reflexivity.
Qed.

(** Trailing characters of the class do not matter to trimming. *)
Lemma strip_by_trailing s b : forallb p b = true -> strip_by p (s ++ b) = strip_by p s.
Proof.
  intros H. unfold strip_by.
  destruct (lstrip_by_spec s) as (a & Ha & Hpa & Hh).
  destruct (lstrip_by p s) as [|c t] eqn:E.
  - rewrite app_nil_r in Ha. subst a.
    rewrite lstrip_by_all by exact Hpa.
    destruct (lstrip_by_spec b) as (a' & Ha' & Hpa' & _).
    assert (Hb : forallb p (lstrip_by p b) = true).
    { rewrite forallb_forall in *. intros x Hx. apply H. rewrite Ha'.
      apply in_or_app. now right. }
    rewrite <- (app_nil_l (lstrip_by p b)) at 1.
    rewrite rstrip_by_all by exact Hb. reflexivity.
  - rewrite Ha at 1. rewrite <- app_assoc, lstrip_by_all by exact Hpa.
    rewrite lstrip_by_fix by (simpl; exact Hh).
    now rewrite rstrip_by_all.
Qed.
End Trim.
(* ------------------------------------------------------------------ *)
(** ** How a pattern matches *)

Lemma rep_asc_in p lo bef aft b' a' :
  In (b', a') (rep_asc p lo bef aft) <->
  exists w, aft = w ++ a' /\ b' = rev w ++ bef /\ forallb p w = true /\
            (lo <= length w)%nat.
Proof.
  revert lo bef. induction aft as [|c r IH]; intros lo bef.
  - simpl. rewrite app_nil_r. split.
    + destruct lo; simpl; [|tauto]. intros [E|[]]. inversion E; subst.
      exists []. simpl. repeat split; auto.
    + intros (w & Hw & -> & _ & Hlo).
      symmetry in Hw. apply app_eq_nil in Hw as [-> ->].
      simpl in *. destruct lo; [now left | lia].
  - simpl. rewrite in_app_iff. split.
    + intros [H|H].
      * destruct lo; simpl in H; [|tauto]. destruct H as [E|[]]. inversion E; subst.
        exists []. simpl. repeat split; auto.
      * destruct (p c) eqn:Ec; [|destruct H].
        apply IH in H as (w & -> & -> & Hp & Hlo).
        exists (c :: w). simpl. rewrite Ec, Hp, <- app_assoc. simpl.
        repeat split; auto. lia.
    + intros (w & Hw & -> & Hp & Hlo). destruct w as [|x w]; simpl in *.
      * left. subst a'. destruct lo; [now left | lia].
      * right. inversion Hw; subst. apply andb_true_iff in Hp as [-> Hp].
        apply IH. exists w. rewrite <- app_assoc. simpl. repeat split; auto. lia.
Qed.

Lemma ends_Seq a b st st' :
  In st' (ends (Seq a b) st) <-> exists mid, In mid (ends a st) /\ In st' (ends b mid).
Proof. destruct st as [[c bf] af]. simpl. apply in_flat_map. Qed.

Lemma ends_Alt a b st st' :
  In st' (ends (Alt a b) st) <-> In st' (ends a st) \/ In st' (ends b st).
Proof. destruct st as [[c bf] af]. simpl. apply in_app_iff. Qed.

Lemma ends_Chr p c bf af st' :
  In st' (ends (Chr p) (c, bf, af)) <->
  exists x r, af = x :: r /\ p x = true /\ st' = (c, x :: bf, r).
Proof.
  simpl. destruct af as [|x r].
  - split; [intros [] | intros (x & r & H & _); discriminate].
  - destruct (p x) eqn:E; simpl.
    + split.
      * intros [<-|[]]. eauto.
      * intros (x' & r' & H & _ & ->). inversion H; subst. now left.
    + split; [intros [] | intros (x' & r' & H & Hp & _)].
      inversion H; subst. congruence.
Qed.

Lemma ends_Rep p lo gr c bf af st' :
  In st' (ends (Rep p lo gr) (c, bf, af)) <->
  exists w a', af = w ++ a' /\ forallb p w = true /\ (lo <= length w)%nat /\
               st' = (c, rev w ++ bf, a').
Proof.
  simpl. rewrite in_map_iff. split.
  - intros ([b' a'] & <- & H).
    assert (H' : In (b', a') (rep_asc p lo bf af)).
    { destruct gr; auto. now apply in_rev. }
    apply rep_asc_in in H' as (w & -> & -> & Hp & Hlo). eauto 8.
  - intros (w & a' & -> & Hp & Hlo & ->).
    exists (rev w ++ bf, a'). split; auto.
    assert (H' : In (rev w ++ bf, a') (rep_asc p lo bf (w ++ a'))).
    { apply rep_asc_in. eauto. }
    destruct gr; auto. now apply in_rev in H'.
Qed.

Lemma ends_Grp a st st' :
  In st' (ends (Grp a) st) ->
  exists c', In (c', snd (fst st'), snd st') (ends a st).
Proof.
  destruct st as [[c bf] af]. simpl. rewrite in_map_iff.
  intros ([[c' b'] a'] & <- & H). simpl. eauto.
Qed.

Lemma ends_Eos st st' :
  In st' (ends Eos st) <-> st' = st /\ at_eos (snd st) = true.
Proof.
  destruct st as [[c bf] af]. simpl. destruct (at_eos af); simpl.
  - split; [intros [<-|[]]; auto | intros [-> _]; now left].
  - split; [intros [] | intros [_ H]; discriminate].
Qed.

Lemma ends_Wordb st st' :
  In st' (ends Wordb st) <->
  st' = st /\ xorb (hd_word (snd (fst st))) (hd_word (snd st)) = true.
Proof.
  destruct st as [[c bf] af]. simpl. destruct (xorb _ _); simpl.
  - split; [intros [<-|[]]; auto | intros [-> _]; now left].
  - split; [intros [] | intros [_ H]; discriminate].
Qed.

(** Every stop of a pattern lies ahead in the text: the match is a prefix of
    what followed the start. *)
Lemma ends_split r : forall c bf af c' b' a',
  In (c', b', a') (ends r (c, bf, af)) ->
  exists w, af = w ++ a' /\ b' = rev w ++ bf.
Proof.
  induction r; intros c bf af c' b' a' H.
  - simpl in H. destruct H as [E|[]]. inversion E; subst. now exists [].
  - apply ends_Chr in H as (x & r & -> & _ & E). inversion E; subst.
    exists [x]. auto.
  - apply ends_Seq in H as ([[cm bm] am] & H1 & H2).
    apply IHr1 in H1 as (w1 & -> & ->). apply IHr2 in H2 as (w2 & -> & ->).
    exists (w1 ++ w2). rewrite rev_app_distr, <- !app_assoc. auto.
  - apply ends_Alt in H as [H|H]; eauto.
  - apply ends_Rep in H as (w & a & -> & _ & _ & E). inversion E; subst. eauto.
  - apply ends_Grp in H as (c0 & H). simpl in H. eauto.
  - apply ends_Wordb in H as [E _]. inversion E; subst. now exists [].
  - apply ends_Eos in H as [E _]. inversion E; subst. now exists [].
Qed.

Lemma ends_lit s : forall c bf af st',
  In st' (ends (lit s) (c, bf, af)) ->
  exists r, af = s ++ r /\ st' = (c, rev s ++ bf, r).
Proof.
  induction s as [|x s IH]; intros c bf af st' H.
  - simpl in H. destruct H as [<-|[]]. eauto.
  - destruct s as [|y s].
    + apply ends_Chr in H as (x' & r & -> & Hx & ->).
      apply N.eqb_eq in Hx. subst. eauto.
    + change (lit (x :: y :: s)) with (Seq (lit1 x) (lit (y :: s))) in H.
      apply ends_Seq in H as ([[cm bm] am] & H1 & H2).
      apply ends_Chr in H1 as (x' & r & -> & Hx & E). inversion E; subst.
      apply N.eqb_eq in Hx. subst.
      apply IH in H2 as (r' & -> & ->).
      exists r'. simpl. split; [reflexivity|].
      f_equal. now rewrite <- !app_assoc.
Qed.

Lemma ends_lit_i s : forall c bf af st',
  In st' (ends (lit_i s) (c, bf, af)) ->
  exists w r, af = w ++ r /\ lower w = lower s /\ st' = (c, rev w ++ bf, r).
Proof.
  induction s as [|x s IH]; intros c bf af st' H.
  - simpl in H. destruct H as [<-|[]]. exists [], af. auto.
  - destruct s as [|y s].
    + apply ends_Chr in H as (x' & r & -> & Hx & ->).
      apply N.eqb_eq in Hx. exists [x'], r. simpl. rewrite Hx. auto.
    + change (lit_i (x :: y :: s)) with (Seq (lit1_i x) (lit_i (y :: s))) in H.
      apply ends_Seq in H as ([[cm bm] am] & H1 & H2).
      apply ends_Chr in H1 as (x' & r & -> & Hx & E). inversion E; subst.
      apply N.eqb_eq in Hx.
      apply IH in H2 as (w & r' & -> & Hw & ->).
      exists (x' :: w), r'. simpl. rewrite Hx, <- app_assoc.
      simpl in Hw. rewrite Hw. auto.
Qed.

(** [re.search] finds the left-most start: no match begins before it. *)
Lemma search_from_spec r : forall aft bef m,
  search_from r bef aft = Some m ->
  exists pre post, aft = pre ++ post /\
    match_here r (rev pre ++ bef) post = Some m /\
    forall a b, pre = a ++ b -> b <> [] ->
                match_here r (rev a ++ bef) (b ++ post) = None.
Proof.
  induction aft as [|c aft IH]; intros bef m H; simpl in H.
  - destruct (match_here r bef []) eqn:E; [|discriminate]. inversion H; subst.
    exists [], []. repeat split; auto.
    intros a b Hab Hb. symmetry in Hab. apply app_eq_nil in Hab as [_ ->]. congruence.
  - destruct (match_here r bef (c :: aft)) eqn:E.
    + inversion H; subst. exists [], (c :: aft). repeat split; auto.
      intros a b Hab Hb. symmetry in Hab. apply app_eq_nil in Hab as [_ ->]. congruence.
    + apply IH in H as (pre & post & -> & Hm & Hno).
      exists (c :: pre), post. simpl. rewrite <- app_assoc. simpl.
      repeat split; auto.
      intros a b Hab Hb. destruct a as [|x a]; simpl in *.
      * subst b. exact E.
      * inversion Hab; subst. rewrite <- app_assoc. simpl.
        apply Hno; auto.
Qed.


(** Scanning for a replacement runs over text in which nothing matches. *)
Lemma sub_go_skip r repl : forall t bef rest fuel,
  (length t < fuel)%nat ->
  (forall a b, t = a ++ b -> b <> [] ->
               match_here r (rev a ++ bef) (b ++ rest) = None) ->
  sub_go fuel r repl bef (t ++ rest)
  = t ++ sub_go (fuel - length t) r repl (rev t ++ bef) rest.
Proof.
  induction t as [|c t IH]; intros bef rest fuel Hf Hno.
  - simpl. now rewrite Nat.sub_0_r.
  - destruct fuel as [|f]; [simpl in Hf; lia|].
    pose proof (Hno [] (c :: t) eq_refl ltac:(discriminate)) as H0.
    simpl in H0. simpl. rewrite H0.
    f_equal. rewrite <- app_assoc. simpl.
    apply IH; [simpl in Hf; lia|].
    intros a b Hab Hb. specialize (Hno (c :: a) b).
    simpl in Hno. rewrite <- app_assoc in Hno. simpl in Hno.
    apply Hno; auto. now rewrite Hab.
Qed.

(** What a match at a position says about the engine's first result. *)
Lemma match_here_inv r bef aft m :
  match_here r bef aft = Some m ->
  exists caps b' rest,
    ends r ([], bef, aft) = (caps, b', m_rest m) :: rest /\
    m_len m = (length aft - length (m_rest m))%nat.
Proof.
  unfold match_here.
  destruct (ends r ([], bef, aft)) as [|[[caps b'] a'] rest]; [discriminate|].
  intros H. inversion H; subst m. cbn [m_rest m_len]. eauto.
Qed.

Lemma match_here_rest r bef aft m :
  match_here r bef aft = Some m ->
  (length (m_rest m) <= length aft)%nat /\
  m_len m = (length aft - length (m_rest m))%nat.
Proof.
  unfold match_here.
  destruct (ends r ([], bef, aft)) as [|[[caps b'] a'] rest] eqn:E; [discriminate|].
  intros H. inversion H; subst m. cbn [m_rest m_len].
  assert (Hin : In (caps, b', a') (ends r ([], bef, aft))) by (rewrite E; now left).
  apply ends_split in Hin as (w & -> & _). rewrite length_app. lia.
Qed.

(** The scans of [re.sub] and [re.split] never run out of steps: with more
    fuel than characters left the result does not depend on the fuel. *)
Lemma sub_go_fuel r repl : forall fuel aft bef,
  (length aft < fuel)%nat ->
  sub_go (S fuel) r repl bef aft = sub_go fuel r repl bef aft.
Proof.
  induction fuel as [|f IH]; intros aft bef Hf; [lia|].
  change (sub_go (S (S f)) r repl bef aft) with
    (match match_here r bef aft with
     | Some m =>
         match m_len m, aft with
         | O, c :: rest => repl ++ c :: sub_go (S f) r repl (c :: bef) rest
         | O, [] => repl
         | S _, _ => repl ++ sub_go (S f) r repl (rev (firstn (m_len m) aft) ++ bef) (m_rest m)
         end
     | None => match aft with
               | c :: rest => c :: sub_go (S f) r repl (c :: bef) rest
               | [] => []
               end
     end).
  change (sub_go (S f) r repl bef aft) with
    (match match_here r bef aft with
     | Some m =>
         match m_len m, aft with
         | O, c :: rest => repl ++ c :: sub_go f r repl (c :: bef) rest
         | O, [] => repl
         | S _, _ => repl ++ sub_go f r repl (rev (firstn (m_len m) aft) ++ bef) (m_rest m)
         end
     | None => match aft with
               | c :: rest => c :: sub_go f r repl (c :: bef) rest
               | [] => []
               end
     end).
  destruct (match_here r bef aft) as [m|] eqn:E.
  - destruct (match_here_rest _ _ _ _ E) as [Hle Hlen].
    destruct (m_len m) as [|k] eqn:Ek.
    + destruct aft as [|c rest]; [reflexivity|].
      rewrite IH; [reflexivity | simpl in Hf; lia].
    + rewrite IH; [reflexivity | lia].
  - destruct aft as [|c rest]; [reflexivity|].
    rewrite IH; [reflexivity | simpl in Hf; lia].
Qed.

Lemma split_go_fuel r : forall fuel cur aft bef,
  (length aft < fuel)%nat ->
  split_go (S fuel) r cur bef aft = split_go fuel r cur bef aft.
Proof.
  induction fuel as [|f IH]; intros cur aft bef Hf; [lia|].
  change (split_go (S (S f)) r cur bef aft) with
    (match match_here r bef aft with
     | Some m =>
         match m_len m, aft with
         | O, c :: rest => rev cur :: split_go (S f) r [c] (c :: bef) rest
         | O, [] => [rev cur; []]
         | S _, _ => rev cur ::
                     split_go (S f) r [] (rev (firstn (m_len m) aft) ++ bef) (m_rest m)
         end
     | None => match aft with
               | c :: rest => split_go (S f) r (c :: cur) (c :: bef) rest
               | [] => [rev cur]
               end
     end).
  change (split_go (S f) r cur bef aft) with
    (match match_here r bef aft with
     | Some m =>
         match m_len m, aft with
         | O, c :: rest => rev cur :: split_go f r [c] (c :: bef) rest
         | O, [] => [rev cur; []]
         | S _, _ => rev cur ::
                     split_go f r [] (rev (firstn (m_len m) aft) ++ bef) (m_rest m)
         end
     | None => match aft with
               | c :: rest => split_go f r (c :: cur) (c :: bef) rest
               | [] => [rev cur]
               end
     end).
  destruct (match_here r bef aft) as [m|] eqn:E.
  - destruct (match_here_rest _ _ _ _ E) as [Hle Hlen].
    destruct (m_len m) as [|k] eqn:Ek.
    + destruct aft as [|c rest]; [reflexivity|].
      rewrite IH; [reflexivity | simpl in Hf; lia].
    + rewrite IH; [reflexivity | lia].
  - destruct aft as [|c rest]; [reflexivity|].
    rewrite IH; [reflexivity | simpl in Hf; lia].
Qed.

(** The text normaliser and the variant picker on the examples of the
    specification. *)
Example normalise_sides_example :
  normalise_sides (py "Peas, Carrots, peas, Beans") = py "Peas, Carrots, Beans".
Proof. vm_compute. reflexivity. Qed.

Example pick_vegan_variant_example :
  pick_vegan_variant (py "Beef stew / Vegetable stew (Ve)") []
  = py "Vegetable stew (Ve)".
Proof. vm_compute. reflexivity. Qed.

Example strip_suffixes_examples :
  strip_suffixes (py "Veg lasagne (V)") = py "Veg lasagne"
  /\ strip_suffixes (py "Bean stew  (Ve) ") = py "Bean stew"
  /\ strip_suffixes (py "Soup (v)") = py "Soup (v)"
  /\ add_suffix (py "Soup (V)") (py "(Ve)") = py "Soup (Ve)".
Proof. repeat split; vm_compute; reflexivity. Qed.
(* ------------------------------------------------------------------ *)
(** ** Suffix tags *)

(** Literals are evaluated before a proof takes text apart. *)
Ltac eval_py :=
  repeat match goal with
         | |- context [py ?s] =>
             let v := eval vm_compute in (py s) in change (py s) with v
         | |- context [chr_of ?s] =>
             let v := eval vm_compute in (chr_of s) in change (chr_of s) with v
         end.
Ltac eval_py_in H :=
  repeat match type of H with
         | context [py ?s] =>
             let v := eval vm_compute in (py s) in change (py s) with v in H
         | context [chr_of ?s] =>
             let v := eval vm_compute in (chr_of s) in change (chr_of s) with v in H
         end.

Lemma suffix_re_inv c bf af st' :
  In st' (ends SUFFIX_RE (c, bf, af)) ->
  exists w1 tag w2,
    af = w1 ++ py "(" ++ tag ++ py ")" ++ w2 ++ snd st' /\
    forallb isspace w1 = true /\ forallb isspace w2 = true /\
    (tag = py "Ve" \/ tag = py "V") /\ at_eos (snd st') = true.
Proof.
  unfold SUFFIX_RE. cbn [seqs]. intros H.
  apply ends_Seq in H as ([[c1 b1] a1] & H1 & H).
  apply ends_Rep in H1 as (w1 & a1' & -> & Hw1 & _ & E1). inversion E1; subst.
  apply ends_Seq in H as ([[c2 b2] a2] & H2 & H).
  apply ends_Chr in H2 as (x & r & -> & Hx & E2). inversion E2; subst.
  apply N.eqb_eq in Hx. subst x.
  apply ends_Seq in H as ([[c3 b3] a3] & H3 & H).
  apply ends_Grp in H3 as (c3' & H3). simpl fst in H3. simpl snd in H3.
  assert (Htag : exists tag, r = tag ++ a3 /\ (tag = py "Ve" \/ tag = py "V")).
  { apply ends_Alt in H3 as [H3|H3]; apply ends_lit in H3 as (r' & -> & E);
      inversion E; subst; eauto. }
  destruct Htag as (tag & -> & Htag).
  apply ends_Seq in H as ([[c4 b4] a4] & H4 & H).
  apply ends_Chr in H4 as (y & r & -> & Hy & E4). inversion E4; subst.
  apply N.eqb_eq in Hy. subst y.
  apply ends_Seq in H as ([[c5 b5] a5] & H5 & H).
  apply ends_Rep in H5 as (w2 & a5' & -> & Hw2 & _ & E5). inversion E5; subst.
  apply ends_Eos in H as [-> Heos]. simpl in *.
  exists w1, tag, w2. repeat split; auto.
Qed.

Lemma last_ok_last (p : N -> bool) t x : last_ok p (t ++ [x]) -> p x = false.
Proof. unfold last_ok. rewrite rev_app_distr. simpl. auto. Qed.

Lemma forallb_last (p : N -> bool) t x : forallb p (t ++ [x]) = true -> p x = true.
Proof.
  rewrite forallb_app. simpl. intros H.
  apply andb_true_iff in H as [_ H]. now apply andb_true_iff in H as [H _].
Qed.

Lemma at_eos_space a : at_eos a = true -> forallb isspace a = true.
Proof.
  destruct a as [|x [|y a]]; simpl; auto; [|discriminate].
  intros H. apply N.eqb_eq in H. subst. reflexivity.
Qed.

(** Inside a trimmed title followed by " (Ve)" the suffix pattern finds
    nothing: the only tag is the one just appended. *)
Lemma suffix_re_only_at_end c bf b :
  b <> [] -> last_ok isspace b ->
  ends SUFFIX_RE (c, bf, b ++ py " (Ve)") = [].
Proof.
  intros Hb Hl.
  destruct (ends SUFFIX_RE (c, bf, b ++ py " (Ve)")) as [|st' l] eqn:E; auto.
  exfalso.
  assert (H : In st' (ends SUFFIX_RE (c, bf, b ++ py " (Ve)"))) by (rewrite E; now left).
  apply suffix_re_inv in H as (w1 & tag & w2 & Haf & Hw1 & Hw2 & Htag & Heos).
  apply at_eos_space in Heos.
  set (tl_ := w2 ++ snd st') in *.
  assert (Htl : forallb isspace tl_ = true).
  { unfold tl_. rewrite forallb_app, Hw2, Heos. reflexivity. }
  clearbody tl_. clear Hw2 Heos E l.
  destruct (exists_last Hb) as (b0 & x & ->).
  apply last_ok_last in Hl.
  eval_py_in Haf.
  apply (f_equal (@rev N)) in Haf.
  repeat rewrite rev_app_distr in Haf. cbn [rev app] in Haf.
  destruct (rev tl_) as [|z zs] eqn:Ez.
  - destruct Htag as [-> | ->]; eval_py_in Haf; cbn [rev app] in Haf.
    + inversion Haf as [Hrest].
      assert (Hin : In x w1).
      { apply in_rev. rewrite <- Hrest. simpl. auto. }
      rewrite forallb_forall in Hw1. apply Hw1 in Hin. congruence.
    + discriminate.
  - cbn [rev app] in Haf. rewrite <- !app_assoc in Haf. cbn [app] in Haf.
    inversion Haf. subst z.
    assert (Hin : In 41 tl_).
    { apply in_rev. rewrite Ez. now left. }
    rewrite forallb_forall in Htl. apply Htl in Hin. discriminate.
Qed.

Lemma strip_suffixes_trimmed s :
  hd_ok isspace (strip_suffixes s) /\ last_ok isspace (strip_suffixes s).
Proof.
  unfold strip_suffixes, strip.
  destruct (strip_by_spec isspace (re_sub SUFFIX_RE [] s))
    as (a & b & _ & _ & _ & Hh & Hl).
  auto.
Qed.

Lemma match_here_suffix_end bf :
  match_here SUFFIX_RE bf (py " (Ve)")
  = Some {| m_start := length bf; m_len := 5; m_groups := [py "Ve"];
            m_rest := [] |}.
Proof. reflexivity. Qed.

(** The tag just appended is what the pattern removes. *)
Lemma re_sub_suffix_appended t :
  t <> [] -> last_ok isspace t ->
  re_sub SUFFIX_RE [] (t ++ py " (Ve)") = t.
Proof.
  intros Ht Hl. unfold re_sub.
  rewrite sub_go_skip.
  - rewrite length_app.
    replace (S (length t + length (py " (Ve)")) - length t)%nat with 6%nat
      by (simpl; lia).
    cbn [sub_go]. rewrite match_here_suffix_end. cbn.
    apply app_nil_r.
  - rewrite length_app. simpl. lia.
  - intros a b Hab Hb. unfold match_here.
    rewrite suffix_re_only_at_end; [reflexivity | exact Hb |].
    unfold last_ok in *. rewrite Hab, rev_app_distr in Hl.
    destruct (rev b) eqn:E; simpl in *; auto.
Qed.

Lemma strip_suffixes_add_suffix s :
  strip_suffixes (add_suffix s VE) = strip (strip_suffixes s).
Proof.
  destruct (strip_suffixes_trimmed s) as [Hh Hl].
  unfold add_suffix.
  remember (strip_suffixes s) as t eqn:Et. clear Et s.
  unfold strip at 2. rewrite (strip_by_fix isspace t Hh Hl).
  destruct t as [|c t].
  - reflexivity.
  - assert (Hu : strip ((c :: t) ++ py " " ++ VE) = (c :: t) ++ py " (Ve)").
    { unfold strip. apply strip_by_fix.
      - simpl. exact Hh.
      - apply last_ok_app; [discriminate | reflexivity]. }
    rewrite Hu. unfold strip_suffixes.
    rewrite re_sub_suffix_appended by (auto; discriminate).
    unfold strip. now apply strip_by_fix.
Qed.
(* ------------------------------------------------------------------ *)
(** ** The cell parser *)

Lemma ends_alts_lit_i ws : forall st st',
  In st' (ends (alts (map lit_i ws)) st) ->
  exists w, In w ws /\ In st' (ends (lit_i w) st).
Proof.
  induction ws as [|w ws IH]; intros st st' H.
  - destruct st as [[c bf] af]. simpl in H. destruct af; [destruct H|].
    simpl in H. destruct H.
  - destruct ws as [|w' ws].
    + simpl in H. exists w. split; [now left | exact H].
    + change (alts (map lit_i (w :: w' :: ws)))
        with (Alt (lit_i w) (alts (map lit_i (w' :: ws)))) in H.
      apply ends_Alt in H as [H|H].
      * exists w. split; [now left | exact H].
      * apply IH in H as (w0 & Hin & H). exists w0. split; [now right | exact H].
Qed.

(** A match of the tail pattern: an allergen word in any letter case, then
    the rest of the line, up to the end of the text. *)
Lemma tail_re_inv c bf af st' :
  In st' (ends ALLERGEN_TAIL_RE (c, bf, af)) ->
  at_eos (snd st') = true /\
  exists word w rest, In word ALLERGEN_WORDS /\ af = w ++ rest ++ snd st' /\
                      lower w = lower word /\ forallb dot rest = true.
Proof.
  unfold ALLERGEN_TAIL_RE. cbn [seqs]. intros H.
  apply ends_Seq in H as ([[c1 b1] a1] & H1 & H).
  apply ends_Wordb in H1 as [E1 _]. inversion E1; subst.
  apply ends_Seq in H as ([[c2 b2] a2] & H2 & H).
  apply ends_alts_lit_i in H2 as (word & Hin & H2).
  apply ends_lit_i in H2 as (w & r & -> & Hw & E2). inversion E2; subst.
  apply ends_Seq in H as ([[c3 b3] a3] & H3 & H).
  apply ends_Wordb in H3 as [E3 _]. inversion E3; subst.
  apply ends_Seq in H as ([[c4 b4] a4] & H4 & H).
  apply ends_Rep in H4 as (rest & a' & -> & Hrest & _ & E4). inversion E4; subst.
  apply ends_Eos in H as [-> Heos]. simpl in *.
  split; auto. exists word, w, rest. auto.
Qed.

(** In trimmed text the end-of-text anchor holds at the very end only. *)
Lemma at_eos_trimmed x a :
  last_ok isspace (x ++ a) -> at_eos a = true -> a = [].
Proof.
  intros Hl H. destruct a as [|y [|z a]]; auto; [|discriminate].
  simpl in H. apply N.eqb_eq in H. subst y.
  apply last_ok_last in Hl. discriminate.
Qed.

Lemma strip_last_ok s : last_ok isspace (strip s).
Proof.
  unfold strip. destruct (strip_by_spec isspace s) as (a & b & _ & _ & _ & _ & Hl).
  exact Hl.
Qed.

Lemma firstn_length_app (a b : pystr) : firstn (length a) (a ++ b) = a.
Proof. induction a as [|x a IH]; cbn; [reflexivity | now rewrite IH]. Qed.

Lemma skipn_length_app (a b : pystr) : skipn (length a) (a ++ b) = b.
Proof. induction a as [|x a IH]; cbn; [reflexivity | exact IH]. Qed.




(* ------------------------------------------------------------------ *)
(** ** The text normaliser and the cell parser *)



(** C7. For every non-empty string [s], stripping the suffix of
    [add_suffix s "(Ve)"] gives [strip_suffixes s], trimmed. *)
Theorem C7_strip_after_add_suffix (s : pystr) :
  s <> [] ->
  strip_suffixes (add_suffix s (py "(Ve)")) = strip (strip_suffixes s).
Proof. intros _. apply strip_suffixes_add_suffix. Qed.

Lemma C7_strip_after_add_suffix_witness :
  py "Fish pie (V)" <> [] /\
  strip_suffixes (add_suffix (py "Fish pie (V)") (py "(Ve)"))
  = strip (strip_suffixes (py "Fish pie (V)")).
Proof.
  split; [discriminate|].
  apply (C7_strip_after_add_suffix (py "Fish pie (V)")). discriminate.
Defined.

Lemma first_alpha_idx_spec pre c post :
  forallb (fun x => negb (isalpha x)) pre = true -> isalpha c = true ->
  first_alpha_idx (pre ++ c :: post) = Some (length pre).
Proof.
  induction pre as [|x pre IH]; simpl; intros Hp Hc.
  - now rewrite Hc.
  - apply andb_true_iff in Hp as [Hx Hp].
    apply negb_true_iff in Hx. rewrite Hx, IH; auto.
Qed.

Lemma first_alpha_idx_none s :
  forallb (fun x => negb (isalpha x)) s = true -> first_alpha_idx s = None.
Proof.
  induction s as [|x s IH]; simpl; auto. intros Hp.
  apply andb_true_iff in Hp as [Hx Hp].
  apply negb_true_iff in Hx. rewrite Hx, IH; auto.
Qed.



(* ------------------------------------------------------------------ *)
(** ** Dates and the week parser *)



(** The three formats at work, and dates that none of them parses. *)
Lemma to_iso_examples :
  to_iso (py "05/03/2025") = py "2025-03-05"
  /\ to_iso (py "5/3/25") = py "2025-03-05"
  /\ to_iso (py "2025-03-05") = py "2025-03-05"
  /\ to_iso (py "31/02/2025") = py "31/02/2025"
  /\ to_iso (py "w/c 1st Sept") = py "w/c 1st Sept".
Proof. repeat split; reflexivity. Qed.


Lemma ensure_len_2 {A} (l : list A) (filler : A) :
  ensure_len l 2 filler = firstn 2 l ++ repeat filler (2 - length l).
Proof.
  unfold ensure_len. destruct l as [|a [|b l]]; reflexivity.
Qed.

Lemma ensure_len_length {A} (l : list A) n (filler : A) :
  length (ensure_len l n filler) = n.
Proof.
  unfold ensure_len. rewrite length_firstn, length_app, repeat_length. lia.
Qed.

(** C6. Whatever the grid, [parse_week] returns seven day records, and in
    each of them the lunch starters, the lunch desserts and the supper
    desserts have exactly two entries.  [ensure_len] fills a shorter list with
    the empty item, and cells the grid lacks give empty starters. *)
Theorem C6_seven_days_two_entries (rows : Grid) :
  length (parse_week rows) = 7%nat
  /\ Forall (fun day =>
               length (starters (lunch (source day))) = 2%nat
               /\ length (desserts (lunch (source day))) = 2%nat
               /\ length (s_desserts (supper (source day))) = 2%nat)
            (parse_week rows)
  /\ (forall l : list Item,
        ensure_len l 2 EMPTY_ITEM
        = firstn 2 l ++ repeat EMPTY_ITEM (2 - length l))
  /\ Forall (fun day =>
               starters (lunch (source day)) = [EMPTY_ITEM; EMPTY_ITEM])
            (parse_week []).
Proof.
  split; [|split; [|split]].
  - unfold parse_week. now rewrite length_map, length_seq.
  - unfold parse_week. apply Forall_map, Forall_forall. intros i _.
    unfold daily. cbn [source lunch supper starters desserts s_desserts].
    now rewrite !ensure_len_length.
  - intros l. apply ensure_len_2.
  - unfold parse_week. apply Forall_map, Forall_forall. intros i _.
    unfold daily, g, cell. cbn [source lunch starters].
    replace (nth_error (@nil (list pystr)) 3) with (@None (list pystr)) by reflexivity.
    replace (nth_error (@nil (list pystr)) 4) with (@None (list pystr)) by reflexivity.
    reflexivity.
Qed.

(** C10. In every day record of [parse_week] the second lunch dessert is
    titled "Ice creams / sorbet (V)" and the second supper dessert
    "Selection of vegan ice creams or sorbet with seasonal fruits (Ve)",
    whatever rows 10 and 17 of the grid hold; of those cells only the
    allergens are kept. *)
Theorem C10_second_desserts_fixed (rows : Grid) (i : nat) :
  (i < 7)%nat ->
  nth_error (parse_week rows) i = Some (daily rows i)
  /\ nth_error (desserts (lunch (source (daily rows i)))) 1
     = Some {| title := py "Ice creams / sorbet (V)";
               allergens :=
                 c_allergens (parse_title_desc_allergens (cell rows 10 (i + 1))) |}
  /\ nth_error (s_desserts (supper (source (daily rows i)))) 1
     = Some {| title :=
                 py "Selection of vegan ice creams or sorbet with seasonal fruits (Ve)";
               allergens :=
                 c_allergens (parse_title_desc_allergens (cell rows 17 (i + 1))) |}.
Proof.
  intros Hi. split; [|split].
  - unfold parse_week. rewrite nth_error_map.
    rewrite nth_error_nth' with (d := 0%nat) by (rewrite length_seq; exact Hi).
    rewrite seq_nth by exact Hi. reflexivity.
  - reflexivity.
  - reflexivity.
Qed.

Lemma C10_second_desserts_fixed_witness :
  (0 < 7)%nat
  /\ nth_error (desserts (lunch (source (daily week0 0)))) 1
     = Some {| title := py "Ice creams / sorbet (V)"; allergens := py "Milk" |}
  /\ nth_error (s_desserts (supper (source (daily week0 0)))) 1
     = Some {| title :=
                 py "Selection of vegan ice creams or sorbet with seasonal fruits (Ve)";
               allergens := py "Milk" |}.
Proof.
  split; [lia|].
  destruct (C10_second_desserts_fixed week0 0 ltac:(lia)) as (_ & H1 & H2).
  split; [exact H1 | exact H2].
Defined.
(* ------------------------------------------------------------------ *)
(** ** The builders and the assembler on a well-formed day *)

Lemma lstrip_by_snoc p x c :
  p c = false -> lstrip_by p (x ++ [c]) = lstrip_by p x ++ [c].
Proof.
  intros Hc. induction x as [|y x IH]; simpl.
  - now rewrite Hc.
  - destruct (p y); auto.
Qed.

Lemma strip_by_snoc p x c :
  p c = false -> strip_by p (x ++ [c]) = lstrip_by p x ++ [c].
Proof.
  intros Hc. unfold strip_by. rewrite lstrip_by_snoc by exact Hc.
  apply rstrip_by_fix. unfold last_ok. rewrite rev_app_distr. exact Hc.
Qed.

Lemma nonempty_snoc (x : pystr) c : nonempty (x ++ [c]) = true.
Proof. destruct x; reflexivity. Qed.

(** A title that ends in a tag is never blank. *)
Lemma strip_tagged x :
  strip (x ++ py " (Ve)") = lstrip_by isspace (x ++ py " (Ve") ++ py ")".
Proof.
  change (py " (Ve)") with (py " (Ve" ++ py ")").
  rewrite app_assoc. unfold strip. now apply strip_by_snoc.
Qed.

Lemma nonempty_strip_tagged x : nonempty (strip (x ++ py " (Ve)")) = true.
Proof. rewrite strip_tagged. apply nonempty_snoc. Qed.

Lemma add_suffix_Ve_fix t : strip (add_suffix t VE) = add_suffix t VE.
Proof. unfold add_suffix, strip. apply strip_by_idem. Qed.

Lemma nonempty_add_suffix_Ve t : nonempty (add_suffix t VE) = true.
Proof.
  unfold add_suffix.
  change (py " " ++ VE) with (py " (Ve)"). apply nonempty_strip_tagged.
Qed.

Lemma add_data items t a force :
  nonempty (strip t) = true ->
  add items t a false force = items ++ [(strip t, cols_of a force, false)].
Proof. intros H. unfold add. now rewrite H. Qed.

Lemma wf_day_inv day :
  wf_day day ->
  exists s0 s1 d0 d1 sd0 sd1,
    starters (lunch (source day)) = [s0; s1]
    /\ desserts (lunch (source day)) = [d0; d1]
    /\ s_desserts (supper (source day)) = [sd0; sd1].
Proof.
  intros (H1 & H2 & H3).
  destruct (starters (lunch (source day))) as [|s0 [|s1 [|]]]; try discriminate.
  destruct (desserts (lunch (source day))) as [|d0 [|d1 [|]]]; try discriminate.
  destruct (s_desserts (supper (source day))) as [|sd0 [|sd1 [|]]]; try discriminate.
  eauto 10.
Qed.

(** On a well-formed day neither builder raises, nor does the assembler. *)
Lemma build_standard_context_total day :
  wf_day day -> exists std, build_standard_context day = inr std
    /\ exists a b c d, sl_desserts (std_lunch std) = [a; b]
                       /\ ss_desserts (std_supper std) = [c; d].
Proof.
  intros H. destruct (wf_day_inv day H) as (s0 & s1 & d0 & d1 & sd0 & sd1 & E1 & E2 & E3).
  unfold build_standard_context. rewrite E1, E2, E3.
  cbn [idx nth_error bind ret ensure_len length Nat.sub repeat app firstn].
  eexists. split; [reflexivity|].
  cbn [std_lunch std_supper sl_desserts ss_desserts].
  do 4 eexists. split; reflexivity.
Qed.

Lemma build_vegan_context_total day :
  wf_day day -> exists veg, build_vegan_context day = inr veg.
Proof.
  intros H. destruct (wf_day_inv day H) as (s0 & s1 & d0 & d1 & sd0 & sd1 & E1 & E2 & E3).
  unfold build_vegan_context. rewrite E1, E2, E3.
  cbn [idx nth_error bind ret ensure_len length Nat.sub repeat app firstn].
  destruct (recover_title _ _). destruct (recover_title _ _).
  eexists. reflexivity.
Qed.

Lemma add_row_of items t a h f :
  add items t a h f
  = items ++ row_of {| e_title := t; e_arg := a; e_heading := h; e_force := f |}.
Proof.
  unfold row_of, add. cbn [e_title e_arg e_heading e_force].
  destruct h; [reflexivity|].
  destruct (negb (nonempty (strip t))); [now rewrite app_nil_r | reflexivity].
Qed.

Lemma fold_add_starters (sts : list Item) items :
  fold_left (fun items st => add items (title st) (Csv (allergens st)) false false)
            sts items
  = items ++ flat_map row_of
               (map (fun st => plain_entry (title st) (allergens st)) sts).
Proof.
  revert items. induction sts as [|st sts IH]; intros items;
    cbn [fold_left map flat_map].
  - now rewrite app_nil_r.
  - rewrite IH, add_row_of, <- app_assoc. reflexivity.
Qed.

Lemma add_vegan_main_row_of items m :
  add_vegan_main items m
  = items ++ row_of (vegan_main_entry (v_title m) (v_allergens m)).
Proof.
  unfold add_vegan_main, vegan_main_entry.
  destruct (contains (py "jacket") (lower (v_title m))); apply add_row_of.
Qed.

Lemma recover_title_pair t a :
  recover_title t a = (fst (recover_title t a), snd (recover_title t a)).
Proof. destruct (recover_title t a); reflexivity. Qed.

(** The rows of a well-formed day: one call of [add] per entry. *)
Lemma day_artifacts_rows day :
  wf_day day ->
  exists std veg,
    build_standard_context day = inr std
    /\ build_vegan_context day = inr veg
    /\ day_artifacts day = inr (std, veg, flat_map row_of (table_entries day)).
Proof.
  intros H.
  destruct (wf_day_inv day H) as (s0 & s1 & d0 & d1 & sd0 & sd1 & E1 & E2 & E3).
  unfold day_artifacts, build_standard_context, build_vegan_context.
  rewrite E1, E2, E3.
  cbn [idx nth_error bind ret ensure_len length Nat.sub repeat app firstn].
  rewrite (recover_title_pair (c_title (vegan_main (lunch (source day))))).
  rewrite (recover_title_pair (c_title (vegan_special (supper (source day))))).
  cbv iota beta.
  do 2 eexists. split; [reflexivity|]. split; [reflexivity|].
  cbn [bind]. unfold _collect_allergen_items_for_table.
  rewrite E1, E2, E3.
  cbn [idx nth_error bind ret fold_left
       std_lunch std_supper sl_desserts ss_desserts ss_specials veg_lunch vl_mains
       title allergens c_title c_allergens v_title v_allergens].
  rewrite !add_vegan_main_row_of, !add_row_of.
  cbn [v_title v_allergens app].
  unfold table_entries, entries_head, soup_entry, vegan_special_entry,
    vegan_dessert_entry.
  rewrite E1, E2, E3. cbn [nth map app].
  cbn [flat_map]. rewrite app_nil_r.
  repeat rewrite <- app_assoc.
  unfold plain_entry, cols_entry, forced_entry, heading, vegan_main_title,
    vegan_main_all, std_dessert_title, JACKET, SOUP_VE.
  reflexivity.
Qed.

Lemma row_of_forced t :
  row_of (forced_entry (t ++ py " (Ve)"))
  = [(strip (t ++ py " (Ve)"), _parse_allergen_csv VEGAN_DESSERTS_ALL, false)].
Proof.
  unfold row_of, forced_entry. cbn [e_title e_arg e_heading e_force].
  rewrite add_data by apply nonempty_strip_tagged. reflexivity.
Qed.

Lemma row_of_suffixed t s :
  row_of (cols_entry (add_suffix t VE) s) = [(add_suffix t VE, s, false)].
Proof.
  unfold row_of, cols_entry. cbn [e_title e_arg e_heading e_force].
  rewrite add_data; rewrite add_suffix_Ve_fix.
  - reflexivity.
  - apply nonempty_add_suffix_Ve.
Qed.

Lemma row_of_soup day :
  row_of (soup_entry day)
  = [(SOUP_VE,
      _scrub_vegan_csv_to_canonset (allergens (starter (supper (source day)))),
      false)].
Proof.
  unfold row_of, soup_entry, cols_entry. cbn [e_title e_arg e_heading e_force].
  rewrite add_data by (vm_compute; reflexivity).
  replace (strip SOUP_VE) with SOUP_VE by (vm_compute; reflexivity).
  reflexivity.
Qed.

Lemma fixed_dessert_cols : _parse_allergen_csv VEGAN_DESSERTS_ALL = FIXED_DESSERT_COLS.
Proof. vm_compute. reflexivity. Qed.

(** Whenever the vegan builder returns, its four dessert entries carry the
    fixed allergen string. *)
Lemma vegan_desserts_allergens day veg :
  build_vegan_context day = inr veg ->
  map t_allergens (vl_desserts (veg_lunch veg))
  = [VEGAN_DESSERTS_ALL; VEGAN_DESSERTS_ALL]
  /\ map t_allergens (vs_desserts (veg_supper veg))
     = [VEGAN_DESSERTS_ALL; VEGAN_DESSERTS_ALL].
Proof.
  unfold build_vegan_context.
  destruct (idx (ensure_len (starters (lunch (source day))) 2 EMPTY_ITEM) 0);
    cbn [bind]; [discriminate|].
  destruct (recover_title _ _).
  destruct (idx (desserts (lunch (source day))) 0); cbn [bind]; [discriminate|].
  destruct (recover_title _ _).
  destruct (idx (s_desserts (supper (source day))) 0); cbn [bind]; [discriminate|].
  intros H. inversion H. split; reflexivity.
Qed.

(** C4. On a day none of whose lunch starters is a chef's choice soup (the
    days on which the Standard builder leaves the day record as parsed),
    whatever the allergens of the source desserts: the vegan view gives its
    four dessert entries the allergen string "Gluten, Nuts, Soya, Sulphites",
    and the two vegan dessert rows of the allergen table carry exactly the
    columns Cereals with Gluten, Nuts from Trees, Soybeans and Sulphur. *)
Theorem C4_vegan_desserts_fixed (day : Day) :
  wf_day day ->
  plain_starters day ->
  exists std veg rows,
    day_artifacts day = inr (std, veg, rows)
    /\ VEGAN_DESSERTS_ALL = py "Gluten, Nuts, Soya, Sulphites"
    /\ map t_allergens (vl_desserts (veg_lunch veg))
       = [VEGAN_DESSERTS_ALL; VEGAN_DESSERTS_ALL]
    /\ map t_allergens (vs_desserts (veg_supper veg))
       = [VEGAN_DESSERTS_ALL; VEGAN_DESSERTS_ALL]
    /\ exists pre soup special,
         rows = pre ++
           [ (vegan_dessert_label (nth 0 (desserts (lunch (source day))) EMPTY_ITEM),
              FIXED_DESSERT_COLS, false);
             soup; special;
             (vegan_dessert_label (nth 0 (s_desserts (supper (source day))) EMPTY_ITEM),
              FIXED_DESSERT_COLS, false) ].
Proof.
  intros H _.
  destruct (day_artifacts_rows day H) as (std & veg & Hs & Hv & Hr).
  exists std, veg, (flat_map row_of (table_entries day)).
  destruct (vegan_desserts_allergens day veg Hv) as [Hl Hsu].
  split; [exact Hr|]. split; [reflexivity|]. split; [exact Hl|]. split; [exact Hsu|].
  unfold table_entries. rewrite flat_map_app.
  exists (flat_map row_of (entries_head day)).
  cbn [flat_map]. unfold vegan_dessert_entry, vegan_special_entry.
  rewrite !row_of_forced, row_of_suffixed, row_of_soup, fixed_dessert_cols.
  do 2 eexists. reflexivity.
Qed.

Lemma C4_vegan_desserts_fixed_witness :
  wf_day (daily week0 2)
  /\ plain_starters (daily week0 2)
  /\ map allergens (desserts (lunch (source (daily week0 2)))) = [py "Milk, Fish"; []]
  /\ exists std veg rows,
    day_artifacts (daily week0 2) = inr (std, veg, rows)
    /\ VEGAN_DESSERTS_ALL = py "Gluten, Nuts, Soya, Sulphites"
    /\ map t_allergens (vl_desserts (veg_lunch veg))
       = [VEGAN_DESSERTS_ALL; VEGAN_DESSERTS_ALL]
    /\ map t_allergens (vs_desserts (veg_supper veg))
       = [VEGAN_DESSERTS_ALL; VEGAN_DESSERTS_ALL]
    /\ exists pre soup special,
         rows = pre ++
           [ (py "Rice pudding (Ve)", FIXED_DESSERT_COLS, false);
             soup; special;
             (py "Fruit salad (Ve)", FIXED_DESSERT_COLS, false) ].
Proof.
  assert (Hwf : wf_day (daily week0 2)) by (repeat split; vm_compute; reflexivity).
  assert (Hpl : plain_starters (daily week0 2)) by (repeat constructor).
  split; [exact Hwf|]. split; [exact Hpl|]. split; [vm_compute; reflexivity|].
  destruct (C4_vegan_desserts_fixed (daily week0 2) Hwf Hpl)
    as (std & veg & rows & Hd & Hf & Hl & Hs & pre & soup & special & Hrows).
  exists std, veg, rows.
  split; [exact Hd|]. split; [exact Hf|]. split; [exact Hl|]. split; [exact Hs|].
  exists pre, soup, special. rewrite Hrows.
  assert (E1 : vegan_dessert_label (nth 0 (desserts (lunch (source (daily week0 2)))) EMPTY_ITEM)
               = py "Rice pudding (Ve)") by (vm_compute; reflexivity).
  assert (E2 : vegan_dessert_label (nth 0 (s_desserts (supper (source (daily week0 2)))) EMPTY_ITEM)
               = py "Fruit salad (Ve)") by (vm_compute; reflexivity).
  rewrite E1, E2. reflexivity.
Defined.
(* ------------------------------------------------------------------ *)
(** ** Title recovery in the vegan builder *)

Lemma ends_Grp_inv a c bf af st' :
  In st' (ends (Grp a) (c, bf, af)) ->
  exists c' b' a', In (c', b', a') (ends a (c, bf, af)) /\
    st' = (c' ++ [firstn (length af - length a') af], b', a').
Proof.
  simpl. rewrite in_map_iff. intros ([[c' b'] a'] & <- & H). eauto.
Qed.

(** A match of the title pattern: an ASCII letter, the shortest run of the
    line that reaches a "(ve)", and that "(ve)"; group 1 is the whole match. *)
Lemma ve_title_re_inv bf af st' :
  In st' (ends VE_TITLE_RE ([], bf, af)) ->
  exists l body t,
    af = (l :: body ++ t) ++ snd st' /\ ascii_letter l = true /\
    forallb dot body = true /\ lower t = py "(ve)" /\
    fst (fst st') = [l :: body ++ t].
Proof.
  unfold VE_TITLE_RE. cbn [seqs]. intros H.
  apply ends_Grp_inv in H as (c' & b' & a' & H & ->).
  apply ends_Seq in H as ([[c1 b1] a1] & H1 & H).
  apply ends_Chr in H1 as (l & r & -> & Hl & E1). inversion E1; subst.
  apply ends_Seq in H as ([[c2 b2] a2] & H2 & H).
  apply ends_Rep in H2 as (body & a2' & -> & Hbody & _ & E2). inversion E2; subst.
  apply ends_lit_i in H as (t & r' & -> & Ht & E3).
  inversion E3; subst c' b' a'.
  set (a' := r').
  exists l, body, t. cbn [fst snd].
  assert (Hlen : (length (l :: body ++ t ++ a') - length a')%nat
                 = length (l :: body ++ t)).
  { cbn [length]. rewrite !length_app. lia. }
  rewrite Hlen.
  replace (l :: body ++ t ++ a') with ((l :: body ++ t) ++ a').
  2:{ cbn [app]. now rewrite <- app_assoc. }
  rewrite firstn_length_app. repeat split; auto.
Qed.




Lemma lower_app a b : lower (a ++ b) = lower a ++ lower b.
Proof. apply map_app. Qed.

(** What [re.search] reports for the title pattern. *)
Lemma ve_title_search a m :
  re_search VE_TITLE_RE a = Some m ->
  exists pre l body t rest,
    a = pre ++ (l :: body ++ t) ++ rest /\ ascii_letter l = true /\
    forallb dot body = true /\ lower t = py "(ve)" /\
    m_start m = length pre /\ m_groups m = [l :: body ++ t] /\
    group0 a m = l :: body ++ t /\ m_len m = length (l :: body ++ t).
Proof.
  intros Hs. unfold re_search in Hs.
  apply search_from_spec in Hs as (pre & post & -> & Hm & _).
  rewrite app_nil_r in Hm. unfold match_here in Hm.
  destruct (ends VE_TITLE_RE ([], rev pre, post)) as [|[[cs b'] a'] rest_] eqn:E;
    [discriminate|].
  assert (Hin : In (cs, b', a') (ends VE_TITLE_RE ([], rev pre, post)))
    by (rewrite E; now left).
  apply ve_title_re_inv in Hin as (l & body & t & Hpost & Hl & Hb & Ht & Hc).
  cbn [fst snd] in *. subst cs.
  inversion Hm; subst m; clear Hm.
  exists pre, l, body, t, a'. unfold group0, slice, m_end.
  cbn [m_start m_len m_groups].
  rewrite length_rev.
  replace (length pre + (length post - length a') - length pre)%nat
    with (length post - length a')%nat by lia.
  rewrite skipn_length_app.
  assert (Hk : (length post - length a')%nat = length (l :: body ++ t)).
  { rewrite Hpost, length_app. lia. }
  rewrite Hk. rewrite Hpost at 2. rewrite firstn_length_app.
  rewrite <- Hpost. repeat split; auto.
Qed.













(* ------------------------------------------------------------------ *)
(** ** The Standard builder and the day record it is given *)

(** C2 fails on the code.  The first day of [week0], as [parse_week] lays it
    out in the store, has "Chef’s choice soup" as its first lunch starter.
    [build_standard_context] returns normally on it, and afterwards the title
    of that starter, in the day record itself, is a highlighted RichText and
    no longer the string: [ensure_len] copied the list of starters but not
    the dicts in it, and the highlight is assigned into the dict.  A RichText
    in that place makes [strip_suffixes] raise TypeError.  A day without a
    chef's soup among its starters, such as the Wednesday, is left as it
    was. *)
Theorem C2_standard_builder_rewrites_day
    (str_of_object : Store.heap -> Store.val -> pystr) :
  title (nth 0 (starters (lunch (source (daily week0 0)))) EMPTY_ITEM)
  = py "Chef’s choice soup"
  /\ starter_title_around_build str_of_object (daily week0 0)
     = (inr (Store.VStr (py "Chef’s choice soup")),
        inr tt,
        inr (Store.VRich (py "Chef’s choice soup")))
  /\ (forall h s, fst (Store.strip_suffixes (Store.VRich s) h) = inl TypeError)
  /\ starter_title_around_build str_of_object (daily week0 2)
     = (inr (Store.VStr (py "Tomato soup")),
        inr tt,
        inr (Store.VStr (py "Tomato soup"))).
Proof.
  split; [vm_compute; reflexivity|].
  split; [vm_compute; reflexivity|].
  split; [intros h s; reflexivity|].
  vm_compute; reflexivity.
Qed.
(* ------------------------------------------------------------------ *)
(** ** The vegan supper soup line *)

(** C3, as stated, fails.  On the Tuesday of [week0] the vegan supper
    special is titled "Chef’s choice soup (Ve)": its row and the fixed supper
    soup row carry the same label.  With the apostrophe typed as ', the
    Thursday has two rows with the label as well, the vegan main and the
    vegan special.  On neither day is a lunch starter the chef's soup. *)
Lemma C3_counterexample :
  wf_day (daily week0 1)
  /\ plain_starters (daily week0 1)
  /\ wf_day (daily week0 3)
  /\ plain_starters (daily week0 3)
  /\ map title (starters (lunch (source (daily week0 1))))
     = [py "Melon"; py "Soup of the day"]
  /\ soup_labels (py "Chef’s choice soup (Ve)") (daily week0 1)
     = [py "Chef’s choice soup (Ve)"; py "Chef’s choice soup (Ve)"]
  /\ soup_labels (py "Chef's choice soup (Ve)") (daily week0 3)
     = [py "Chef's choice soup (Ve)"; py "Chef's choice soup (Ve)"].
Proof.
  split; [repeat split; vm_compute; reflexivity|].
  split; [repeat constructor|].
  split; [repeat split; vm_compute; reflexivity|].
  split; [repeat constructor|].
  split; [vm_compute; reflexivity|].
  split; vm_compute; reflexivity.
Qed.

Lemma starts_with_iff n s : starts_with n s = true <-> exists y, s = n ++ y.
Proof.
  revert s. induction n as [|c n IH]; intros s; simpl.
  - split; eauto.
  - destruct s as [|d s].
    + split; [discriminate | intros (y & H); discriminate].
    + rewrite andb_true_iff, N.eqb_eq, IH. split.
      * intros (-> & y & ->). eauto.
      * intros (y & H). inversion H; subst. eauto.
Qed.

Lemma contains_iff n s : contains n s = true <-> infix_of n s.
Proof.
  unfold infix_of. induction s as [|d s IH]; simpl.
  - rewrite orb_false_r, starts_with_iff. split.
    + intros (y & H). exists [], y. exact H.
    + intros (x & y & H). destruct x; [eauto|discriminate].
  - rewrite orb_true_iff, starts_with_iff, IH. split.
    + intros [(y & H) | (x & y & H)].
      * exists [], y. exact H.
      * exists (d :: x), y. simpl. now rewrite H.
    + intros (x & y & H). destruct x as [|e x]; simpl in H.
      * left. eauto.
      * right. inversion H; subst. eauto.
Qed.

Lemma infix_of_trans a b c : infix_of a b -> infix_of b c -> infix_of a c.
Proof.
  intros (x & y & ->) (x' & y' & ->).
  exists (x' ++ x), (y ++ y'). now rewrite <- !app_assoc.
Qed.

Lemma infix_of_lower a b : infix_of a b -> infix_of (lower a) (lower b).
Proof.
  intros (x & y & ->). exists (lower x), (lower y). now rewrite !lower_app.
Qed.

Lemma soup_free_infix a b : infix_of a b -> soup_free b -> soup_free a.
Proof.
  unfold soup_free. intros Hi Hb.
  destruct (contains CHOICE_SOUP (lower a)) eqn:E; auto.
  apply contains_iff in E.
  assert (H : infix_of CHOICE_SOUP (lower b)).
  { eapply infix_of_trans; [exact E | now apply infix_of_lower]. }
  apply contains_iff in H. congruence.
Qed.

Lemma infix_of_strip s : infix_of (strip s) s.
Proof.
  unfold strip. destruct (strip_by_spec isspace s) as (a & b & H & _).
  exists a, b. exact H.
Qed.

Lemma soup_free_strip s : soup_free s -> soup_free (strip s).
Proof. apply soup_free_infix, infix_of_strip. Qed.

(** A label with the soup line in it holds "choice soup". *)
Lemma soup_free_label s : soup_free s -> contains SOUP_VE (strip s) = false.
Proof.
  intros H. apply soup_free_strip in H.
  destruct (contains SOUP_VE (strip s)) eqn:E; auto.
  apply contains_iff, infix_of_lower in E.
  assert (Hn : infix_of CHOICE_SOUP (lower SOUP_VE)).
  { exists (py "chef’s "), (py " (ve)"); vm_compute; reflexivity. }
  apply contains_iff in Hn.
  assert (H' : infix_of CHOICE_SOUP (lower (strip s))).
  { eapply infix_of_trans; [|exact E]. apply contains_iff. exact Hn. }
  apply contains_iff in H'. unfold soup_free in H. congruence.
Qed.

(** Appending a tag brings no "choice soup": no tag holds a "p". *)
Lemma soup_free_tagged s tag :
  mem (chr_of "p") (lower tag) = false -> soup_free s -> soup_free (s ++ tag).
Proof.
  unfold soup_free. intros Htag Hs.
  destruct (contains CHOICE_SOUP (lower (s ++ tag))) eqn:E; auto.
  exfalso. apply contains_iff in E. destruct E as (x & z & E).
  rewrite lower_app in E.
  change CHOICE_SOUP with (py "choice sou" ++ [chr_of "p"]) in E.
  rewrite app_assoc in E.
  apply app_eq_app in E as (l & [[H1 H2] | [H1 H2]]).
  - assert (Hin : infix_of CHOICE_SOUP (lower s)).
    { exists x, l. rewrite H1.
      change CHOICE_SOUP with (py "choice sou" ++ [chr_of "p"]).
      now rewrite <- !app_assoc. }
    apply contains_iff in Hin. congruence.
  - destruct l as [|c l] using rev_ind.
    + rewrite app_nil_r in H1.
      assert (Hin : infix_of CHOICE_SOUP (lower s)).
      { exists x, []. rewrite <- H1, app_nil_r.
        change CHOICE_SOUP with (py "choice sou" ++ [chr_of "p"]).
        reflexivity. }
      apply contains_iff in Hin. congruence.
    + clear IHl. rewrite !app_assoc in H1.
      apply app_inj_tail in H1 as [_ Hc]. subst c.
      assert (Hin : In (chr_of "p") (lower tag)).
      { rewrite H2. apply in_or_app. left. apply in_or_app. right. now left. }
      unfold mem in Htag.
      assert (Hex : existsb (N.eqb (chr_of "p")) (lower tag) = true).
      { apply existsb_exists. exists (chr_of "p").
        split; [exact Hin | apply N.eqb_refl]. }
      congruence.
Qed.

(** A match of the suffix pattern has at least three characters and leaves
    nothing behind it but, at most, a final newline. *)
Lemma suffix_match_here bef aft m :
  match_here SUFFIX_RE bef aft = Some m ->
  at_eos (m_rest m) = true /\
  exists w, aft = w ++ m_rest m /\ (3 <= length w)%nat /\ m_len m = length w.
Proof.
  intros H. apply match_here_inv in H as (caps & b' & rest & E & Hlen).
  assert (Hin : In (caps, b', m_rest m) (ends SUFFIX_RE ([], bef, aft)))
    by (rewrite E; now left).
  apply suffix_re_inv in Hin as (w1 & tag & w2 & Haf & _ & _ & Htag & Heos).
  cbn [snd] in *. split; [exact Heos|].
  exists (w1 ++ py "(" ++ tag ++ py ")" ++ w2).
  split; [now rewrite <- !app_assoc|].
  assert (Hw : (3 <= length (w1 ++ py "(" ++ tag ++ py ")" ++ w2))%nat).
  { rewrite !length_app. destruct Htag as [-> | ->]; eval_py; cbn [length]; lia. }
  split; [exact Hw|].
  rewrite Hlen. rewrite Haf at 1. rewrite !length_app. lia.
Qed.

Lemma sub_go_suffix_ws fuel bef a :
  at_eos a = true -> (length a < fuel)%nat ->
  sub_go fuel SUFFIX_RE [] bef a = a.
Proof.
  intros Ha Hf. destruct a as [|c [|d a]]; [| |discriminate].
  - destruct fuel; [simpl in Hf; lia | reflexivity].
  - simpl in Ha. apply N.eqb_eq in Ha. subst c.
    destruct fuel as [|[|f]]; [simpl in Hf; lia | simpl in Hf; lia | reflexivity].
Qed.

(** Removing the suffix tag keeps a prefix of the text, and at most a final
    newline after it. *)
Lemma sub_go_suffix_re : forall aft bef fuel,
  (length aft < fuel)%nat ->
  exists pre post tl_,
    aft = pre ++ post /\ sub_go fuel SUFFIX_RE [] bef aft = pre ++ tl_ /\
    forallb isspace tl_ = true.
Proof.
  induction aft as [|c rest IH]; intros bef fuel Hf.
  - exists [], [], []. destruct fuel; [simpl in Hf; lia|]. repeat split.
  - destruct fuel as [|f]; [simpl in Hf; lia|].
    cbn [sub_go].
    destruct (match_here SUFFIX_RE bef (c :: rest)) as [m|] eqn:E.
    + destruct (suffix_match_here _ _ _ E) as (Heos & w & Hw & Hw3 & Hlen).
      destruct (m_len m) as [|k] eqn:Ek; [lia|].
      exists [], (c :: rest), (m_rest m).
      split; [reflexivity|]. split.
      * cbn [app]. apply sub_go_suffix_ws; auto.
        apply (f_equal (@length N)) in Hw. rewrite length_app in Hw.
        simpl in Hf. simpl in Hw. lia.
      * now apply at_eos_space.
    + destruct (IH (c :: bef) f) as (pre & post & tl_ & -> & Hs & Ht).
      { simpl in Hf. lia. }
      exists (c :: pre), post, tl_. rewrite Hs. repeat split; auto.
Qed.

Lemma infix_of_strip_suffixes s : infix_of (strip_suffixes s) s.
Proof.
  unfold strip_suffixes, re_sub.
  destruct (sub_go_suffix_re s [] (S (length s)) ltac:(lia))
    as (pre & post & tl_ & Hs & -> & Ht).
  unfold strip. rewrite strip_by_trailing by exact Ht.
  eapply infix_of_trans; [apply infix_of_strip|].
  exists [], post. exact Hs.
Qed.

Lemma soup_free_strip_suffixes s : soup_free s -> soup_free (strip_suffixes s).
Proof. apply soup_free_infix, infix_of_strip_suffixes. Qed.

Lemma lower1_upper1 c : lower1 (upper1 c) = lower1 c.
Proof.
  unfold lower1, upper1, is_upper, is_lower.
  destruct (97 <=? c) eqn:E1, (c <=? 122) eqn:E2; cbn [andb]; auto.
  apply N.leb_le in E1, E2.
  assert (H1 : (65 <=? c - 32) = true) by (apply N.leb_le; lia).
  assert (H2 : (c - 32 <=? 90) = true) by (apply N.leb_le; lia).
  assert (H3 : (c <=? 90) = false) by (apply N.leb_gt; lia).
  rewrite H1, H2, H3, andb_false_r. cbn [andb]. lia.
Qed.

Lemma lower1_lower1 c : lower1 (lower1 c) = lower1 c.
Proof.
  unfold lower1, is_upper.
  destruct (65 <=? c) eqn:E1, (c <=? 90) eqn:E2; cbn [andb];
    rewrite ?E1, ?E2; cbn [andb]; auto.
  apply N.leb_le in E1, E2.
  assert (H3 : (c + 32 <=? 90) = false) by (apply N.leb_gt; lia).
  now rewrite H3, andb_false_r.
Qed.

(** [sentence_case] changes letter case only. *)
Lemma lower_sentence_case s : lower (sentence_case s) = lower (strip s).
Proof.
  unfold sentence_case.
  destruct (negb (nonempty (strip s))); [reflexivity|].
  destruct (first_alpha_idx (strip s)) as [i|]; [|reflexivity].
  set (t := strip s). unfold slice.
  replace (i + 1 - i)%nat with 1%nat by lia.
  replace (skipn (i + 1) t) with (skipn 1 (skipn i t)).
  2:{ rewrite skipn_skipn. f_equal. lia. }
  rewrite <- (firstn_skipn i t) at 4.
  rewrite <- (firstn_skipn 1 (skipn i t)) at 3.
  rewrite !lower_app. f_equal. f_equal.
  - unfold lower, upper. rewrite map_map. apply map_ext, lower1_upper1.
  - unfold lower. rewrite map_map. apply map_ext, lower1_lower1.
Qed.

Lemma soup_free_sentence_case s : soup_free s -> soup_free (sentence_case s).
Proof.
  intros H. apply soup_free_strip in H. unfold soup_free in *.
  now rewrite lower_sentence_case.
Qed.

Lemma soup_free_add_suffix s : soup_free s -> soup_free (add_suffix s VE).
Proof.
  intros H. unfold add_suffix. apply soup_free_strip.
  apply soup_free_tagged; [reflexivity|].
  now apply soup_free_strip_suffixes.
Qed.

(** The title that [recover_title] settles on comes from the title or from
    the allergens of the row. *)
Lemma soup_free_recover_title t a :
  soup_free t -> soup_free a -> soup_free (fst (recover_title t a)).
Proof.
  intros Ht Ha. unfold recover_title.
  destruct (contains (py "(ve") (lower a) || is_some (re_search VE_ANY_RE a));
    [|exact Ht].
  cbn [fst].
  destruct (re_search VE_TITLE_RE a) as [m|] eqn:E; [|exact Ht].
  destruct (length (strip_suffixes t) <? 2)%nat; [|exact Ht].
  apply ve_title_search in E as (pre & l & body & tt & rest & Hsplit & _ & _ & _ & _ & Hg & _).
  rewrite Hg. cbn [nth]. apply soup_free_strip.
  eapply soup_free_infix; [|exact Ha].
  exists pre, rest. exact Hsplit.
Qed.

Lemma filter_flat_map {A B} (f : B -> bool) (g : A -> list B) (l : list A) :
  List.filter f (flat_map g l) = flat_map (fun x => List.filter f (g x)) l.
Proof.
  induction l as [|x l IH]; cbn [flat_map]; [reflexivity|].
  now rewrite List.filter_app, IH.
Qed.

Lemma no_soup_row t arg force :
  contains SOUP_VE (strip t) = false ->
  List.filter (has_soup_label SOUP_VE)
         (row_of {| e_title := t; e_arg := arg; e_heading := false;
                    e_force := force |}) = [].
Proof.
  intros H. unfold row_of, add. cbn [e_title e_arg e_heading e_force].
  destruct (negb (nonempty (strip t))); [reflexivity|].
  cbn [app List.filter]. unfold has_soup_label, row_label. cbn [fst].
  now rewrite H.
Qed.

Lemma no_soup_heading t :
  contains SOUP_VE t = false ->
  List.filter (has_soup_label SOUP_VE) (row_of (heading t)) = [].
Proof.
  intros H. unfold row_of, add, heading. cbn [e_title e_arg e_heading e_force].
  cbn [app List.filter]. unfold has_soup_label, row_label. cbn [fst].
  now rewrite H.
Qed.

Lemma no_soup_vegan_main t a :
  soup_free t ->
  List.filter (has_soup_label SOUP_VE) (row_of (vegan_main_entry t a)) = [].
Proof.
  intros H. unfold vegan_main_entry.
  destruct (contains (py "jacket") (lower t)); apply no_soup_row.
  - vm_compute. reflexivity.
  - now apply soup_free_label.
Qed.

Lemma no_soup_starters (sts : list Item) :
  Forall soup_free (map title sts) ->
  List.filter (has_soup_label SOUP_VE)
    (flat_map row_of (map (fun st => plain_entry (title st) (allergens st)) sts))
  = [].
Proof.
  induction sts as [|st sts IH]; cbn [map flat_map]; intros H; [reflexivity|].
  apply Forall_cons_iff in H as [H1 H2].
  rewrite List.filter_app, IH by exact H2.
  unfold plain_entry. rewrite no_soup_row; [reflexivity|].
  now apply soup_free_label.
Qed.

Lemma soup_row_kept day :
  List.filter (has_soup_label SOUP_VE) (row_of (soup_entry day))
  = [(SOUP_VE,
      _scrub_vegan_csv_to_canonset (allergens (starter (supper (source day)))),
      false)].
Proof.
  rewrite row_of_soup. cbn [List.filter]. unfold has_soup_label, row_label. cbn [fst].
  replace (contains SOUP_VE SOUP_VE) with true by (vm_compute; reflexivity).
  reflexivity.
Qed.

Lemma one_soup_line_free (day : Day) :
  wf_day day ->
  Forall soup_free (day_titles day) ->
  List.filter (has_soup_label SOUP_VE) (flat_map row_of (table_entries day))
  = [soup_row day].
Proof.
  intros Hwf Hfree. unfold soup_row.
  unfold day_titles in Hfree. apply Forall_app in Hfree as [Hst Hfree].
  destruct (wf_day_inv day Hwf) as (s0 & s1 & d0 & d1 & sd0 & sd1 & E1 & E2 & E3).
  assert (Hs0 : soup_free (title (nth 0 (starters (lunch (source day))) EMPTY_ITEM))).
  { rewrite E1 in Hst |- *. cbn [map nth] in *.
    now apply Forall_cons_iff in Hst as [H _]. }
  repeat (apply Forall_cons_iff in Hfree as [? Hfree]).
  unfold table_entries, entries_head.
  rewrite !flat_map_app, !List.filter_app.
  rewrite (no_soup_starters _ Hst).
  cbn [flat_map]. rewrite !List.filter_app.
  unfold vegan_dessert_entry, vegan_special_entry, forced_entry, cols_entry,
    plain_entry, std_dessert_title.
  rewrite soup_row_kept.
  rewrite !no_soup_heading by (vm_compute; reflexivity).
  rewrite (no_soup_row (py "Chef’s choice soup (V)")) by (vm_compute; reflexivity).
  rewrite no_soup_vegan_main by (vm_compute; reflexivity).
  rewrite no_soup_vegan_main.
  2:{ unfold vegan_main_title. apply soup_free_add_suffix, soup_free_strip_suffixes,
        soup_free_recover_title; assumption. }
  rewrite !no_soup_row; [reflexivity | ..];
    apply soup_free_label;
    repeat first [ assumption
                 | apply soup_free_add_suffix
                 | apply soup_free_strip_suffixes
                 | apply soup_free_tagged; [reflexivity|]
                 | apply soup_free_sentence_case ].
Qed.

Lemma table_rows_around_soup day :
  flat_map row_of (table_entries day)
  = rows_before_soup day ++ soup_row day :: rows_after_soup day.
Proof.
  unfold table_entries, rows_before_soup, rows_after_soup, soup_row.
  rewrite !flat_map_app. cbn [flat_map]. rewrite row_of_soup.
  rewrite !app_nil_r, <- !app_assoc. reflexivity.
Qed.

Lemma filter_nil_Forall {A} (p : A -> bool) l :
  List.filter p l = [] <-> Forall (fun r => p r = false) l.
Proof.
  induction l as [|a l IH]; cbn [List.filter].
  - split; [constructor | reflexivity].
  - destruct (p a) eqn:E.
    + split; [discriminate|]. intros H. apply Forall_cons_iff in H as [H _].
      congruence.
    + rewrite IH. split.
      * intros H. apply Forall_cons_iff. now split.
      * intros H. now apply Forall_cons_iff in H as [_ H].
Qed.

Lemma filter_single {A} (p : A -> bool) a x b :
  p x = true ->
  List.filter p (a ++ x :: b) = [x]
  <-> Forall (fun r => p r = false) (a ++ b).
Proof.
  intros Hx. rewrite List.filter_app. cbn [List.filter]. rewrite Hx.
  rewrite Forall_app, <- !filter_nil_Forall. split.
  - intros H. destruct (List.filter p a) as [|y l].
    + cbn [app] in H. inversion H. now split.
    + cbn [app] in H. inversion H. destruct l; discriminate.
  - intros [-> ->]. reflexivity.
Qed.

(** C3, as the code has it.  On a day whose lunch starters are not chef's
    choice soups the assembler emits the fixed vegan supper soup row once,
    between the rows labelled from the day's titles, and de-duplicates
    nothing: the table has exactly one row whose label contains
    "Chef’s choice soup (Ve)" if and only if none of the other rows has such
    a label.  That is so on every day none of whose titles (nor the
    allergens text of its vegan main) holds "choice soup" in any letter
    case. *)
Theorem C3_one_soup_line (day : Day) :
  wf_day day ->
  plain_starters day ->
  exists std veg rows,
    day_artifacts day = inr (std, veg, rows)
    /\ rows = rows_before_soup day ++ soup_row day :: rows_after_soup day
    /\ has_soup_label SOUP_VE (soup_row day) = true
    /\ (List.filter (has_soup_label SOUP_VE) rows = [soup_row day]
        <-> Forall (fun r => has_soup_label SOUP_VE r = false)
                   (rows_before_soup day ++ rows_after_soup day))
    /\ (Forall soup_free (day_titles day) ->
        List.filter (has_soup_label SOUP_VE) rows = [soup_row day]).
Proof.
  intros Hwf _.
  destruct (day_artifacts_rows day Hwf) as (std & veg & _ & _ & Hr).
  exists std, veg, (flat_map row_of (table_entries day)).
  assert (Hsoup : has_soup_label SOUP_VE (soup_row day) = true)
    by (vm_compute; reflexivity).
  split; [exact Hr|]. split; [apply table_rows_around_soup|].
  split; [exact Hsoup|]. split.
  - rewrite table_rows_around_soup. now apply filter_single.
  - intros Hfree. now apply one_soup_line_free.
Qed.

Lemma C3_one_soup_line_witness :
  wf_day (daily week0 2)
  /\ plain_starters (daily week0 2)
  /\ Forall soup_free (day_titles (daily week0 2))
  /\ exists std veg rows,
       day_artifacts (daily week0 2) = inr (std, veg, rows)
       /\ List.filter (has_soup_label SOUP_VE) rows
          = [(SOUP_VE, {[ py "Celery" ]}, false)].
Proof.
  assert (Hwf : wf_day (daily week0 2)) by (repeat split; vm_compute; reflexivity).
  assert (Hpl : plain_starters (daily week0 2)) by (repeat constructor).
  assert (Hfree : Forall soup_free (day_titles (daily week0 2))).
  { unfold day_titles.
    replace (starters (lunch (source (daily week0 2))))
      with [ {| title := py "Tomato soup"; allergens := py "Celery" |};
             {| title := py "Prawn cocktail"; allergens := py "Crustaceans" |} ]
      by (vm_compute; reflexivity).
    cbn [map app]. repeat constructor; vm_compute; reflexivity. }
  split; [exact Hwf|]. split; [exact Hpl|]. split; [exact Hfree|].
  destruct (C3_one_soup_line (daily week0 2) Hwf Hpl)
    as (std & veg & rows & Hd & _ & _ & _ & Hrows).
  exists std, veg, rows. split; [exact Hd|]. rewrite (Hrows Hfree).
  unfold soup_row.
  replace (_scrub_vegan_csv_to_canonset
             (allergens (starter (supper (source (daily week0 2))))))
    with ({[ py "Celery" ]} : gset pystr) by (vm_compute; reflexivity).
  reflexivity.
Defined.

(** ** Lists of allergens *)

(** Replacing one character by another is a map over the text. *)
Lemma replace_char c d s :
  replace [c] [d] s = map (fun x => if c =? x then d else x) s.
Proof.
  unfold replace. induction s as [|x r IH]; [reflexivity|].
  cbn [replace_go starts_with map length Nat.pred].
  destruct (c =? x); cbn [andb app]; now rewrite IH.
Qed.

Lemma split_on_app sep : forall a cur b,
  split_on sep cur (a ++ sep :: b) = split_on sep cur a ++ split_on sep [] b.
Proof.
  induction a as [|x a IH]; intros cur b; cbn [app split_on].
  - now rewrite N.eqb_refl.
  - destruct (x =? sep); cbn [app]; now rewrite IH.
Qed.

Lemma split_app sep a b : split sep (a ++ sep :: b) = split sep a ++ split sep b.
Proof. apply split_on_app. Qed.

Lemma split_on_none sep : forall s cur,
  ~ In sep s -> split_on sep cur s = [rev cur ++ s].
Proof.
  induction s as [|x s IH]; intros cur H; cbn [split_on].
  - now rewrite app_nil_r.
  - destruct (x =? sep) eqn:E.
    + apply N.eqb_eq in E. subst. exfalso. apply H. now left.
    + rewrite IH by (intros F; apply H; now right).
      cbn [rev]. now rewrite <- app_assoc.
Qed.

Lemma split_none sep s : ~ In sep s -> split sep s = [s].
Proof. intros H. unfold split. now rewrite split_on_none. Qed.

(** The pieces of a split hold characters of the text, never the separator. *)
Lemma split_on_pieces sep : forall s cur p,
  In p (split_on sep cur s) ->
  forall x, In x p -> x <> sep /\ (In x cur \/ In x s) \/ In x cur.
Proof.
  induction s as [|c s IH]; intros cur p Hp x Hx; cbn [split_on] in Hp.
  - destruct Hp as [<-|[]]. right. now apply in_rev.
  - destruct (c =? sep) eqn:E.
    + destruct Hp as [<-|Hp]; [right; now apply in_rev|].
      destruct (IH _ _ Hp _ Hx) as [[Hn [[]|Hs]]|[]].
      left. split; auto. right. now right.
    + apply N.eqb_neq in E.
      destruct (IH _ _ Hp _ Hx) as [[Hn [Hc|Hs]]|Hc].
      * left. split; auto. destruct Hc as [<-|Hc]; [right; now left | now left].
      * left. split; auto. right. now right.
      * destruct Hc as [<-|Hc]; [|now right].
        left. split; auto. right. now left.
Qed.

Lemma split_pieces sep s p x :
  In p (split sep s) -> In x p -> x <> sep /\ In x s.
Proof.
  intros Hp Hx. destruct (split_on_pieces sep s [] p Hp x Hx) as [[Hn [[]|Hs]]|[]].
  now split.
Qed.

Lemma csv_tokens_eq s :
  csv_tokens s
  = map strip (List.filter (fun t => nonempty (strip t))
                 (split COMMA (map (fun x => if SLASH =? x then COMMA else x) s))).
Proof. unfold csv_tokens. change (py "/") with [SLASH]. change (py ",") with [COMMA].
  now rewrite replace_char. Qed.

Lemma csv_tokens_nil : csv_tokens [] = [].
Proof. reflexivity. Qed.

(** A separator, comma or slash, between two lists. *)
Lemma csv_tokens_app a sep b :
  sep = COMMA \/ sep = SLASH ->
  csv_tokens (a ++ sep :: b) = csv_tokens a ++ csv_tokens b.
Proof.
  intros Hsep. rewrite !csv_tokens_eq, map_app. cbn [map].
  replace (if SLASH =? sep then COMMA else sep) with COMMA
    by (destruct Hsep as [-> | ->]; reflexivity).
  now rewrite split_app, List.filter_app, map_app.
Qed.

Lemma parse_unfold s :
  _parse_allergen_csv s
  = list_to_set (omap (fun t => ALLERGEN_NORMALISE !! lower t) (csv_tokens s)).
Proof. unfold _parse_allergen_csv. destruct s; reflexivity. Qed.

Lemma parse_app a sep b :
  sep = COMMA \/ sep = SLASH ->
  _parse_allergen_csv (a ++ sep :: b)
  = _parse_allergen_csv a ∪ _parse_allergen_csv b.
Proof.
  intros Hsep. rewrite !parse_unfold, csv_tokens_app by exact Hsep.
  now rewrite omap_app, list_to_set_app_L.
Qed.

Lemma infix_of_In a b x : infix_of a b -> In x a -> In x b.
Proof. intros (u & v & ->) H. apply in_or_app. right. apply in_or_app. now left. Qed.

Lemma csv_tokens_token s t : In t (csv_tokens s) -> token t.
Proof.
  rewrite csv_tokens_eq. intros H. apply in_map_iff in H as (p & <- & Hp).
  apply filter_In in Hp as [Hp Hne].
  destruct (strip_by_spec isspace p) as (a & b & _ & _ & _ & Hh & Hl).
  fold (strip p) in Hh, Hl.
  split; [destruct (strip p); [discriminate | congruence]|].
  split; [exact Hh|]. split; [exact Hl|].
  assert (Hx : forall x, In x (strip p) -> x <> COMMA /\ x <> SLASH).
  { intros x Hx. apply (infix_of_In _ _ _ (infix_of_strip p)) in Hx.
    destruct (split_pieces _ _ _ _ Hp Hx) as [Hc Hin]. split; [exact Hc|].
    apply in_map_iff in Hin as (y & Hy & _). intros ->.
    destruct (SLASH =? y) eqn:E; [discriminate|].
    apply N.eqb_neq in E. congruence. }
  split; intros F; apply Hx in F; destruct F; congruence.
Qed.

Lemma strip_fix t : hd_ok isspace t -> last_ok isspace t -> strip t = t.
Proof. apply strip_by_fix. Qed.

Lemma strip_space_token t : token t -> strip (SP :: t) = t.
Proof.
  intros (Hne & Hh & Hl & _). unfold strip, strip_by.
  cbn [lstrip_by]. change (isspace SP) with true. cbv iota.
  rewrite lstrip_by_fix by exact Hh. apply rstrip_by_fix. exact Hl.
Qed.

Lemma nonempty_true (t : pystr) : t <> [] -> nonempty t = true.
Proof. destruct t; [congruence | reflexivity]. Qed.

(** Splitting what [", ".join] wrote gives the tokens back. *)
Lemma tokens_of_join : forall ts pre,
  Forall token ts -> ts <> [] -> (pre = [] \/ pre = [SP]) ->
  map strip (List.filter (fun t => nonempty (strip t))
               (split COMMA (pre ++ join (py ", ") ts))) = ts.
Proof.
  assert (Hone : forall t pre, token t -> (pre = [] \/ pre = [SP]) ->
            strip (pre ++ t) = t /\ ~ In COMMA (pre ++ t)).
  { intros t pre Ht Hpre. split.
    - destruct Hpre as [-> | ->]; [|now apply strip_space_token].
      destruct Ht as (_ & Hh & Hl & _). now apply strip_fix.
    - destruct Ht as (_ & _ & _ & Hc & _).
      destruct Hpre as [-> | ->]; [exact Hc|].
      intros [F|F]; [discriminate | auto]. }
  induction ts as [|t ts IH]; intros pre Hts Hne Hpre; [congruence|].
  inversion Hts as [|? ? Ht Hts']; subst.
  destruct (Hone t pre Ht Hpre) as [Hs Hc].
  destruct ts as [|t' ts].
  - cbn [join]. rewrite split_none by exact Hc. cbn [List.filter].
    rewrite Hs, nonempty_true by (apply Ht). cbn [map]. now rewrite Hs.
  - change (join (py ", ") (t :: t' :: ts))
      with (t ++ COMMA :: [SP] ++ join (py ", ") (t' :: ts)).
    rewrite app_assoc, split_app, (split_none _ (pre ++ t)) by exact Hc.
    cbn [app List.filter]. rewrite Hs, nonempty_true by (apply Ht).
    cbn [map]. rewrite Hs. f_equal.
    apply (IH [SP]); [exact Hts' | discriminate | now right].
Qed.

Lemma token_no_slash ts :
  Forall token ts ->
  map (fun x => if SLASH =? x then COMMA else x) (join (py ", ") ts)
  = join (py ", ") ts.
Proof.
  intros H. rewrite <- (map_id (join (py ", ") ts)) at 2.
  apply map_ext_in. intros x Hx.
  destruct (SLASH =? x) eqn:E; [|reflexivity].
  apply N.eqb_eq in E. subst x. exfalso.
  induction H as [|t ts Ht Hts IH]; [destruct Hx|].
  destruct ts as [|t' ts'].
  - cbn [join] in Hx. now apply Ht in Hx.
  - change (join (py ", ") (t :: t' :: ts'))
      with (t ++ COMMA :: SP :: join (py ", ") (t' :: ts')) in Hx.
    apply in_app_or in Hx as [Hx|[Hx|[Hx|Hx]]]; try discriminate.
    + now apply Ht in Hx.
    + now apply IH.
Qed.

Lemma csv_tokens_join ts : Forall token ts -> csv_tokens (join (py ", ") ts) = ts.
Proof.
  intros H. destruct ts as [|t ts]; [reflexivity|].
  rewrite csv_tokens_eq, token_no_slash by exact H.
  apply (tokens_of_join (t :: ts) []); [exact H | discriminate | now left].
Qed.

Lemma remove_unfold s :
  _remove_tokens_from_csv s = join (py ", ") (List.filter allowed (csv_tokens s)).
Proof. unfold _remove_tokens_from_csv. destruct s; reflexivity. Qed.

Lemma Forall_filter_token f s : Forall token (List.filter f (csv_tokens s)).
Proof.
  apply Forall_forall. intros t Ht. apply list_elem_of_In, filter_In in Ht as [Ht _].
  now apply csv_tokens_token in Ht.
Qed.

Lemma csv_tokens_remove s :
  csv_tokens (_remove_tokens_from_csv s) = List.filter allowed (csv_tokens s).
Proof. rewrite remove_unfold. apply csv_tokens_join, Forall_filter_token. Qed.



(** A property of every entry of [ALLERGEN_NORMALISE] holds of whatever a
    lookup returns. *)
Lemma normalise_Forall (P : pystr * pystr -> Prop) l :
  ALLERGEN_NORMALISE = list_to_map l -> Forall P l ->
  forall k v, ALLERGEN_NORMALISE !! k = Some v -> P (k, v).
Proof.
  intros -> HP k v H. apply elem_of_list_to_map_2 in H.
  rewrite Forall_forall in HP. now apply HP.
Qed.

Ltac decide_closed := apply (bool_decide_unpack _); vm_compute; exact I.

Lemma normalise_canon k v :
  ALLERGEN_NORMALISE !! k = Some v ->
  v ∈ CANON_COLS /\ _canon_from_header v = Some v.
Proof.
  intros H.
  apply (normalise_Forall
           (fun kv => snd kv ∈ CANON_COLS /\ _canon_from_header (snd kv) = Some (snd kv))
           _ eq_refl) in H; [exact H|].
  cbn [map].
  repeat (apply List.Forall_cons; [split; [decide_closed | vm_compute; reflexivity]|]).
  apply List.Forall_nil.
Qed.

Lemma normalise_forbidden k v :
  ALLERGEN_NORMALISE !! k = Some v ->
  (k ∈ FORBIDDEN <-> v ∈ NON_VEGAN_CANON).
Proof.
  intros H.
  apply (normalise_Forall
           (fun kv => fst kv ∈ FORBIDDEN <-> snd kv ∈ NON_VEGAN_CANON)
           _ eq_refl) in H; [exact H|].
  cbn [map]. repeat (apply List.Forall_cons; [decide_closed|]). apply List.Forall_nil.
Qed.

Lemma parse_elem s c :
  c ∈ _parse_allergen_csv s <->
  exists t, In t (csv_tokens s) /\ ALLERGEN_NORMALISE !! lower t = Some c.
Proof.
  rewrite parse_unfold, elem_of_list_to_set, list_elem_of_omap.
  split; intros (t & Ht & Hc); exists t; split; auto; now apply list_elem_of_In.
Qed.

Lemma parse_remove s :
  _parse_allergen_csv (_remove_tokens_from_csv s) = _scrub_vegan_csv_to_canonset s.
Proof.
  apply set_eq. intros c. unfold _scrub_vegan_csv_to_canonset.
  rewrite elem_of_filter, !parse_elem, csv_tokens_remove. split.
  - intros (t & Ht & Hc). apply filter_In in Ht as [Ht Hal].
    unfold allowed in Hal. apply bool_decide_eq_true in Hal. split; [|eauto].
    intros Hnv. apply Hal. now apply (normalise_forbidden _ _ Hc).
  - intros (Hnv & t & Ht & Hc). exists t. split; [|exact Hc].
    apply filter_In. split; [exact Ht|]. apply bool_decide_eq_true.
    intros Hf. apply Hnv. now apply (normalise_forbidden _ _ Hc).
Qed.

(** ** The rows of the allergens table *)

Lemma table_entries_split day :
  table_entries day
  = heading (py "— Standard —") :: std_entries day
    ++ heading (py "— Vegan —") :: veg_entries day.
Proof.
  unfold table_entries, entries_head, std_entries, veg_entries.
  cbn [app]. repeat rewrite <- app_assoc. reflexivity.
Qed.

Lemma row_of_heading t : row_of (heading t) = [(t, ∅, true)].
Proof. reflexivity. Qed.

Lemma table_rows_split day :
  flat_map row_of (table_entries day)
  = [STANDARD_HEADING] ++ flat_map row_of (std_entries day)
    ++ [VEGAN_HEADING] ++ flat_map row_of (veg_entries day).
Proof.
  rewrite table_entries_split. cbn [flat_map]. rewrite flat_map_app.
  cbn [flat_map]. rewrite !row_of_heading. reflexivity.
Qed.

Lemma row_of_data e :
  e_heading e = false ->
  row_of e = if nonempty (strip (e_title e))
             then [(strip (e_title e), cols_of (e_arg e) (e_force e), false)]
             else [].
Proof.
  intros H. unfold row_of, add. rewrite H.
  destruct (nonempty (strip (e_title e))); reflexivity.
Qed.

Lemma row_of_len e : (length (row_of e) <= 1)%nat.
Proof.
  destruct (e_heading e) eqn:E.
  - unfold row_of, add. rewrite E. cbn. lia.
  - rewrite row_of_data by exact E. destruct (nonempty _); cbn; lia.
Qed.

Lemma row_of_len_sure e :
  e_heading e = false -> nonempty (strip (e_title e)) = true ->
  length (row_of e) = 1%nat.
Proof. intros E H. rewrite row_of_data by exact E. now rewrite H. Qed.

Lemma strip_strip s : strip (strip s) = strip s.
Proof. apply strip_by_idem. Qed.

Lemma row_of_data_row e r :
  e_heading e = false -> In r (row_of e) -> data_row r.
Proof.
  intros E. rewrite row_of_data by exact E.
  destruct (nonempty (strip (e_title e))) eqn:Hn; [|intros []].
  intros [<-|[]]. unfold data_row, row_is_heading, row_label. cbn [fst snd].
  split; [reflexivity|]. split; [|apply strip_strip].
  destruct (strip (e_title e)); [discriminate | congruence].
Qed.

Lemma Forall_flat_map_row_of (P : Row -> Prop) es :
  (forall e, In e es -> forall r, In r (row_of e) -> P r) ->
  Forall P (flat_map row_of es).
Proof.
  intros H. apply Forall_forall. intros r Hr.
  apply list_elem_of_In, in_flat_map in Hr as (e & He & Hr). eauto.
Qed.

Lemma std_entries_plain day e : In e (std_entries day) -> e_heading e = false.
Proof.
  unfold std_entries. intros H. apply in_app_or in H as [H|H].
  - apply in_map_iff in H as (st & <- & _). reflexivity.
  - cbn [In] in H. repeat destruct H as [<-|H]; try reflexivity. destruct H.
Qed.

Lemma vegan_main_entry_cases t a :
  vegan_main_entry t a = cols_entry JACKET JACKET_COLS
  \/ vegan_main_entry t a = cols_entry t (_scrub_vegan_csv_to_canonset a).
Proof. unfold vegan_main_entry. destruct (contains _ _); auto. Qed.

Lemma veg_entries_plain day e : In e (veg_entries day) -> e_heading e = false.
Proof.
  unfold veg_entries. intros H. cbn [In] in H.
  repeat destruct H as [<-|H]; try reflexivity; try (now destruct H).
  all: match goal with
       | |- context [vegan_main_entry ?t ?a] =>
           destruct (vegan_main_entry_cases t a) as [-> | ->]; reflexivity
       end.
Qed.

(** The columns an entry of the vegan section ticks. *)
Lemma veg_entries_cols day e :
  In e (veg_entries day) ->
  (exists a, cols_of (e_arg e) (e_force e) = _scrub_vegan_csv_to_canonset a)
  \/ cols_of (e_arg e) (e_force e) = JACKET_COLS
  \/ cols_of (e_arg e) (e_force e) = FIXED_DESSERT_COLS.
Proof.
  assert (Hm : forall t a,
    (exists a', cols_of (e_arg (vegan_main_entry t a)) (e_force (vegan_main_entry t a))
                = _scrub_vegan_csv_to_canonset a')
    \/ cols_of (e_arg (vegan_main_entry t a)) (e_force (vegan_main_entry t a))
       = JACKET_COLS
    \/ cols_of (e_arg (vegan_main_entry t a)) (e_force (vegan_main_entry t a))
       = FIXED_DESSERT_COLS).
  { intros t a. destruct (vegan_main_entry_cases t a) as [-> | ->];
      [right; left; reflexivity | left; eexists; reflexivity]. }
  assert (Hd : forall d,
    cols_of (e_arg (vegan_dessert_entry d)) (e_force (vegan_dessert_entry d))
    = FIXED_DESSERT_COLS) by (intros d; apply fixed_dessert_cols).
  unfold veg_entries. intros H. cbn [In] in H.
  destruct H as [<-|[<-|[<-|[<-|[<-|[<-|[<-|[<-|[]]]]]]]]].
  - left. eexists. reflexivity.
  - apply Hm.
  - apply Hm.
  - left. eexists. reflexivity.
  - right. right. apply Hd.
  - left. eexists. reflexivity.
  - left. eexists. reflexivity.
  - right. right. apply Hd.
Qed.

Lemma std_entries_cols day e :
  In e (std_entries day) ->
  exists a, cols_of (e_arg e) (e_force e) = _parse_allergen_csv a.
Proof.
  unfold std_entries. intros H. apply in_app_or in H as [H|H].
  - apply in_map_iff in H as (st & <- & _). eexists. reflexivity.
  - cbn [In] in H. repeat destruct H as [<-|H]; try (eexists; reflexivity). destruct H.
Qed.

Lemma scrub_disjoint a : _scrub_vegan_csv_to_canonset a ## NON_VEGAN_CANON.
Proof.
  unfold _scrub_vegan_csv_to_canonset. apply elem_of_disjoint.
  intros c Hc Hn. apply elem_of_filter in Hc as [Hc _]. now apply Hc.
Qed.

Lemma jacket_disjoint : JACKET_COLS ## NON_VEGAN_CANON.
Proof. apply (bool_decide_unpack _). vm_compute. exact I. Qed.

Lemma fixed_disjoint : FIXED_DESSERT_COLS ## NON_VEGAN_CANON.
Proof. apply (bool_decide_unpack _). vm_compute. exact I. Qed.

Lemma parse_canonical a : canonical_cols (_parse_allergen_csv a).
Proof.
  intros c Hc. apply parse_elem in Hc as (t & _ & Hc).
  now apply normalise_canon in Hc.
Qed.

Lemma scrub_canonical a : canonical_cols (_scrub_vegan_csv_to_canonset a).
Proof.
  intros c Hc. unfold _scrub_vegan_csv_to_canonset in Hc.
  apply elem_of_filter in Hc as [_ Hc]. exact (parse_canonical a c Hc).
Qed.

Lemma canonical_closed (cols : gset pystr) :
  Forall (fun c => c ∈ CANON_COLS /\ _canon_from_header c = Some c) (elements cols) ->
  canonical_cols cols.
Proof.
  intros H c Hc. rewrite Forall_forall in H. apply H. now apply elem_of_elements.
Qed.

Lemma jacket_canonical : canonical_cols JACKET_COLS.
Proof.
  intros c Hc. unfold JACKET_COLS in Hc.
  repeat (apply elem_of_union in Hc as [Hc|Hc]);
    apply elem_of_singleton in Hc; subst c;
    (split; [apply (bool_decide_unpack _); vm_compute; exact I
            | vm_compute; reflexivity]).
Qed.

Lemma fixed_canonical : canonical_cols FIXED_DESSERT_COLS.
Proof. rewrite <- fixed_dessert_cols. apply parse_canonical. Qed.

Lemma empty_canonical : canonical_cols ∅.
Proof. intros c Hc. now apply elem_of_empty in Hc. Qed.

Lemma nonempty_strip_V x : nonempty (strip (x ++ py " (V)")) = true.
Proof.
  change (py " (V)") with (py " (V" ++ [chr_of ")"]).
  rewrite app_assoc. unfold strip.
  rewrite (strip_by_snoc isspace (x ++ py " (V") (chr_of ")")) by reflexivity.
  apply nonempty_snoc.
Qed.

Ltac count_rows :=
  repeat match goal with
         | |- context [length (row_of ?e)] =>
             let t := eval cbn [e_title plain_entry cols_entry forced_entry] in
                      (e_title e) in
             lazymatch t with
             | _ ++ py " (V)" =>
                 rewrite (row_of_len_sure e eq_refl (nonempty_strip_V _))
             | _ ++ py " (Ve)" =>
                 rewrite (row_of_len_sure e eq_refl (nonempty_strip_tagged _))
             | py _ =>
                 rewrite (row_of_len_sure e eq_refl) by (vm_compute; reflexivity)
             | _ =>
                 let H := fresh "Hlen" in
                 pose proof (row_of_len e) as H;
                 generalize dependent (length (row_of e)); intros
             end
         end.

Lemma std_rows_len day :
  wf_day day ->
  (3 <= length (flat_map row_of (std_entries day)) <= 9)%nat.
Proof.
  intros H. destruct (wf_day_inv day H) as (s0 & s1 & d0 & d1 & sd0 & sd1 & E1 & E2 & E3).
  unfold std_entries. rewrite E1, E2, E3. cbn [map app flat_map nth].
  unfold std_dessert_title.
  rewrite !length_app. cbn [length].
  count_rows. lia.
Qed.

Lemma vegan_main_entry_len t a :
  nonempty (strip t) = true -> length (row_of (vegan_main_entry t a)) = 1%nat.
Proof.
  intros H. destruct (vegan_main_entry_cases t a) as [-> | ->];
    apply row_of_len_sure; try reflexivity; try exact H.
Qed.

Lemma veg_rows_len day :
  (7 <= length (flat_map row_of (veg_entries day)) <= 8)%nat.
Proof.
  unfold veg_entries. cbn [flat_map].
  rewrite !length_app. cbn [length].
  rewrite !vegan_main_entry_len.
  2:{ unfold vegan_main_title. rewrite add_suffix_Ve_fix. apply nonempty_add_suffix_Ve. }
  2:{ vm_compute. reflexivity. }
  rewrite row_of_soup. unfold vegan_dessert_entry, vegan_special_entry.
  rewrite !row_of_forced, !row_of_suffixed. cbn [length].
  count_rows. lia.
Qed.

(** ** Dates *)

Lemma is_digit_chr n : is_digit (digit_chr n) = true.
Proof.
  unfold is_digit, digit_chr.
  apply andb_true_iff. split; apply N.leb_le; zify;
    Z.to_euclidean_division_equations; lia.
Qed.

Lemma digit_val n : digit_chr n - 48 = n mod 10.
Proof. unfold digit_chr. generalize (n mod 10). intros m. lia. Qed.

Lemma int_of_pad4 y : y < 10000 -> int_of (pad4 y) = y.
Proof.
  intros H. unfold int_of, pad4. cbn [fold_left].
  rewrite !is_digit_chr, !digit_val.
  zify; Z.to_euclidean_division_equations; lia.
Qed.

Lemma int_of_pad2 n : n < 100 -> int_of (pad2 n) = n.
Proof.
  intros H. unfold int_of, pad2. cbn [fold_left].
  rewrite !is_digit_chr, !digit_val.
  zify; Z.to_euclidean_division_equations; lia.
Qed.

Lemma make_date_inv y m dd d :
  make_date y m dd = Some d ->
  d = {| year := y; month := m; day := dd |}
  /\ 1 <= y <= 9999 /\ 1 <= m <= 12 /\ 1 <= dd <= 31.
Proof.
  unfold make_date.
  destruct (_ && _) eqn:E; [|discriminate]. intros [= <-].
  repeat (apply andb_true_iff in E as [E ?]).
  repeat match goal with H : (_ <=? _) = true |- _ => apply N.leb_le in H end.
  split; [reflexivity|]. repeat split; try assumption.
  unfold days_in_month in *.
  repeat match goal with H : context [if ?b then _ else _] |- _ => destruct b end; lia.
Qed.

Lemma make_date_valid y m dd d : make_date y m dd = Some d -> valid_date d.
Proof.
  intros H. destruct (make_date_inv _ _ _ _ H) as (-> & _). exact H.
Qed.

Lemma valid_date_range d :
  valid_date d -> 1 <= year d <= 9999 /\ In (month d) MONTHS /\ In (day d) DAYS.
Proof.
  intros H. destruct (make_date_inv _ _ _ _ H) as (_ & Hy & Hm & Hd).
  split; [exact Hy|]. split.
  - assert (E : month d = N.of_nat (N.to_nat (month d))) by lia.
    rewrite E. change MONTHS with (map N.of_nat (seq 1 12)).
    apply in_map, in_seq. lia.
  - assert (E : day d = N.of_nat (N.to_nat (day d))) by lia.
    rewrite E. change DAYS with (map N.of_nat (seq 1 31)).
    apply in_map, in_seq. lia.
Qed.

(** The four digits of a year, read by %Y. *)
Lemma ends_RE_Y c bf y1 y2 y3 y4 rest :
  is_digit y1 = true -> is_digit y2 = true -> is_digit y3 = true ->
  is_digit y4 = true ->
  ends RE_Y (c, bf, y1 :: y2 :: y3 :: y4 :: rest)
  = [(c ++ [[y1; y2; y3; y4]], y4 :: y3 :: y2 :: y1 :: bf, rest)].
Proof.
  intros H1 H2 H3 H4. unfold RE_Y. cbn [seqs ends flat_map app map].
  rewrite H1. cbn [flat_map app]. rewrite H2. cbn [flat_map app].
  rewrite H3. cbn [flat_map app]. rewrite H4. cbn [flat_map app map].
  do 3 f_equal.
  cbn [length]. replace (S (S (S (S (length rest)))) - length rest)%nat with 4%nat by lia.
  reflexivity.
Qed.

Lemma match_here_hd r bef aft caps b' a' :
  hd_error (ends r ([], bef, aft)) = Some (caps, b', a') ->
  match_here r bef aft
  = Some {| m_start := length bef; m_len := length aft - length a';
            m_groups := caps; m_rest := a' |}.
Proof.
  unfold match_here. destruct (ends r ([], bef, aft)) as [|[[? ?] ?] ?];
    [discriminate|].
  cbn [hd_error]. now intros [= -> -> ->].
Qed.

(** Month and day behind the year of an ISO date. *)
Lemma ends_iso_rest m dd :
  In m MONTHS -> In dd DAYS ->
  forall c bf,
    hd_error (ends (seqs [lit1 (chr_of "-"); RE_m; lit1 (chr_of "-"); RE_d])
                   (c, bf, py "-" ++ pad2 m ++ py "-" ++ pad2 dd))
    = Some ((c ++ [pad2 m]) ++ [pad2 dd],
            rev (py "-" ++ pad2 m ++ py "-" ++ pad2 dd) ++ bf, []).
Proof.
  intros Hm Hd.
  assert (A : Forall (fun m => Forall (fun dd => forall c bf,
            hd_error (ends (seqs [lit1 (chr_of "-"); RE_m; lit1 (chr_of "-"); RE_d])
                           (c, bf, py "-" ++ pad2 m ++ py "-" ++ pad2 dd))
            = Some ((c ++ [pad2 m]) ++ [pad2 dd],
                    rev (py "-" ++ pad2 m ++ py "-" ++ pad2 dd) ++ bf, [])) DAYS) MONTHS).
  { unfold MONTHS, DAYS.
    repeat (apply List.Forall_cons || apply List.Forall_nil);
      intros c bf; vm_compute; reflexivity. }
  rewrite Forall_forall in A. apply list_elem_of_In in Hm, Hd.
  specialize (A m Hm). rewrite Forall_forall in A. now apply A.
Qed.

Lemma strptime_iso d : valid_date d -> strptime (isoformat d) ISO = Some d.
Proof.
  intros Hv. destruct (valid_date_range d Hv) as (Hy & Hm & Hd).
  unfold strptime.
  assert (E : hd_error (ends (format_regex ISO) ([], [], isoformat d))
              = Some ([pad4 (year d); pad2 (month d); pad2 (day d)],
                      rev (isoformat d), [])).
  { unfold format_regex, isoformat, pad4.
    change (seqs [RE_Y; lit1 (chr_of "-"); RE_m; lit1 (chr_of "-"); RE_d])
      with (Seq RE_Y (seqs [lit1 (chr_of "-"); RE_m; lit1 (chr_of "-"); RE_d])).
    cbn [ends app]. rewrite ends_RE_Y by apply is_digit_chr.
    cbn [flat_map]. rewrite app_nil_r.
    rewrite (ends_iso_rest _ _ Hm Hd). cbn [app].
    rewrite rev_app_distr. reflexivity. }
  rewrite (match_here_hd _ _ _ _ _ _ E).
  unfold m_end. cbn [m_start m_len m_groups length Nat.add].
  rewrite Nat.sub_0_r, Nat.eqb_refl. cbn [negb].
  rewrite int_of_pad4, !int_of_pad2.
  - exact Hv.
  - destruct (make_date_inv _ _ _ _ Hv) as (_ & _ & ? & ?). lia.
  - destruct (make_date_inv _ _ _ _ Hv) as (_ & _ & ? & ?). lia.
  - lia.
Qed.

Ltac invert_ends :=
  repeat match goal with
         | H : In _ (ends (Alt _ _) _) |- _ => apply ends_Alt in H as [H|H]
         | H : In _ (ends (Seq _ _) _) |- _ =>
             let mid := fresh "mid" in
             let H1 := fresh "H" in
             apply ends_Seq in H as (mid & H1 & H);
             destruct mid as [[? ?] ?]
         | H : In _ (ends (Chr _) (_, _, _)) |- _ =>
             let x := fresh "x" in
             let r := fresh "r" in
             let Hp := fresh "Hp" in
             let E := fresh "E" in
             let HH := fresh "HH" in
             apply ends_Chr in H as (x & r & E & Hp & HH);
             inversion HH; subst; clear HH
         end.

(** %d reads one or two characters. *)
Lemma ends_RE_d_len c bf af st' :
  In st' (ends RE_d (c, bf, af)) ->
  exists w, af = w ++ snd st' /\ (length w = 1%nat \/ length w = 2%nat).
Proof.
  intros H. unfold RE_d in H. apply ends_Grp_inv in H as (c' & b' & a' & H & ->).
  cbn [snd]. cbn [alts] in H. unfold lit1 in H.
  invert_ends; subst;
    first [ eexists [_]; split; [reflexivity | now left]
          | eexists [_; _]; split; [reflexivity | now right] ].
Qed.

(** A date that begins with three digits is not of the form day/month/year. *)
Lemma dmy_on_digits f y1 y2 y3 rest :
  f = DMY4 \/ f = DMY2 ->
  is_digit y2 = true -> is_digit y3 = true ->
  strptime (y1 :: y2 :: y3 :: rest) f = None.
Proof.
  intros Hf H2 H3. unfold strptime, match_here.
  destruct (ends (format_regex f) ([], [], y1 :: y2 :: y3 :: rest))
    as [|st' l] eqn:E; [reflexivity|]. exfalso.
  assert (H : In st' (ends (format_regex f) ([], [], y1 :: y2 :: y3 :: rest)))
    by (rewrite E; now left).
  clear E.
  assert (H' : exists mid, In mid (ends RE_d ([], [], y1 :: y2 :: y3 :: rest))
                           /\ exists st2, In st2 (ends (lit1 (chr_of "/")) mid)).
  { destruct Hf as [-> | ->]; unfold format_regex in H; cbn [seqs] in H;
      apply ends_Seq in H as (mid & Hm & H);
      apply ends_Seq in H as (st2 & Hs & _); eauto. }
  destruct H' as ([[c1 b1] a1] & Hm & st2 & Hs).
  apply ends_RE_d_len in Hm as (w & Hw & Hl). cbn [snd] in Hw.
  unfold lit1 in Hs. apply ends_Chr in Hs as (x & r & -> & Hx & _).
  apply N.eqb_eq in Hx. subst x.
  destruct w as [|w1 [|w2 [|w3 w]]]; cbn [length] in Hl; try (destruct Hl; discriminate).
  - injection Hw as _ ->. discriminate.
  - injection Hw as _ _ ->. discriminate.
Qed.

Lemma isoformat_digits d :
  exists y1 y2 y3 rest,
    isoformat d = y1 :: y2 :: y3 :: rest /\ is_digit y1 = true /\
    is_digit y2 = true /\ is_digit y3 = true.
Proof.
  unfold isoformat, pad4. cbn [app]. do 4 eexists.
  split; [reflexivity|]. repeat split; apply is_digit_chr.
Qed.

(** Comparisons of character codes, settled by arithmetic where the context
    decides them. *)
Ltac char_arith :=
  repeat match goal with
         | |- context [?a <=? ?b] =>
             first [ rewrite (proj2 (N.leb_le a b)) by lia
                   | rewrite (proj2 (N.leb_gt a b)) by lia
                   | destruct (N.leb_spec a b) ]
         | |- context [?a =? ?b] =>
             first [ rewrite (proj2 (N.eqb_neq a b)) by lia
                   | rewrite (proj2 (N.eqb_eq a b)) by lia
                   | destruct (N.eqb_spec a b) ]
         | H : context [?a <=? ?b] |- _ => destruct (N.leb_spec a b)
         | H : context [?a =? ?b] |- _ => destruct (N.eqb_spec a b)
         end;
  cbn [andb orb negb] in *; try discriminate; try reflexivity; try lia.

Lemma digit_not_space c : is_digit c = true -> isspace c = false.
Proof.
  unfold is_digit. intros H.
  assert (48 <= c <= 57) by char_arith. clear H.
  unfold isspace. char_arith.
Qed.

Lemma strip_isoformat d : strip (isoformat d) = isoformat d.
Proof.
  apply strip_by_fix.
  - unfold isoformat, pad4. cbn [app hd_ok]. apply digit_not_space, is_digit_chr.
  - unfold last_ok, isoformat, pad4, pad2. cbn [app rev hd_ok].
    apply digit_not_space, is_digit_chr.
Qed.

Lemma first_parse_isoformat d :
  valid_date d -> first_parse (isoformat d) DATE_FORMATS = Some d.
Proof.
  intros Hv. destruct (isoformat_digits d) as (y1 & y2 & y3 & rest & E & _ & H2 & H3).
  unfold DATE_FORMATS. cbn [first_parse].
  rewrite E, !dmy_on_digits by auto. rewrite <- E. now rewrite strptime_iso.
Qed.

Lemma strptime_valid ds f d : strptime ds f = Some d -> valid_date d.
Proof.
  unfold strptime. destruct (match_here _ _ _) as [m|]; [|discriminate].
  destruct (negb _); [discriminate|].
  destruct f; destruct (m_groups m) as [|a [|b [|c [|]]]]; try discriminate;
    apply make_date_valid.
Qed.

Lemma first_parse_valid ds fmts d : first_parse ds fmts = Some d -> valid_date d.
Proof.
  induction fmts as [|f fmts IH]; [discriminate|]. cbn [first_parse].
  destruct (strptime ds f) eqn:E; [|exact IH].
  intros [= <-]. eapply strptime_valid; eauto.
Qed.

Lemma to_iso_isoformat d : valid_date d -> to_iso (isoformat d) = isoformat d.
Proof.
  intros Hv. unfold to_iso. rewrite strip_isoformat.
  now rewrite first_parse_isoformat.
Qed.

Lemma to_iso_idem s : to_iso (to_iso s) = to_iso s.
Proof.
  unfold to_iso at 2 3.
  destruct (first_parse (strip s) DATE_FORMATS) as [d|] eqn:E.
  - apply to_iso_isoformat. eapply first_parse_valid; eauto.
  - unfold to_iso. unfold strip. rewrite strip_by_idem. fold (strip s).
    now rewrite E.
Qed.

Lemma flat_map_flat_map {A B C} (f : A -> list B) (g : B -> list C) l :
  flat_map (fun x => flat_map g (f x)) l = flat_map g (flat_map f l).
Proof.
  induction l as [|x l IH]; [reflexivity|].
  cbn [flat_map]. now rewrite flat_map_app, IH.
Qed.

Lemma ends_Seq_assoc a b c st :
  ends (Seq a (Seq b c)) st = ends (Seq (Seq a b) c) st.
Proof.
  destruct st as [[cs bf] af]. cbn [ends].
  rewrite <- flat_map_flat_map. apply flat_map_ext. now intros [[? ?] ?].
Qed.

Lemma ends_Seq_ext a b b' st :
  (forall st', ends b st' = ends b' st') -> ends (Seq a b) st = ends (Seq a b') st.
Proof. destruct st as [[cs bf] af]. intros H. cbn [ends]. now apply flat_map_ext. Qed.

(** Day and month before the year of a date written day/month/year. *)
Lemma ends_dmy_prefix m dd :
  In m MONTHS -> In dd DAYS ->
  forall y1 y2 y3 y4,
    ends (seqs [RE_d; lit1 (chr_of "/"); RE_m; lit1 (chr_of "/")])
         ([], [], pad2 dd ++ py "/" ++ pad2 m ++ py "/" ++ [y1; y2; y3; y4])
    = [([pad2 dd; pad2 m], rev (pad2 dd ++ py "/" ++ pad2 m ++ py "/"),
        [y1; y2; y3; y4])].
Proof.
  intros Hm Hd.
  assert (A : Forall (fun m => Forall (fun dd => forall y1 y2 y3 y4,
    ends (seqs [RE_d; lit1 (chr_of "/"); RE_m; lit1 (chr_of "/")])
         ([], [], pad2 dd ++ py "/" ++ pad2 m ++ py "/" ++ [y1; y2; y3; y4])
    = [([pad2 dd; pad2 m], rev (pad2 dd ++ py "/" ++ pad2 m ++ py "/"),
        [y1; y2; y3; y4])]) DAYS) MONTHS).
  { unfold MONTHS, DAYS.
    repeat (apply List.Forall_cons || apply List.Forall_nil);
      intros y1 y2 y3 y4; vm_compute; reflexivity. }
  rewrite Forall_forall in A. apply list_elem_of_In in Hm, Hd.
  specialize (A m Hm). rewrite Forall_forall in A. now apply A.
Qed.

Lemma strptime_dmy d : valid_date d -> strptime (strftime_dmy d) DMY4 = Some d.
Proof.
  intros Hv. destruct (valid_date_range d Hv) as (Hy & Hm & Hd).
  unfold strptime.
  assert (E : hd_error (ends (format_regex DMY4) ([], [], strftime_dmy d))
              = Some ([pad2 (day d); pad2 (month d); pad4 (year d)],
                      rev (strftime_dmy d), [])).
  { unfold format_regex.
    change (seqs [RE_d; lit1 (chr_of "/"); RE_m; lit1 (chr_of "/"); RE_Y])
      with (Seq RE_d (Seq (lit1 (chr_of "/"))
                        (Seq RE_m (Seq (lit1 (chr_of "/")) RE_Y)))).
    rewrite (ends_Seq_ext _ _ (Seq (lit1 (chr_of "/"))
                                 (Seq (Seq RE_m (lit1 (chr_of "/"))) RE_Y))).
    2:{ intros st'. apply ends_Seq_ext. intros st''. apply ends_Seq_assoc. }
    rewrite (ends_Seq_ext _ _ (Seq (Seq (lit1 (chr_of "/"))
                                      (Seq RE_m (lit1 (chr_of "/")))) RE_Y))
      by (intros st'; apply ends_Seq_assoc).
    rewrite ends_Seq_assoc.
    change (Seq RE_d (Seq (lit1 (chr_of "/")) (Seq RE_m (lit1 (chr_of "/")))))
      with (seqs [RE_d; lit1 (chr_of "/"); RE_m; lit1 (chr_of "/")]).
    unfold strftime_dmy, pad4.
    change (ends (Seq ?a ?b) ?st) with (flat_map (ends b) (ends a st)).
    rewrite (ends_dmy_prefix _ _ Hm Hd).
    cbn [flat_map]. rewrite ends_RE_Y by apply is_digit_chr.
    cbn [app hd_error]. rewrite !rev_app_distr. reflexivity. }
  rewrite (match_here_hd _ _ _ _ _ _ E).
  unfold m_end. cbn [m_start m_len m_groups length Nat.add].
  rewrite Nat.sub_0_r, Nat.eqb_refl. cbn [negb].
  rewrite int_of_pad4, !int_of_pad2.
  - exact Hv.
  - destruct (make_date_inv _ _ _ _ Hv) as (_ & _ & ? & ?). lia.
  - destruct (make_date_inv _ _ _ _ Hv) as (_ & _ & ? & ?). lia.
  - lia.
Qed.

Lemma strip_strftime_dmy d : strip (strftime_dmy d) = strftime_dmy d.
Proof.
  apply strip_by_fix.
  - unfold strftime_dmy, pad2. cbn [app hd_ok]. apply digit_not_space, is_digit_chr.
  - unfold last_ok, strftime_dmy, pad4, pad2.
    rewrite !rev_app_distr. cbn [app rev hd_ok].
    apply digit_not_space, is_digit_chr.
Qed.

Lemma to_iso_strftime_dmy d : valid_date d -> to_iso (strftime_dmy d) = isoformat d.
Proof.
  intros Hv. unfold to_iso. rewrite strip_strftime_dmy.
  unfold DATE_FORMATS. cbn [first_parse]. now rewrite strptime_dmy.
Qed.

Lemma date_label_isoformat d w :
  valid_date d -> date_label (isoformat d) w = w ++ py " – " ++ strftime_dmy d.
Proof. intros Hv. unfold date_label, fromisoformat. now rewrite strptime_iso. Qed.

(** ** The characters of a result *)

Lemma strip_by_In p s x : In x (strip_by p s) -> In x s.
Proof.
  destruct (strip_by_spec p s) as (a & b & E & _). intros H. rewrite E.
  apply in_or_app. right. apply in_or_app. now left.
Qed.

Lemma rstrip_by_In p s x : In x (rstrip_by p s) -> In x s.
Proof.
  destruct (rstrip_by_spec p s) as (b & E & _). intros H. rewrite E.
  apply in_or_app. now left.
Qed.

Lemma replace_go_In old new : forall s k x,
  In x (replace_go old new k s) -> In x s \/ In x new.
Proof.
  induction s as [|c s IH]; intros k x H; cbn [replace_go] in H; [destruct H|].
  destruct k as [|k].
  - destruct (starts_with old (c :: s)).
    + apply in_app_or in H as [H|H]; [now right|].
      destruct (IH _ _ H); [left; now right | now right].
    + destruct H as [<-|H]; [left; now left|].
      destruct (IH _ _ H); [left; now right | now right].
  - destruct (IH _ _ H); [left; now right | now right].
Qed.

Lemma replace_In old new s x : In x (replace old new s) -> In x s \/ In x new.
Proof. apply replace_go_In. Qed.

Lemma match_here_suffix r bef aft m :
  match_here r bef aft = Some m -> exists w, aft = w ++ m_rest m.
Proof.
  intros H. apply match_here_inv in H as (caps & b' & rest & E & _).
  assert (Hin : In (caps, b', m_rest m) (ends r ([], bef, aft)))
    by (rewrite E; now left).
  apply ends_split in Hin as (w & Hw & _). eauto.
Qed.

Lemma sub_go_In r repl : forall fuel bef aft x,
  In x (sub_go fuel r repl bef aft) -> In x aft \/ In x repl.
Proof.
  induction fuel as [|f IH]; intros bef aft x H; cbn [sub_go] in H; [now left|].
  destruct (match_here r bef aft) as [m|] eqn:E.
  - destruct (match_here_suffix _ _ _ _ E) as (w & Hw).
    destruct (m_len m) as [|n].
    + destruct aft as [|c rest]; [now right|].
      apply in_app_or in H as [H|[<-|H]]; [now right | left; now left|].
      destruct (IH _ _ _ H); [left; now right | now right].
    + apply in_app_or in H as [H|H]; [now right|].
      destruct (IH _ _ _ H) as [H'|H']; [|now right].
      left. rewrite Hw. apply in_or_app. now right.
  - destruct aft as [|c rest]; [destruct H|].
    destruct H as [<-|H]; [left; now left|].
    destruct (IH _ _ _ H); [left; now right | now right].
Qed.

Lemma re_sub_In r repl s x : In x (re_sub r repl s) -> In x s \/ In x repl.
Proof. apply sub_go_In. Qed.

Lemma join_In sep : forall parts x,
  In x (join sep parts) -> In x sep \/ exists p, In p parts /\ In x p.
Proof.
  induction parts as [|p parts IH]; intros x H; [destruct H|].
  destruct parts as [|q parts].
  - cbn [join] in H. right. exists p. split; [now left | exact H].
  - change (join sep (p :: q :: parts)) with (p ++ sep ++ join sep (q :: parts)) in H.
    apply in_app_or in H as [H|H]; [right; exists p; split; [now left | exact H]|].
    apply in_app_or in H as [H|H]; [now left|].
    destruct (IH _ H) as [H'|(p' & Hp' & Hx)]; [now left|].
    right. exists p'. split; [now right | exact Hx].
Qed.

Lemma lower1_NL c : lower1 c = NL -> c = NL.
Proof.
  unfold lower1, is_upper.
  destruct (N.leb_spec 65 c); destruct (N.leb_spec c 90); cbn [andb];
    unfold NL; intros; lia.
Qed.

Lemma lower_no_NL w word : lower w = lower word -> ~ In NL word -> ~ In NL w.
Proof.
  intros E Hn Hw. apply Hn.
  assert (H : In NL (lower w)) by (apply in_map_iff; exists NL; split; auto).
  rewrite E in H. apply in_map_iff in H as (c & Hc & Hin).
  apply lower1_NL in Hc. now subst.
Qed.

Lemma allergen_words_no_NL word : In word ALLERGEN_WORDS -> ~ In NL word.
Proof.
  intros H. apply list_elem_of_In in H. revert word H. apply Forall_forall.
  unfold ALLERGEN_WORDS. cbn [map].
  repeat (apply List.Forall_cons || apply List.Forall_nil);
    vm_compute; intuition discriminate.
Qed.

(** The allergens tail lies on the last line of the trimmed cell. *)
Lemma tail_search_line raw m :
  last_ok isspace raw ->
  re_search ALLERGEN_TAIL_RE raw = Some m ->
  ~ In NL (skipn (m_start m) raw).
Proof.
  intros Hl Hs. unfold re_search in Hs.
  apply search_from_spec in Hs as (pre & post & -> & Hm & _).
  assert (Hst : m_start m = length pre).
  { unfold match_here in Hm.
    destruct (ends _ _) as [|[[? ?] ?] ?]; [discriminate|].
    inversion Hm. cbn. now rewrite app_nil_r, length_rev. }
  rewrite Hst, skipn_length_app.
  apply match_here_inv in Hm as (caps & b' & rest_ & E & _).
  assert (Hin : In (caps, b', m_rest m) (ends ALLERGEN_TAIL_RE ([], rev pre ++ [], post)))
    by (rewrite E; now left).
  apply tail_re_inv in Hin as (Heos & word & w & rest & Hword & Hpost & Hw & Hdot).
  cbn [snd] in *.
  assert (Hr : m_rest m = []).
  { apply (at_eos_trimmed (pre ++ w ++ rest)); [|exact Heos].
    rewrite Hpost in Hl. now rewrite <- !app_assoc. }
  rewrite Hr, app_nil_r in Hpost. subst post.
  intros H. apply in_app_or in H as [H|H].
  - revert H. eapply lower_no_NL; eauto. now apply allergen_words_no_NL.
  - rewrite forallb_forall in Hdot. apply Hdot in H. discriminate.
Qed.

Lemma raw_no_CR cell_text x :
  In x (strip (replace (py "\r") (py "\n") cell_text)) -> x <> CR.
Proof.
  intros H. apply strip_by_In in H.
  change (py "\r") with [CR] in H. change (py "\n") with [NL] in H.
  rewrite replace_char in H. apply in_map_iff in H as (y & <- & _).
  destruct (N.eqb_spec CR y); [discriminate | congruence].
Qed.

Lemma one_line_strip s : one_line s -> one_line (strip s).
Proof. intros H x Hx. apply H. now apply strip_by_In in Hx. Qed.

Lemma split_body_lines body :
  (forall x, In x body -> x <> CR) ->
  forall l, In l (List.filter nonempty
                    (map strip (split NL (re_sub LONG_SPACES_RE (py "\n") body)))) ->
            one_line l /\ strip l = l.
Proof.
  intros Hb l Hl. apply filter_In in Hl as [Hl _].
  apply in_map_iff in Hl as (p & <- & Hp). split; [|apply strip_by_idem].
  intros x Hx. apply strip_by_In in Hx.
  destruct (split_pieces _ _ _ _ Hp Hx) as [Hn Hin]. split; [exact Hn|].
  apply re_sub_In in Hin as [Hin|Hin]; [now apply Hb|].
  destruct Hin as [<-|[]]. discriminate.
Qed.

Lemma split_body_one_line body :
  (forall x, In x body -> x <> CR) ->
  one_line (fst (split_body body)) /\ one_line (snd (split_body body))
  /\ strip (fst (split_body body)) = fst (split_body body)
  /\ strip (snd (split_body body)) = snd (split_body body).
Proof.
  intros Hb. pose proof (split_body_lines body Hb) as Hl.
  unfold split_body. cbn [fst snd].
  set (lines := List.filter nonempty _) in *.
  assert (Ht : one_line (match lines with l :: _ => l | [] => [] end)
               /\ strip (match lines with l :: _ => l | [] => [] end)
                  = match lines with l :: _ => l | [] => [] end).
  { destruct lines as [|l ls]; [split; [intros x [] | reflexivity]|].
    apply Hl. now left. }
  assert (Hd : one_line (join (py " ") (tl lines))).
  { intros x Hx. apply join_In in Hx as [Hx|(p & Hp & Hx)].
    - destruct Hx as [<-|[]]. split; discriminate.
    - assert (Hp' : In p lines) by (destruct lines; [destruct Hp | now right]).
      now apply (Hl p Hp'). }
  destruct Ht as [Ht1 Ht2]. split; [exact Ht1|]. split.
  - destruct (1 <? length lines)%nat; [now apply one_line_strip | intros x []].
  - split; [exact Ht2|].
    destruct (1 <? length lines)%nat; [apply strip_by_idem | reflexivity].
Qed.

Lemma tidy_one_line a : one_line a -> one_line (tidy_allergens a).
Proof.
  intros H. unfold tidy_allergens. destruct (nonempty a); [|exact H].
  intros x Hx. apply strip_by_In in Hx.
  apply replace_In in Hx as [Hx|Hx].
  - apply re_sub_In in Hx as [Hx|Hx]; [now apply H|].
    destruct Hx as [<-|[<-|[]]]; split; discriminate.
  - destruct Hx as [<-|[]]; split; discriminate.
Qed.

Lemma split_body_pair b : split_body b = (fst (split_body b), snd (split_body b)).
Proof. destruct (split_body b); reflexivity. Qed.

Lemma parse_cell_one_line cell_text :
  let c := parse_title_desc_allergens cell_text in
  one_line (c_title c) /\ one_line (c_description c) /\ one_line (c_allergens c)
  /\ strip (c_title c) = c_title c /\ strip (c_description c) = c_description c.
Proof.
  unfold parse_title_desc_allergens.
  set (raw := strip (replace (py "\r") (py "\n") cell_text)).
  assert (Hraw : forall x, In x raw -> x <> CR) by (intros x; apply raw_no_CR).
  assert (Hl : last_ok isspace raw) by apply strip_last_ok.
  destruct (re_search ALLERGEN_TAIL_RE raw) as [m|] eqn:E.
  - rewrite split_body_pair. cbn [c_title c_description c_allergens].
    assert (Hb : forall x, In x (strip (firstn (m_start m) raw)) -> x <> CR).
    { intros x Hx. apply strip_by_In in Hx. apply Hraw.
      rewrite <- (firstn_skipn (m_start m) raw). apply in_or_app. now left. }
    destruct (split_body_one_line _ Hb) as (H1 & H2 & H3 & H4).
    repeat split; try assumption; try (now apply H1); try (now apply H2).
    all: revert x H; apply tidy_one_line, one_line_strip.
    all: intros x Hx; split;
      [ intros ->; now apply (tail_search_line raw m Hl E)
      | apply Hraw; rewrite <- (firstn_skipn (m_start m) raw);
        apply in_or_app; now right ].
  - rewrite split_body_pair. cbn [c_title c_description c_allergens].
    destruct (split_body_one_line _ Hraw) as (H1 & H2 & H3 & H4).
    repeat split; try assumption; try (now apply H1); try (now apply H2);
      destruct H.
Qed.

(** A cell of white space only is a blank cell. *)
Lemma parse_blank cell_text :
  forallb isspace cell_text = true ->
  parse_title_desc_allergens cell_text = blank_cell.
Proof.
  intros H. unfold parse_title_desc_allergens.
  assert (E : strip (replace (py "\r") (py "\n") cell_text) = []).
  { apply strip_by_all. change (py "\r") with [CR]. change (py "\n") with [NL].
    rewrite replace_char, forallb_forall. intros x Hx.
    apply in_map_iff in Hx as (y & <- & Hy).
    destruct (CR =? y); [reflexivity|].
    rewrite forallb_forall in H. now apply H. }
  rewrite E. reflexivity.
Qed.

(** ** Weekday names *)

Lemma weekday_nonblank rows i :
  (i < 7)%nat ->
  let name := strip (cell rows 0 (i + 1)) in
  weekday (header (daily rows i)) = (if nonempty name then name else nth i WEEKDAYS [])
  /\ weekday (header (daily rows i)) <> []
  /\ strip (weekday (header (daily rows i))) = weekday (header (daily rows i)).
Proof.
  intros Hi name. cbn [daily header weekday]. fold name.
  split; [reflexivity|].
  destruct (nonempty name) eqn:E.
  - split; [destruct name; [discriminate | congruence] | apply strip_by_idem].
  - do 7 (destruct i as [|i]; [split; [discriminate | vm_compute; reflexivity]|]).
    lia.
Qed.

(** ** Optional sides *)

(** The pieces of [re.split]: what a piece holds was not the first character
    of a match. *)
Lemma split_go_pieces r (P : N -> Prop) :
  (forall bef c rest, P c ->
     exists m, match_here r bef (c :: rest) = Some m /\ m_len m <> 0%nat) ->
  forall fuel cur bef aft,
    (length aft < fuel)%nat ->
    forall p x, In p (split_go fuel r cur bef aft) -> In x p ->
                (In x cur \/ In x aft) /\ (~ In x cur -> ~ P x).
Proof.
  intros HP. induction fuel as [|f IH]; intros cur bef aft Hf p x Hp Hx; [lia|].
  cbn [split_go] in Hp.
  destruct (match_here r bef aft) as [m|] eqn:E.
  - destruct (match_here_rest _ _ _ _ E) as [Hle Hlen].
    destruct (match_here_suffix _ _ _ _ E) as (w & Hw).
    destruct (m_len m) as [|n] eqn:En.
    + destruct aft as [|c rest].
      * destruct Hp as [<-|[<-|[]]]; [|destruct Hx].
        split; [left; now apply in_rev|]. intros Hc. destruct Hc. now apply in_rev.
      * assert (Hc : ~ P c).
        { intros Hc. destruct (HP bef c rest Hc) as (m' & E' & Hm').
          rewrite E in E'. inversion E'; subst. congruence. }
        destruct Hp as [<-|Hp].
        { split; [left; now apply in_rev|]. intros Hn. destruct Hn. now apply in_rev. }
        cbn [length] in Hf.
        destruct (IH [c] (c :: bef) rest ltac:(lia) p x Hp Hx) as [Hin Hnp].
        split.
        -- destruct Hin as [[<-|[]]|Hin]; right; [now left | now right].
        -- intros _. destruct (N.eq_dec x c) as [->|Hne]; [exact Hc|].
           apply Hnp. intros [F|[]]. congruence.
    + destruct Hp as [<-|Hp].
      { split; [left; now apply in_rev|]. intros Hn. destruct Hn. now apply in_rev. }
      destruct (IH [] _ (m_rest m) ltac:(lia) p x Hp Hx) as [Hin Hnp].
      split.
      * destruct Hin as [[]|Hin]. right. rewrite Hw. apply in_or_app. now right.
      * intros _. apply Hnp. intros [].
  - destruct aft as [|c rest].
    + destruct Hp as [<-|[]].
      split; [left; now apply in_rev|]. intros Hn. destruct Hn. now apply in_rev.
    + assert (Hc : ~ P c).
      { intros Hc. destruct (HP bef c rest Hc) as (m' & E' & _). congruence. }
      cbn [length] in Hf.
      destruct (IH (c :: cur) (c :: bef) rest ltac:(lia) p x Hp Hx) as [Hin Hnp].
      split.
      * destruct Hin as [[<-|Hin]|Hin]; [right; now left | now left | right; now right].
      * intros Hn. destruct (N.eq_dec x c) as [->|Hne]; [exact Hc|].
        apply Hnp. intros [F|F]; [congruence | auto].
Qed.

Lemma re_split_pieces r (P : N -> Prop) s :
  (forall bef c rest, P c ->
     exists m, match_here r bef (c :: rest) = Some m /\ m_len m <> 0%nat) ->
  forall p x, In p (re_split r s) -> In x p -> In x s /\ ~ P x.
Proof.
  intros HP p x Hp Hx. unfold re_split in Hp.
  destruct (split_go_pieces r P HP (S (length s)) [] [] s (Nat.lt_succ_diag_r _)
              p x Hp Hx) as [[[]|H] Hn].
  split; [exact H|]. apply Hn. intros [].
Qed.

Lemma latin_or_bullet_forallb s :
  forallb (fun c => (c <? 128) || mem c (py "–•")) s = true -> latin_or_bullet s.
Proof.
  intros H. apply List.Forall_forall. intros c Hc.
  rewrite forallb_forall in H. apply H in Hc.
  apply orb_true_iff in Hc as [Hc|Hc]; [left; now apply N.ltb_lt|right].
  unfold mem in Hc. apply existsb_exists in Hc as (x & Hx & E).
  apply N.eqb_eq in E. now subst.
Qed.

Lemma sides_match_nonempty c bf af st' :
  In st' (ends SIDES_SPLIT_RE (c, bf, af)) -> (length (snd st') < length af)%nat.
Proof.
  unfold SIDES_SPLIT_RE. cbn [alts]. unfold lit1. intros H.
  repeat (apply ends_Alt in H as [H|H]).
  1,2: apply ends_Chr in H as (x & r & -> & _ & ->); cbn; lia.
  all: apply ends_Rep in H as (w & a' & -> & _ & Hl & ->); cbn [snd];
    rewrite length_app; lia.
Qed.

Lemma sides_match_at bef c rest :
  c = COMMA \/ c = SLASH \/ c = 9 \/ c = NL ->
  exists m, match_here SIDES_SPLIT_RE bef (c :: rest) = Some m /\ m_len m <> 0%nat.
Proof.
  intros Hc.
  assert (Hin : exists st', In st' (ends SIDES_SPLIT_RE ([], bef, c :: rest))).
  { exists ([], c :: bef, rest). unfold SIDES_SPLIT_RE. cbn [alts]. unfold lit1.
    destruct Hc as [-> | [-> | [-> | ->]]].
    - apply ends_Alt. left. apply ends_Chr. eauto.
    - apply ends_Alt. right. apply ends_Alt. left. apply ends_Chr. eauto.
    - do 2 (apply ends_Alt; right). apply ends_Alt. left.
      apply ends_Rep. exists [9], rest. repeat split. cbn. lia.
    - do 4 (apply ends_Alt; right).
      apply ends_Rep. exists [NL], rest. repeat split. cbn. lia. }
  destruct Hin as (st0 & Hin).
  unfold match_here.
  destruct (ends SIDES_SPLIT_RE ([], bef, c :: rest)) as [|[[cs b'] a'] l] eqn:E;
    [destruct Hin|].
  eexists. split; [reflexivity|]. cbn [m_len].
  assert (H : In (cs, b', a') (ends SIDES_SPLIT_RE ([], bef, c :: rest)))
    by (rewrite E; now left).
  apply sides_match_nonempty in H. cbn [snd] in H. lia.
Qed.

(** The de-duplication loop keeps one spelling of each lower-cased item. *)
Lemma uniq_lower_spec : forall parts seen,
  NoDup (map lower (uniq_lower seen parts))
  /\ (forall p, In p (uniq_lower seen parts) -> In p parts /\ lower p ∉ seen)
  /\ (forall p, In p parts ->
        lower p ∈ seen \/ In (lower p) (map lower (uniq_lower seen parts))).
Proof.
  induction parts as [|q parts IH]; intros seen; cbn [uniq_lower map].
  - split; [constructor|]. split; [intros p [] | intros p []].
  - destruct (decide (lower q ∈ seen)) as [Hq|Hq].
    + destruct (IH seen) as (H1 & H2 & H3). split; [exact H1|]. split.
      * intros p Hp. destruct (H2 p Hp). split; [now right | assumption].
      * intros p [<-|Hp]; [now left | now apply H3].
    + destruct (IH ({[lower q]} ∪ seen)) as (H1 & H2 & H3). cbn [map]. split.
      * apply NoDup_cons. split; [|exact H1].
        intros Hin. apply list_elem_of_In, in_map_iff in Hin as (p & Hp & Hin).
        destruct (H2 p Hin) as [_ Hn]. apply Hn. rewrite Hp.
        apply elem_of_union. left. now apply elem_of_singleton.
      * split.
        -- intros p [<-|Hp]; [split; [now left | exact Hq]|].
           destruct (H2 p Hp) as [Hin Hn]. split; [now right|].
           intros Hs. apply Hn, elem_of_union. now right.
        -- intros p [<-|Hp]; [right; now left|].
           destruct (H3 p Hp) as [Hs|Hs]; [|right; now right].
           apply elem_of_union in Hs as [Hs|Hs]; [|now left].
           apply elem_of_singleton in Hs. right. left. now symmetry.
Qed.

Lemma normalise_sides_items text :
  exists items,
    normalise_sides text = join (py ", ") items
    /\ (text = [] -> items = [])
    /\ NoDup (map lower items)
    /\ forall p x, In p items -> In x p -> ~ side_separator x /\ In x text.
Proof.
  unfold normalise_sides. destruct (nonempty text) eqn:Ht; cbn [negb].
  2:{ exists []. split; [reflexivity|]. split; [reflexivity|].
      split; [constructor | intros p x []]. }
  eexists. split; [reflexivity|].
  split; [intros ->; discriminate|].
  destruct (uniq_lower_spec
              (map (fun p => strip (rstrip_chars (py ".") (strip_chars (py " -–•") p)))
                 (List.filter (fun p => nonempty p && nonempty (strip p))
                    (re_split SIDES_SPLIT_RE (replace (py "\r") (py "\n") text))))
              ∅) as (H1 & H2 & _).
  split; [exact H1|].
  intros p x Hp Hx. apply H2 in Hp as [Hp _].
  apply in_map_iff in Hp as (q & <- & Hq). apply filter_In in Hq as [Hq _].
  apply strip_by_In, rstrip_by_In, strip_by_In in Hx.
  destruct (re_split_pieces SIDES_SPLIT_RE
              (fun c => c = COMMA \/ c = SLASH \/ c = 9 \/ c = NL) _
              sides_match_at q x Hq Hx) as [Hin Hn].
  change (py "\r") with [CR] in Hin. change (py "\n") with [NL] in Hin.
  rewrite replace_char in Hin. apply in_map_iff in Hin as (y & Hy & Hyin).
  split.
  - intros [H|[H|[H|[H|H]]]]; try (apply Hn; tauto).
    subst x. destruct (N.eqb_spec CR y); [discriminate | congruence].
  - destruct (N.eqb_spec CR y); [exfalso; apply Hn; subst x; tauto|].
    now subst x.
Qed.

(** ** Suffix tags, again *)

Lemma strip_suffixes_fix s : strip (strip_suffixes s) = strip_suffixes s.
Proof. unfold strip_suffixes, strip. apply strip_by_idem. Qed.

Lemma add_suffix_idem s : add_suffix (add_suffix s VE) VE = add_suffix s VE.
Proof.
  unfold add_suffix at 1.
  now rewrite strip_suffixes_add_suffix, strip_suffixes_fix.
Qed.

Lemma lstrip_keeps p suf : forall x,
  hd_ok p suf -> suf <> [] -> exists pre, lstrip_by p (x ++ suf) = pre ++ suf.
Proof.
  intros x Hh Hne. induction x as [|c x IH]; cbn [app].
  - exists []. now apply lstrip_by_fix.
  - cbn [lstrip_by]. destruct (p c); [exact IH|].
    exists (c :: x). reflexivity.
Qed.

Lemma add_suffix_ends s : ends_with (py "(Ve)") (add_suffix s VE).
Proof.
  unfold add_suffix. change (py " " ++ VE) with (py " (Ve)").
  rewrite strip_tagged.
  change (py " (Ve") with (py " " ++ py "(Ve"). rewrite app_assoc.
  destruct (lstrip_keeps isspace (py "(Ve") (strip_suffixes s ++ py " ")
              eq_refl ltac:(discriminate)) as (pre & ->).
  exists pre. rewrite <- app_assoc. reflexivity.
Qed.

Lemma ends_with_tagged x : ends_with (py "(Ve)") (x ++ py " (Ve)").
Proof. exists (x ++ py " "). now rewrite <- app_assoc. Qed.

Lemma ends_with_closed suffix s :
  starts_with (rev suffix) (rev s) = true -> ends_with suffix s.
Proof.
  intros H. apply starts_with_iff in H as (y & Hy).
  exists (rev y). apply (f_equal (@rev N)) in Hy.
  now rewrite rev_involutive, rev_app_distr, rev_involutive in Hy.
Qed.

(** ** The vegan context *)

Lemma vegan_safe_remove a : vegan_safe (_remove_tokens_from_csv a).
Proof.
  split.
  - rewrite csv_tokens_remove. apply Forall_forall. intros t Ht.
    apply list_elem_of_In, filter_In in Ht as [_ Ht].
    unfold allowed in Ht. now apply bool_decide_eq_true in Ht.
  - rewrite parse_remove. apply scrub_disjoint.
Qed.

Lemma vegan_safe_closed a :
  forallb (fun t => bool_decide (lower t ∉ FORBIDDEN)) (csv_tokens a) = true ->
  bool_decide (_parse_allergen_csv a ## NON_VEGAN_CANON) = true ->
  vegan_safe a.
Proof.
  intros H1 H2. split; [|now apply bool_decide_eq_true in H2].
  apply Forall_forall. intros t Ht. apply list_elem_of_In in Ht.
  rewrite forallb_forall in H1. apply H1 in Ht. now apply bool_decide_eq_true in Ht.
Qed.

Lemma vegan_context_fields day veg :
  build_vegan_context day = inr veg ->
  Forall vegan_safe (veg_allergen_fields veg)
  /\ Forall (ends_with (py "(Ve)")) (veg_dish_titles veg).
Proof.
  unfold build_vegan_context.
  destruct (idx (ensure_len (starters (lunch (source day))) 2 EMPTY_ITEM) 0);
    cbn [bind]; [discriminate|].
  destruct (recover_title _ _).
  destruct (idx (desserts (lunch (source day))) 0); cbn [bind]; [discriminate|].
  destruct (recover_title _ _).
  destruct (idx (s_desserts (supper (source day))) 0); cbn [bind]; [discriminate|].
  intros H. inversion H; subst veg; clear H.
  unfold veg_allergen_fields, veg_dish_titles.
  cbn [veg_lunch veg_supper vl_starters vl_mains vl_optional_sides vl_desserts
       vs_starter vs_selection vs_specials vs_desserts map app firstn
       title allergens v_title v_allergens t_title t_allergens text_str _yellow].
  split.
  - repeat (apply List.Forall_cons || apply List.Forall_nil);
      try apply vegan_safe_remove;
      apply vegan_safe_closed; vm_compute; reflexivity.
  - repeat (apply List.Forall_cons || apply List.Forall_nil);
      first [ apply add_suffix_ends
            | apply ends_with_tagged
            | apply ends_with_closed; vm_compute; reflexivity ].
Qed.

(** ** Sentence case, again *)

Lemma sentence_case_at s pre c post :
  strip s = pre ++ c :: post ->
  forallb (fun x => negb (isalpha x)) pre = true -> isalpha c = true ->
  sentence_case s = pre ++ upper1 c :: lower post.
Proof.
  intros Hs Hp Hc. unfold sentence_case. rewrite Hs.
  assert (Hne : nonempty (pre ++ c :: post) = true) by (destruct pre; reflexivity).
  rewrite Hne. cbn [negb].
  rewrite (first_alpha_idx_spec _ c post Hp Hc).
  unfold slice. rewrite firstn_length_app, skipn_length_app.
  replace (length pre + 1 - length pre)%nat with 1%nat by lia.
  replace (length pre + 1)%nat with (length (pre ++ [c])).
  2:{ rewrite length_app. reflexivity. }
  replace (pre ++ c :: post) with ((pre ++ [c]) ++ post).
  2:{ rewrite <- app_assoc. reflexivity. }
  rewrite skipn_length_app. reflexivity.
Qed.

Lemma sentence_case_no_alpha s :
  forallb (fun x => negb (isalpha x)) (strip s) = true -> sentence_case s = strip s.
Proof.
  intros Hp. unfold sentence_case.
  destruct (strip s) eqn:E; [reflexivity|].
  cbn [nonempty negb]. now rewrite first_alpha_idx_none.
Qed.

Lemma first_alpha_split t :
  forallb (fun x => negb (isalpha x)) t = true
  \/ exists pre c post, t = pre ++ c :: post /\
       forallb (fun x => negb (isalpha x)) pre = true /\ isalpha c = true.
Proof.
  induction t as [|x t IH]; [now left|].
  destruct (isalpha x) eqn:E.
  - right. exists [], x, t. auto.
  - destruct IH as [IH|(pre & c & post & -> & Hp & Hc)].
    + left. cbn [forallb]. now rewrite E, IH.
    + right. exists (x :: pre), c, post. cbn [forallb app]. rewrite E, Hp. auto.
Qed.

Lemma upper1_alpha c : isalpha c = true -> isalpha (upper1 c) = true.
Proof. unfold isalpha, upper1, is_upper, is_lower. intros H. char_arith. Qed.

Lemma upper1_upper1 c : upper1 (upper1 c) = upper1 c.
Proof. unfold upper1, is_lower. char_arith. Qed.

Lemma lower1_space c : isspace (lower1 c) = isspace c.
Proof.
  unfold lower1, is_upper.
  destruct (N.leb_spec 65 c), (N.leb_spec c 90); cbn [andb]; try reflexivity.
  unfold isspace. char_arith.
Qed.

Lemma alpha_not_space c : isalpha c = true -> isspace c = false.
Proof.
  unfold isalpha, is_upper, is_lower. intros H.
  assert (65 <= c <= 122) by char_arith. clear H.
  unfold isspace. char_arith.
Qed.

Lemma last_ok_snoc (p : N -> bool) t x : p x = false -> last_ok p (t ++ [x]).
Proof. intros H. unfold last_ok. rewrite rev_app_distr. exact H. Qed.

Lemma list_eq_nil_or_snoc {A} (l : list A) : l = [] \/ exists q z, l = q ++ [z].
Proof.
  destruct l as [|x l]; [now left|]. right.
  destruct (@exists_last A (x :: l) ltac:(discriminate)) as (q & z & E). eauto.
Qed.

Lemma sentence_case_idem s : sentence_case (sentence_case s) = sentence_case s.
Proof.
  destruct (strip_by_spec isspace s) as (a & b & _ & _ & _ & Hh & Hl).
  fold (strip s) in Hh, Hl.
  destruct (first_alpha_split (strip s)) as [Hn|(pre & c & post & E & Hp & Hc)].
  - rewrite (sentence_case_no_alpha s Hn).
    rewrite (sentence_case_no_alpha (strip s)); unfold strip; rewrite strip_by_idem;
      [reflexivity | exact Hn].
  - rewrite (sentence_case_at s pre c post E Hp Hc).
    assert (Hfix : strip (pre ++ upper1 c :: lower post) = pre ++ upper1 c :: lower post).
    { apply strip_by_fix.
      - rewrite E in Hh. destruct pre as [|x pre]; [|exact Hh].
        cbn [app hd_ok]. apply alpha_not_space, upper1_alpha, Hc.
      - rewrite E in Hl. destruct (list_eq_nil_or_snoc post) as [->|(q & z & ->)].
        + change (pre ++ upper1 c :: lower []) with (pre ++ [upper1 c]).
          apply last_ok_snoc, alpha_not_space, upper1_alpha, Hc.
        + replace (pre ++ c :: q ++ [z]) with ((pre ++ c :: q) ++ [z]) in Hl
            by (now rewrite <- app_assoc).
          apply last_ok_last in Hl.
          unfold lower. rewrite map_app. cbn [map].
          replace (pre ++ upper1 c :: map lower1 q ++ [lower1 z])
            with ((pre ++ upper1 c :: map lower1 q) ++ [lower1 z])
            by (now rewrite <- app_assoc).
          apply last_ok_snoc. now rewrite lower1_space. }
    rewrite (sentence_case_at _ pre (upper1 c) (lower post) Hfix Hp
               (upper1_alpha c Hc)).
    rewrite upper1_upper1. do 2 f_equal.
    unfold lower. rewrite map_map. apply map_ext, lower1_lower1.
Qed.

(** ** Template paths *)

Lemma resolve_templates_spec isfile path_join args :
  let explicit := given (a_standard_tpl args) && given (a_vegan_tpl args)
                  && given (a_allergens_tpl args) in
  let paths := template_paths path_join args in
  (explicit = true ->
     exists std veg allg,
       a_standard_tpl args = Some std /\ a_vegan_tpl args = Some veg
       /\ a_allergens_tpl args = Some allg
       /\ resolve_templates isfile path_join args = inr (std, veg, allg))
  /\ (explicit = false ->
      match resolve_templates isfile path_join args with
      | inr (std, veg, allg) =>
          paths = [std; veg; allg] /\ forallb isfile paths = true
      | inl (SystemExit msg) =>
          exists found p rest,
            paths = found ++ p :: rest /\ forallb isfile found = true
            /\ isfile p = false /\ msg = py "Template not found: " ++ p
      end).
Proof.
  intros explicit paths. split.
  - intros H. unfold resolve_templates. fold explicit. rewrite H.
    subst explicit. apply andb_true_iff in H as [H H3].
    apply andb_true_iff in H as [H1 H2].
    destruct (a_standard_tpl args) as [[|c1 s1]|]; try discriminate.
    destruct (a_vegan_tpl args) as [[|c2 s2]|]; try discriminate.
    destruct (a_allergens_tpl args) as [[|c3 s3]|]; try discriminate.
    do 3 eexists. repeat split.
  - intros H. unfold resolve_templates. fold explicit. rewrite H.
    fold paths. subst paths. unfold template_paths.
    set (p1 := or_else (a_standard_tpl args) _).
    set (p2 := or_else (a_vegan_tpl args) _).
    set (p3 := or_else (a_allergens_tpl args) _).
    cbn [List.find forallb].
    destruct (isfile p1) eqn:E1; cbn [negb andb].
    2:{ exists [], p1, [p2; p3]. auto. }
    destruct (isfile p2) eqn:E2; cbn [negb andb].
    2:{ exists [p1], p2, [p3]. cbn [forallb]. rewrite E1. auto. }
    destruct (isfile p3) eqn:E3; cbn [negb andb].
    2:{ exists [p1; p2], p3, []. cbn [forallb]. rewrite E1, E2. auto. }
    auto.
Qed.

(** ** Finding the allergens table *)

Lemma scan_rows_some : forall rows r0 r tc cm,
  scan_rows r0 rows = Some (r, tc, cm) ->
  exists above row below,
    rows = above ++ row :: below /\ r = (r0 + length above)%nat
    /\ Forall no_header above
    /\ cm = col_map_of row /\ (6 <= length cm)%nat /\ tc = title_col_of row cm.
Proof.
  induction rows as [|row rows IH]; intros r0 r tc cm H; [discriminate|].
  cbn [scan_rows] in H.
  destruct (6 <=? length (col_map_of row))%nat eqn:E.
  - inversion H; subst. exists [], row, rows.
    apply Nat.leb_le in E. repeat split; auto.
  - apply IH in H as (above & row' & below & -> & -> & Ha & Hc & Hl & Ht).
    exists (row :: above), row', below. cbn [length app].
    apply Nat.leb_gt in E.
    split; [reflexivity|]. split; [lia|]. split; [constructor; assumption|].
    auto.
Qed.

Lemma scan_rows_none : forall rows r0,
  scan_rows r0 rows = None <-> Forall no_header rows.
Proof.
  induction rows as [|row rows IH]; intros r0; cbn [scan_rows].
  - split; [constructor | reflexivity].
  - destruct (6 <=? length (col_map_of row))%nat eqn:E.
    + split; [discriminate|]. intros H. inversion H; subst.
      apply Nat.leb_le in E. unfold no_header in *. lia.
    + rewrite IH. apply Nat.leb_gt in E. split.
      * intros H. constructor; assumption.
      * intros H. now inversion H.
Qed.

Lemma title_col_of_spec row cm :
  let tc := title_col_of row cm in
  ((tc < length row)%nat /\ ~ In tc (map fst cm)
   /\ forall j, (j < tc)%nat -> In j (map fst cm))
  \/ (tc = 0%nat /\ forall j, (j < length row)%nat -> In j (map fst cm)).
Proof.
  unfold title_col_of.
  set (free := fun i => negb (existsb (Nat.eqb i) (map fst cm))).
  assert (Hfree : forall i, free i = false <-> In i (map fst cm)).
  { intros i. unfold free. rewrite negb_false_iff, existsb_exists. split.
    - intros (x & Hx & E). apply Nat.eqb_eq in E. now subst.
    - intros H. exists i. split; [exact H | apply Nat.eqb_refl]. }
  assert (G : forall n k,
    match List.filter free (seq k n) with
    | i :: _ => (k <= i < k + n)%nat /\ free i = true
                /\ forall j, (k <= j < i)%nat -> free j = false
    | [] => forall j, (k <= j < k + n)%nat -> free j = false
    end).
  { induction n as [|n IH]; intros k; cbn [seq List.filter]; [intros; lia|].
    destruct (free k) eqn:E.
    - repeat split; try lia. exact E.
    - specialize (IH (S k)). destruct (List.filter free (seq (S k) n)) as [|i l].
      + intros j Hj. destruct (Nat.eq_dec j k) as [->|]; [exact E|].
        apply IH. lia.
      + destruct IH as (H1 & H2 & H3). repeat split; try lia; [exact H2|].
        intros j Hj. destruct (Nat.eq_dec j k) as [->|]; [exact E|].
        apply H3. lia. }
  specialize (G (length row) 0%nat).
  destruct (List.filter free (seq 0 (length row))) as [|i l].
  - right. split; [reflexivity|]. intros j Hj. apply Hfree, G. lia.
  - left. destruct G as (H1 & H2 & H3). split; [lia|]. split.
    + intros Hin. apply Hfree in Hin. congruence.
    + intros j Hj. apply Hfree, H3. lia.
Qed.

Lemma find_allergen_table_some : forall tables tbl r tc cm,
  _find_allergen_table tables = Some (tbl, r, tc, cm) ->
  exists before after row,
    tables = before ++ tbl :: after
    /\ Forall (fun t => Forall no_header (firstn 12 t)) before
    /\ (r < 12)%nat /\ nth_error tbl r = Some row
    /\ Forall no_header (firstn r tbl)
    /\ cm = col_map_of row /\ (6 <= length cm)%nat /\ tc = title_col_of row cm.
Proof.
  induction tables as [|t tables IH]; intros tbl r tc cm H; [discriminate|].
  cbn [_find_allergen_table] in H.
  destruct (scan_rows 0 (firstn 12 t)) as [[[r' tc'] cm']|] eqn:E.
  - inversion H; subst. clear H.
    apply scan_rows_some in E as (above & row & below & E & -> & Ha & Hc & Hl & Ht).
    exists [], tables, row. cbn [Nat.add].
    assert (Hlen : (length above < 12)%nat).
    { apply (f_equal (@length _)) in E. rewrite length_firstn, length_app in E.
      cbn [length] in E. lia. }
    assert (Htbl : tbl = above ++ row :: below ++ skipn 12 tbl).
    { rewrite <- (firstn_skipn 12 tbl) at 1. rewrite E, <- app_assoc. reflexivity. }
    repeat split; auto.
    + rewrite Htbl, nth_error_app2, Nat.sub_diag by lia. reflexivity.
    + rewrite Htbl, firstn_app, Nat.sub_diag, firstn_all. cbn [firstn].
      now rewrite app_nil_r.
  - apply IH in H as (before & after & row & -> & Hb & Hr & Hn & Hf & Hc & Hl & Ht).
    exists (t :: before), after, row. repeat split; auto.
    constructor; [|exact Hb]. now apply (scan_rows_none _ 0%nat).
Qed.

Lemma find_allergen_table_none tables :
  _find_allergen_table tables = None <->
  Forall (fun t => Forall no_header (firstn 12 t)) tables.
Proof.
  induction tables as [|t tables IH]; cbn [_find_allergen_table].
  - split; [constructor | reflexivity].
  - destruct (scan_rows 0 (firstn 12 t)) as [[[r' tc'] cm']|] eqn:E.
    + split; [discriminate|]. intros H. inversion H; subst.
      apply (scan_rows_none _ 0%nat) in H2. congruence.
    + rewrite IH. split.
      * intros H. constructor; [now apply (scan_rows_none _ 0%nat) | exact H].
      * intros H. now inversion H.
Qed.

(** ** Filling the allergens table *)

Lemma set_cell_ok cells i c :
  (i < length cells)%nat -> set_cell cells i c = inr (<[i := c]> cells).
Proof. intros H. unfold set_cell. apply Nat.ltb_lt in H. now rewrite H. Qed.

Lemma tick_cells_spec cols : forall col_map cells,
  Forall (fun c_idx => (c_idx < length cells)%nat) (map fst col_map) ->
  exists cells',
    tick_cells cells col_map cols = inr cells'
    /\ length cells' = length cells
    /\ forall c, cells' !! c
                 = if existsb (fun '(c_idx, name) =>
                                 (c_idx =? c)%nat && bool_decide (name ∈ cols)) col_map
                   then (if (c <? length cells)%nat then Some Tick else None)
                   else cells !! c.
Proof.
  induction col_map as [|[k name] col_map IH]; intros cells H.
  - exists cells. cbn [tick_cells existsb]. auto.
  - cbn [map fst] in H. inversion H as [|? ? Hk Hrest]; subst.
    cbn [tick_cells existsb].
    destruct (bool_decide (name ∈ cols)) eqn:E.
    + rewrite set_cell_ok by exact Hk. cbn [bind].
      destruct (IH (<[k := Tick]> cells)) as (cells' & Ht & Hl & Hc).
      { now rewrite length_insert. }
      exists cells'. rewrite length_insert in Hl. split; [exact Ht|].
      split; [exact Hl|]. intros c. rewrite Hc, length_insert.
      destruct (existsb _ col_map); [now rewrite orb_true_r|].
      rewrite orb_false_r, andb_true_r.
      destruct (Nat.eqb_spec k c) as [->|Hne].
      * rewrite list_lookup_insert_eq by exact Hk.
        apply Nat.ltb_lt in Hk. now rewrite Hk.
      * now rewrite list_lookup_insert_ne.
    + cbn [bind]. destruct (IH cells Hrest) as (cells' & Ht & Hl & Hc).
      exists cells'. split; [exact Ht|]. split; [exact Hl|].
      intros c. rewrite Hc. now rewrite andb_false_r.
Qed.

Lemma lookup_blank (cells : list content) c :
  map (fun _ => Blank) cells !! c
  = if (c <? length cells)%nat then Some Blank else None.
Proof.
  rewrite list_lookup_fmap.
  destruct (Nat.ltb_spec c (length cells)) as [H|H].
  - destruct (lookup_lt_is_Some_2 cells c H) as (x & ->). reflexivity.
  - now rewrite lookup_ge_None_2.
Qed.

Lemma write_row_spec title_col col_map item cells :
  wide_enough title_col col_map cells ->
  ~ In title_col (map fst col_map) ->
  exists cells',
    write_row cells title_col col_map item = inr cells'
    /\ length cells' = length cells
    /\ forall c, (c < length cells)%nat ->
                 cells' !! c = Some (cell_after title_col col_map item c).
Proof.
  intros [Ht Hw] Hn. unfold write_row.
  set (blank := map (fun _ => Blank) cells).
  assert (Hlb : length blank = length cells) by apply length_map.
  destruct item as [[[title cols] is_heading]|].
  2:{ exists blank. split; [reflexivity|]. split; [exact Hlb|].
      intros c Hc. unfold blank. rewrite lookup_blank.
      apply Nat.ltb_lt in Hc. now rewrite Hc. }
  assert (Hset : forall x c, (c < length cells)%nat ->
            <[title_col := x]> blank !! c
            = Some (if (c =? title_col)%nat then x else Blank)).
  { intros x c Hc. destruct (Nat.eqb_spec c title_col) as [->|Hne].
    - apply list_lookup_insert_eq. lia.
    - rewrite list_lookup_insert_ne by congruence. unfold blank.
      rewrite lookup_blank. apply Nat.ltb_lt in Hc. now rewrite Hc. }
  destruct is_heading.
  - rewrite set_cell_ok by lia. eexists. split; [reflexivity|].
    split; [now rewrite length_insert|].
    intros c Hc. rewrite Hset by exact Hc. unfold cell_after. cbn [negb andb].
    now destruct (c =? title_col)%nat.
  - rewrite set_cell_ok by lia. cbn [bind].
    destruct (tick_cells_spec cols col_map (<[title_col := Label title false false]> blank))
      as (cells' & Hr & Hl & Hc).
    { rewrite length_insert, Hlb. exact Hw. }
    exists cells'. split; [exact Hr|].
    rewrite length_insert, Hlb in Hl. split; [exact Hl|].
    intros c Hlt. rewrite Hc, length_insert, Hlb, Hset by exact Hlt.
    unfold cell_after. cbn [negb andb].
    destruct (Nat.eqb_spec c title_col) as [->|Hne].
    + assert (E : existsb (fun '(c_idx, name) =>
                    (c_idx =? title_col)%nat && bool_decide (name ∈ cols)) col_map
                  = false).
      { apply not_true_is_false. intros F. apply existsb_exists in F as ([k nm] & Hin & F).
        apply andb_true_iff in F as [F _]. apply Nat.eqb_eq in F. subst k.
        apply Hn. apply in_map_iff. exists (title_col, nm). auto. }
      now rewrite E.
    + apply Nat.ltb_lt in Hlt. rewrite Hlt.
      now destruct (existsb _ col_map).
Qed.

Lemma write_rows_spec title_col col_map rows : forall data_rows i,
  Forall (wide_enough title_col col_map) data_rows ->
  ~ In title_col (map fst col_map) ->
  exists body,
    write_rows i data_rows title_col col_map rows = inr body
    /\ length body = length data_rows
    /\ forall k cells, data_rows !! k = Some cells ->
         exists cells', body !! k = Some cells'
           /\ length cells' = length cells
           /\ forall c, (c < length cells)%nat ->
                cells' !! c
                = Some (cell_after title_col col_map (rows !! (i + k)%nat) c).
Proof.
  induction data_rows as [|r rest IH]; intros i Hw Hn.
  - exists []. repeat split. intros k cells H. discriminate.
  - inversion Hw as [|? ? Hr Hrest]; subst. cbn [write_rows].
    destruct (write_row_spec title_col col_map (rows !! i) r Hr Hn)
      as (r' & E & Hl & Hc).
    rewrite E. cbn [bind].
    destruct (IH (S i) Hrest Hn) as (body & E' & Hl' & Hc').
    rewrite E'. cbn [bind ret]. exists (r' :: body).
    split; [reflexivity|]. split; [cbn [length]; now rewrite Hl'|].
    intros [|k] cells Hk.
    + cbn in Hk. injection Hk as <-. exists r'. rewrite Nat.add_0_r. auto.
    + cbn in Hk. destruct (Hc' k cells Hk) as (cells' & H1 & H2 & H3).
      exists cells'. replace (i + S k)%nat with (S i + k)%nat by lia. auto.
Qed.

Lemma fill_table_spec tbl header_row_idx title_col col_map rows :
  Forall (wide_enough title_col col_map) (skipn (header_row_idx + 1) tbl) ->
  ~ In title_col (map fst col_map) ->
  exists sheet,
    fill_table tbl header_row_idx title_col col_map rows = inr sheet
    /\ length sheet = length tbl
    /\ firstn (header_row_idx + 1) sheet = firstn (header_row_idx + 1) tbl
    /\ forall i cells,
         tbl !! (header_row_idx + 1 + i)%nat = Some cells ->
         exists cells',
           sheet !! (header_row_idx + 1 + i)%nat = Some cells'
           /\ length cells' = length cells
           /\ forall c, (c < length cells)%nat ->
                cells' !! c = Some (cell_after title_col col_map (rows !! i) c).
Proof.
  intros Hw Hn. unfold fill_table.
  set (start := (header_row_idx + 1)%nat) in *.
  destruct (write_rows_spec title_col col_map rows (skipn start tbl) 0 Hw Hn)
    as (body & E & Hl & Hc).
  rewrite E. cbn [bind ret]. eexists. split; [reflexivity|].
  assert (Hlen : length (firstn start tbl ++ body) = length tbl).
  { rewrite length_app, Hl, length_firstn, length_skipn. lia. }
  split; [exact Hlen|]. split.
  - rewrite firstn_app, firstn_firstn, Nat.min_id.
    rewrite length_firstn.
    destruct (Nat.le_gt_cases start (length tbl)) as [H|H].
    + rewrite Nat.min_l by lia. rewrite Nat.sub_diag. cbn [firstn].
      apply app_nil_r.
    + assert (Hb : body = []).
      { destruct body; [reflexivity|]. cbn [length] in Hl.
        rewrite length_skipn in Hl. lia. }
      rewrite Hb. now rewrite firstn_nil, app_nil_r.
  - intros i cells Hi.
    assert (Hs : (start <= length tbl)%nat).
    { apply lookup_lt_Some in Hi. lia. }
    assert (Hi' : skipn start tbl !! i = Some cells).
    { rewrite <- Hi. apply lookup_drop. }
    destruct (Hc i cells Hi') as (cells' & H1 & H2 & H3).
    exists cells'. split; [|auto].
    rewrite lookup_app_r by (rewrite length_firstn; lia).
    rewrite length_firstn, Nat.min_l by lia.
    replace (start + i - start)%nat with i by lia. exact H1.
Qed.

(* ------------------------------------------------------------------ *)
(** ** Properties of the allergen lists *)

(** X1. [_parse_allergen_csv] treats the comma and the slash alike, as
    separators: the columns of two lists joined by either are the union of
    the columns of the two lists.  Order and repetition of the entries of a
    list therefore do not matter. *)
Theorem X1_parse_allergen_csv_union (a b : pystr) :
  _parse_allergen_csv (a ++ py "," ++ b)
  = _parse_allergen_csv a ∪ _parse_allergen_csv b
  /\ _parse_allergen_csv (a ++ py "/" ++ b)
     = _parse_allergen_csv a ∪ _parse_allergen_csv b.
Proof.
  split.
  - change (py "," ++ b) with (COMMA :: b). apply parse_app. now left.
  - change (py "/" ++ b) with (SLASH :: b). apply parse_app. now right.
Qed.

(** X2. Every column that [_parse_allergen_csv] returns is one of the sixteen
    columns of [CANON_COLS], and a header cell that holds the name of that
    column is recognised by [_canon_from_header] as that column: an allergen
    read from the menu can be ticked on a sheet whose headers are the
    canonical names. *)
Theorem X2_parsed_columns_canonical (csv_text c : pystr) :
  c ∈ _parse_allergen_csv csv_text ->
  c ∈ CANON_COLS /\ _canon_from_header c = Some c.
Proof. apply parse_canonical. Qed.

Lemma X2_parsed_columns_canonical_witness :
  py "Eggs" ∈ _parse_allergen_csv (py "milk / EGG, kiwi")
  /\ py "Eggs" ∈ CANON_COLS /\ _canon_from_header (py "Eggs") = Some (py "Eggs").
Proof.
  assert (H : py "Eggs" ∈ _parse_allergen_csv (py "milk / EGG, kiwi"))
    by (apply (bool_decide_unpack _); vm_compute; exact I).
  split; [exact H|].
  exact (X2_parsed_columns_canonical (py "milk / EGG, kiwi") (py "Eggs") H).
Defined.

(** X3. The two ways of making a list vegan agree: the columns of the text
    that [_remove_tokens_from_csv] returns are the columns that
    [_scrub_vegan_csv_to_canonset] returns for the original text.  What the
    vegan menu prints and what the allergens sheet ticks stay in step. *)
Theorem X3_scrubbers_agree (csv_text : pystr) :
  _parse_allergen_csv (_remove_tokens_from_csv csv_text)
  = _scrub_vegan_csv_to_canonset csv_text.
Proof. apply parse_remove. Qed.


(* ------------------------------------------------------------------ *)
(** ** Properties of the vegan context *)

(** X5. Whenever [build_vegan_context] returns, no allergens field of the
    vegan context holds a milk, egg or eggs token, and none resolves to the
    Milk or Eggs column. *)
Theorem X5_vegan_context_without_milk_eggs (day : Day) (veg : VegContext) :
  build_vegan_context day = inr veg ->
  Forall (fun a => Forall (fun t => lower t ∉ FORBIDDEN) (csv_tokens a)
                   /\ _parse_allergen_csv a ## NON_VEGAN_CANON)
         (veg_allergen_fields veg).
Proof. intros H. now apply (vegan_context_fields day veg). Qed.

(** X6. Whenever [build_vegan_context] returns, the title of every dish of
    the vegan menu ends in "(Ve)": the first lunch starter, the two mains,
    the desserts, the supper starter, the sandwich selection and the supper
    special. *)
Theorem X6_vegan_titles_tagged (day : Day) (veg : VegContext) :
  build_vegan_context day = inr veg ->
  Forall (fun t => exists pre, t = pre ++ py "(Ve)") (veg_dish_titles veg).
Proof. intros H. now apply (vegan_context_fields day veg). Qed.

(** X7. [add_suffix] with "(Ve)" is idempotent; its result is trimmed and
    ends in "(Ve)", whatever the title was. *)
Theorem X7_add_suffix_idempotent (s : pystr) :
  add_suffix (add_suffix s (py "(Ve)")) (py "(Ve)") = add_suffix s (py "(Ve)")
  /\ strip (add_suffix s (py "(Ve)")) = add_suffix s (py "(Ve)")
  /\ exists pre, add_suffix s (py "(Ve)") = pre ++ py "(Ve)".
Proof.
  split; [apply add_suffix_idem|].
  split; [apply add_suffix_Ve_fix | apply add_suffix_ends].
Qed.

Lemma X5_vegan_context_without_milk_eggs_witness :
  exists veg,
    build_vegan_context (daily week1 0) = inr veg
    /\ allergens (nth 0 (starters (lunch (source (daily week1 0)))) EMPTY_ITEM)
       = py "Milk, Celery"
    /\ map allergens (vl_starters (veg_lunch veg)) = [py "Celery"; []]
    /\ Forall (fun a => Forall (fun t => lower t ∉ FORBIDDEN) (csv_tokens a)
                        /\ _parse_allergen_csv a ## NON_VEGAN_CANON)
              (veg_allergen_fields veg).
Proof.
  destruct (build_vegan_context (daily week1 0)) as [e|veg] eqn:E;
    [vm_compute in E; discriminate|].
  exists veg. split; [reflexivity|]. split; [vm_compute; reflexivity|].
  split.
  - assert (E' : inr veg = build_vegan_context (daily week1 0)) by (now rewrite E).
    vm_compute in E'. injection E' as ->. vm_compute. reflexivity.
  - exact (X5_vegan_context_without_milk_eggs (daily week1 0) veg E).
Defined.

Lemma X6_vegan_titles_tagged_witness :
  exists veg,
    build_vegan_context (daily week1 0) = inr veg
    /\ veg_dish_titles veg
       = map py ["Leek and potato soup (Ve)"; "Jacket potato and toppings (Ve)";
                 "Bean stew (Ve)"; "Rice pudding (Ve)";
                 "Selection of vegan ice creams or sorbet with seasonal fruits (Ve)";
                 "Chef’s choice soup (Ve)"; "Henbrook’s assorted sandwiches (Ve)";
                 "Falafel wrap (Ve)"; "Fruit salad (Ve)";
                 "Selection of vegan ice creams or sorbet with seasonal fruits (Ve)"]%string
    /\ Forall (fun t => exists pre, t = pre ++ py "(Ve)") (veg_dish_titles veg).
Proof.
  destruct (build_vegan_context (daily week1 0)) as [e|veg] eqn:E;
    [vm_compute in E; discriminate|].
  exists veg. split; [reflexivity|]. split.
  - assert (E' : inr veg = build_vegan_context (daily week1 0)) by (now rewrite E).
    vm_compute in E'. injection E' as ->. vm_compute. reflexivity.
  - exact (X6_vegan_titles_tagged (daily week1 0) veg E).
Defined.

(* ------------------------------------------------------------------ *)
(** ** Properties of the allergens table *)

Lemma std_rows_data day : Forall data_row (flat_map row_of (std_entries day)).
Proof.
  apply Forall_flat_map_row_of. intros e He r Hr.
  eapply row_of_data_row; eauto. eapply std_entries_plain; eauto.
Qed.

Lemma veg_rows_data day : Forall data_row (flat_map row_of (veg_entries day)).
Proof.
  apply Forall_flat_map_row_of. intros e He r Hr.
  eapply row_of_data_row; eauto. eapply veg_entries_plain; eauto.
Qed.

(** X8. For a day with two starters and two desserts at each meal, none of
    its lunch starters a chef's choice soup, the rows of the allergens table
    are: the heading "— Standard —", three to nine rows, the heading
    "— Vegan —", seven or eight rows.  No other row is a heading, and the
    label of every other row is trimmed and not empty. *)
Theorem X8_table_shape (day : Day) :
  wf_day day -> plain_starters day ->
  exists std veg std_rows veg_rows,
    day_artifacts day
    = inr (std, veg,
           [(py "— Standard —", ∅, true)] ++ std_rows
           ++ [(py "— Vegan —", ∅, true)] ++ veg_rows)
    /\ (3 <= length std_rows <= 9)%nat
    /\ (7 <= length veg_rows <= 8)%nat
    /\ Forall (fun r => row_is_heading r = false /\ (row_label r <> [])
                        /\ strip (row_label r) = row_label r)
              (std_rows ++ veg_rows).
Proof.
  intros Hwf _.
  destruct (day_artifacts_rows day Hwf) as (std & veg & _ & _ & E).
  exists std, veg, (flat_map row_of (std_entries day)),
    (flat_map row_of (veg_entries day)).
  split; [rewrite E, table_rows_split; reflexivity|].
  split; [now apply std_rows_len|]. split; [apply veg_rows_len|].
  apply Forall_app. split; [apply std_rows_data | apply veg_rows_data].
Qed.

(** X9. For such a day, no row below the heading "— Vegan —" is a heading
    and none ticks the Milk or the Eggs column. *)
Theorem X9_vegan_rows_without_milk_eggs (day : Day) :
  wf_day day -> plain_starters day ->
  exists std veg std_rows veg_rows,
    day_artifacts day
    = inr (std, veg, std_rows ++ [(py "— Vegan —", ∅, true)] ++ veg_rows)
    /\ Forall (fun r => row_is_heading r = false
                        /\ (py "Milk" ∉ row_cols r) /\ (py "Eggs" ∉ row_cols r))
              veg_rows.
Proof.
  intros Hwf _.
  destruct (day_artifacts_rows day Hwf) as (std & veg & _ & _ & E).
  exists std, veg, ([STANDARD_HEADING] ++ flat_map row_of (std_entries day)),
    (flat_map row_of (veg_entries day)).
  split; [rewrite E, table_rows_split, <- app_assoc; reflexivity|].
  apply Forall_flat_map_row_of. intros e He r Hr.
  pose proof (veg_entries_plain day e He) as Hp.
  split; [now apply (row_of_data_row e r Hp Hr)|].
  rewrite row_of_data in Hr by exact Hp.
  destruct (nonempty _); [|destruct Hr]. destruct Hr as [<-|[]].
  unfold row_cols. cbn [fst snd].
  assert (Hd : cols_of (e_arg e) (e_force e) ## NON_VEGAN_CANON).
  { destruct (veg_entries_cols day e He) as [(a & ->)|[-> | ->]];
      [apply scrub_disjoint | apply jacket_disjoint | apply fixed_disjoint]. }
  split; intros Hin; apply (Hd _ Hin);
    apply (bool_decide_unpack _); vm_compute; exact I.
Qed.

(** X10. For such a day, every column ticked in a row of the allergens table
    is one of the sixteen columns of [CANON_COLS], and is the column that
    [_canon_from_header] recognises in a header cell holding its name. *)
Theorem X10_ticks_canonical (day : Day) :
  wf_day day -> plain_starters day ->
  exists std veg rows,
    day_artifacts day = inr (std, veg, rows)
    /\ Forall (fun r => forall c, c ∈ row_cols r ->
                 c ∈ CANON_COLS /\ _canon_from_header c = Some c) rows.
Proof.
  intros Hwf _.
  destruct (day_artifacts_rows day Hwf) as (std & veg & _ & _ & E).
  exists std, veg, (flat_map row_of (table_entries day)).
  split; [exact E|]. rewrite table_rows_split.
  assert (Hh : forall t, canonical_cols (row_cols (t, ∅, true)))
    by (intros t; apply empty_canonical).
  apply Forall_app. split; [constructor; [apply Hh | constructor]|].
  apply Forall_app. split.
  - apply Forall_flat_map_row_of. intros e He r Hr.
    rewrite row_of_data in Hr by (eapply std_entries_plain; eauto).
    destruct (nonempty _); [|destruct Hr]. destruct Hr as [<-|[]].
    unfold row_cols. cbn [fst snd].
    destruct (std_entries_cols day e He) as (a & ->). apply parse_canonical.
  - apply Forall_app. split; [constructor; [apply Hh | constructor]|].
    apply Forall_flat_map_row_of. intros e He r Hr.
    rewrite row_of_data in Hr by (eapply veg_entries_plain; eauto).
    destruct (nonempty _); [|destruct Hr]. destruct Hr as [<-|[]].
    unfold row_cols. cbn [fst snd].
    destruct (veg_entries_cols day e He) as [(a & ->)|[-> | ->]];
      [apply scrub_canonical | apply jacket_canonical | apply fixed_canonical].
Qed.

Lemma week1_wf : wf_day (daily week1 0).
Proof. repeat split. Qed.

Lemma week1_plain : plain_starters (daily week1 0).
Proof. repeat constructor. Qed.

Lemma X8_table_shape_witness :
  wf_day (daily week1 0) /\ plain_starters (daily week1 0)
  /\ exists std veg std_rows veg_rows,
    day_artifacts (daily week1 0)
    = inr (std, veg,
           [(py "— Standard —", ∅, true)] ++ std_rows
           ++ [(py "— Vegan —", ∅, true)] ++ veg_rows)
    /\ (3 <= length std_rows <= 9)%nat
    /\ (7 <= length veg_rows <= 8)%nat
    /\ Forall (fun r => row_is_heading r = false /\ (row_label r <> [])
                        /\ strip (row_label r) = row_label r)
              (std_rows ++ veg_rows).
Proof.
  split; [exact week1_wf|]. split; [exact week1_plain|].
  exact (X8_table_shape (daily week1 0) week1_wf week1_plain).
Defined.

Lemma X9_vegan_rows_without_milk_eggs_witness :
  wf_day (daily week1 0) /\ plain_starters (daily week1 0)
  /\ py "Milk" ∈ _parse_allergen_csv
                   (c_allergens (vegan_main (lunch (source (daily week1 0)))))
  /\ exists std veg std_rows veg_rows,
    day_artifacts (daily week1 0)
    = inr (std, veg, std_rows ++ [(py "— Vegan —", ∅, true)] ++ veg_rows)
    /\ Forall (fun r => row_is_heading r = false
                        /\ (py "Milk" ∉ row_cols r) /\ (py "Eggs" ∉ row_cols r))
              veg_rows.
Proof.
  split; [exact week1_wf|]. split; [exact week1_plain|].
  split; [apply (bool_decide_unpack _); vm_compute; exact I|].
  exact (X9_vegan_rows_without_milk_eggs (daily week1 0) week1_wf week1_plain).
Defined.

Lemma X10_ticks_canonical_witness :
  wf_day (daily week1 0) /\ plain_starters (daily week1 0)
  /\ exists std veg rows,
    day_artifacts (daily week1 0) = inr (std, veg, rows)
    /\ Forall (fun r => forall c, c ∈ row_cols r ->
                 c ∈ CANON_COLS /\ _canon_from_header c = Some c) rows.
Proof.
  split; [exact week1_wf|]. split; [exact week1_plain|].
  exact (X10_ticks_canonical (daily week1 0) week1_wf week1_plain).
Defined.

Lemma daily_wf rows i : wf_day (daily rows i).
Proof. repeat split. Qed.

Lemma std_supper_starter day std :
  build_standard_context day = inr std ->
  t_allergens (ss_starter (std_supper std))
  = allergens (nth 0 (starters (lunch (source day))) EMPTY_ITEM).
Proof.
  unfold build_standard_context.
  destruct (idx (desserts (lunch (source day))) 0); cbn [bind]; [discriminate|].
  destruct (idx (desserts (lunch (source day))) 1); cbn [bind]; [discriminate|].
  unfold idx at 1.
  destruct (starters (lunch (source day))) as [|st0 sts] eqn:Es;
    cbn [nth_error bind ret]; [discriminate|].
  destruct (idx (s_desserts (supper (source day))) 0); cbn [bind]; [discriminate|].
  destruct (idx (s_desserts (supper (source day))) 1); cbn [bind]; [discriminate|].
  destruct (idx _ 0); cbn [bind]; [discriminate|].
  destruct (idx _ 1); cbn [bind]; [discriminate|].
  intros H. inversion H. reflexivity.
Qed.

Lemma veg_supper_starter day veg :
  wf_day day ->
  build_vegan_context day = inr veg ->
  t_allergens (vs_starter (veg_supper veg))
  = _remove_tokens_from_csv
      (allergens (nth 0 (starters (lunch (source day))) EMPTY_ITEM)).
Proof.
  intros Hwf.
  destruct (wf_day_inv day Hwf) as (s0 & s1 & d0 & d1 & sd0 & sd1 & E1 & E2 & E3).
  unfold build_vegan_context. rewrite E1, E2, E3.
  cbn [idx nth_error bind ret ensure_len length Nat.sub repeat app firstn nth].
  destruct (recover_title _ _). destruct (recover_title _ _).
  intros H. inversion H. reflexivity.
Qed.

(** X11. The supper soup takes its allergens from two rows of the grid.  For
    a parsed day without a chef's choice soup among its lunch starters, both
    menus print for the supper soup the allergens of the first lunch starter
    (grid row 3; the vegan menu without milk and egg), while the allergens
    table ticks, for "Chef’s choice soup (V)" and for
    "Chef’s choice soup (Ve)", the allergens of the supper starter
    (grid row 12). *)
Theorem X11_supper_soup_sources (rows : Grid) (i : nat) :
  plain_starters (daily rows i) ->
  exists std veg table,
    day_artifacts (daily rows i) = inr (std, veg, table)
    /\ t_allergens (ss_starter (std_supper std)) = c_allergens (g rows i 3)
    /\ t_allergens (vs_starter (veg_supper veg))
       = _remove_tokens_from_csv (c_allergens (g rows i 3))
    /\ In (py "Chef’s choice soup (V)",
           _parse_allergen_csv (c_allergens (g rows i 12)), false) table
    /\ In (py "Chef’s choice soup (Ve)",
           _scrub_vegan_csv_to_canonset (c_allergens (g rows i 12)), false) table.
Proof.
  intros _. pose proof (daily_wf rows i) as Hwf.
  destruct (day_artifacts_rows _ Hwf) as (std & veg & Es & Ev & E).
  exists std, veg, (flat_map row_of (table_entries (daily rows i))).
  split; [exact E|].
  split; [rewrite (std_supper_starter _ _ Es); reflexivity|].
  split; [rewrite (veg_supper_starter _ _ Hwf Ev); reflexivity|].
  rewrite table_rows_split. split.
  - apply in_or_app. right. apply in_or_app. left.
    apply in_flat_map.
    exists (plain_entry (py "Chef’s choice soup (V)")
              (allergens (starter (supper (source (daily rows i)))))).
    split.
    + unfold std_entries. apply in_or_app. right. cbn [In]. tauto.
    + rewrite row_of_data by reflexivity.
      replace (nonempty (strip (e_title (plain_entry (py "Chef’s choice soup (V)")
                 (allergens (starter (supper (source (daily rows i)))))))))
        with true by (vm_compute; reflexivity).
      left. cbn [e_title plain_entry e_arg e_force cols_of].
      replace (strip (py "Chef’s choice soup (V)")) with (py "Chef’s choice soup (V)")
        by (vm_compute; reflexivity).
      reflexivity.
  - apply in_or_app. right. apply in_or_app. right.
    apply in_or_app. right. apply in_flat_map.
    exists (soup_entry (daily rows i)). split.
    + unfold veg_entries. cbn [In]. tauto.
    + rewrite row_of_soup. left. reflexivity.
Qed.

Lemma X11_supper_soup_sources_witness :
  plain_starters (daily week1 0)
  /\ exists std veg table,
    day_artifacts (daily week1 0) = inr (std, veg, table)
    /\ t_allergens (ss_starter (std_supper std)) = py "Milk, Celery"
    /\ t_allergens (vs_starter (veg_supper veg)) = py "Celery"
    /\ In (py "Chef’s choice soup (V)", {[ py "Celery"; py "Mustards" ]}, false)
          table
    /\ In (py "Chef’s choice soup (Ve)", {[ py "Celery"; py "Mustards" ]}, false)
          table.
Proof.
  split; [exact week1_plain|].
  destruct (X11_supper_soup_sources week1 0 week1_plain)
    as (std & veg & table & E & H1 & H2 & H3 & H4).
  exists std, veg, table. split; [exact E|].
  assert (E3 : c_allergens (g week1 0 3) = py "Milk, Celery")
    by (vm_compute; reflexivity).
  assert (E12 : c_allergens (g week1 0 12) = py "Celery, Mustard")
    by (vm_compute; reflexivity).
  rewrite E3 in H1, H2. rewrite E12 in H3, H4.
  split; [exact H1|]. split; [rewrite H2; vm_compute; reflexivity|].
  replace ({[ py "Celery"; py "Mustards" ]} : gset pystr)
    with (_parse_allergen_csv (py "Celery, Mustard")) by (vm_compute; reflexivity).
  split; [exact H3|].
  replace (_parse_allergen_csv (py "Celery, Mustard"))
    with (_scrub_vegan_csv_to_canonset (py "Celery, Mustard"))
    by (vm_compute; reflexivity).
  exact H4.
Defined.

(* ------------------------------------------------------------------ *)
(** ** Properties of the dates *)

(** X12. [to_iso] is idempotent: a date it has brought to the ISO form is
    read as the same date again, and text it could not read is returned
    trimmed, and then unchanged. *)
Theorem X12_to_iso_idempotent (date_str : pystr) :
  to_iso (to_iso date_str) = to_iso date_str.
Proof. apply to_iso_idem. Qed.

(** X13. For every calendar date of the years 1 to 9999: the ISO form and
    the form day/month/year with two, two and four digits are both read by
    [to_iso] as that date, and [fromisoformat] reads the ISO form back. *)
Theorem X13_date_round_trip (d : date) :
  make_date (year d) (month d) (day d) = Some d ->
  to_iso (isoformat d) = isoformat d
  /\ to_iso (pad2 (day d) ++ py "/" ++ pad2 (month d) ++ py "/" ++ pad4 (year d))
     = isoformat d
  /\ fromisoformat (isoformat d) = Some d.
Proof.
  intros H. split; [now apply to_iso_isoformat|].
  split; [now apply to_iso_strftime_dmy | now apply strptime_iso].
Qed.

Lemma X13_date_round_trip_witness :
  make_date 2024 2 29 = Some {| year := 2024; month := 2; day := 29 |}
  /\ to_iso (py "2024-02-29") = py "2024-02-29"
  /\ to_iso (py "29/02/2024") = py "2024-02-29"
  /\ fromisoformat (py "2024-02-29") = Some {| year := 2024; month := 2; day := 29 |}.
Proof.
  assert (H : make_date 2024 2 29 = Some {| year := 2024; month := 2; day := 29 |})
    by reflexivity.
  split; [exact H|].
  exact (X13_date_round_trip {| year := 2024; month := 2; day := 29 |} H).
Defined.

(** X14. The header of a parsed day whose date cell is read as a date of
    the year 1000 or later, in any of the three formats: [date_iso] is the
    ISO form of that date and the label is the weekday name, " – " and the
    date as day/month/year with two, two and four digits. *)
Theorem X14_header_of_dated_day (rows : Grid) (i : nat) (d : date) :
  first_parse (strip (cell rows 1 (i + 1))) DATE_FORMATS = Some d ->
  1000 <= year d ->
  date_iso (header (daily rows i)) = isoformat d
  /\ date_ (header (daily rows i))
     = weekday (header (daily rows i)) ++ py " – " ++ strftime_dmy d.
Proof.
  intros H _. cbn [daily header date_iso date_ weekday].
  assert (E : to_iso (strip (cell rows 1 (i + 1))) = isoformat d).
  { unfold to_iso, strip. rewrite strip_by_idem. fold (strip (cell rows 1 (i + 1))).
    now rewrite H. }
  rewrite E. split; [reflexivity|].
  apply date_label_isoformat. eapply first_parse_valid; eauto.
Qed.

Lemma X14_header_of_dated_day_witness :
  first_parse (strip (cell week1 1 (0 + 1))) DATE_FORMATS
  = Some {| year := 2025; month := 9; day := 18 |}
  /\ 1000 <= 2025
  /\ date_iso (header (daily week1 0)) = py "2025-09-18"
  /\ date_ (header (daily week1 0)) = py "thursday – 18/09/2025".
Proof.
  assert (H : first_parse (strip (cell week1 1 (0 + 1))) DATE_FORMATS
              = Some {| year := 2025; month := 9; day := 18 |})
    by (vm_compute; reflexivity).
  assert (Hy : 1000 <= year {| year := 2025; month := 9; day := 18 |})
    by (cbn; lia).
  split; [exact H|]. split; [lia|].
  exact (X14_header_of_dated_day week1 0 _ H Hy).
Defined.

(* ------------------------------------------------------------------ *)
(** ** Properties of the text functions *)

(** X15. Whatever a grid cell holds, the three fields that
    [parse_title_desc_allergens] returns are on one line each: none holds a
    line feed or a carriage return.  Title and description are trimmed. *)
Theorem X15_cell_fields_one_line (cell_text : pystr) :
  let c := parse_title_desc_allergens cell_text in
  (forall x, In x (c_title c ++ c_description c ++ c_allergens c) ->
             x <> chr_of "\n" /\ x <> chr_of "\r")
  /\ strip (c_title c) = c_title c
  /\ strip (c_description c) = c_description c.
Proof.
  destruct (parse_cell_one_line cell_text) as (H1 & H2 & H3 & H4 & H5).
  split; [|split; assumption].
  intros x Hx. apply in_app_or in Hx as [Hx|Hx]; [now apply H1|].
  apply in_app_or in Hx as [Hx|Hx]; [now apply H2 | now apply H3].
Qed.

(** X16. A cell that holds white space only, or nothing, is parsed to three
    empty fields. *)
Theorem X16_blank_cell (cell_text : pystr) :
  forallb isspace cell_text = true ->
  parse_title_desc_allergens cell_text
  = {| c_title := []; c_description := []; c_allergens := [] |}.
Proof. apply parse_blank. Qed.

Lemma X16_blank_cell_witness :
  forallb isspace (py " \r\n\t ") = true
  /\ parse_title_desc_allergens (py " \r\n\t ")
     = {| c_title := []; c_description := []; c_allergens := [] |}.
Proof.
  assert (H : forallb isspace (py " \r\n\t ") = true) by reflexivity.
  split; [exact H|]. exact (X16_blank_cell (py " \r\n\t ") H).
Defined.

(** X17. Every day of a parsed week has a weekday name that is trimmed and
    not empty: the trimmed text of its cell in the first row or, where that
    is empty, the English name of the day of its column. *)
Theorem X17_weekday_never_blank (rows : Grid) (i : nat) :
  (i < 7)%nat ->
  let name := strip (cell rows 0 (i + 1)) in
  weekday (header (daily rows i))
  = (if nonempty name then name else nth i WEEKDAYS [])
  /\ weekday (header (daily rows i)) <> []
  /\ strip (weekday (header (daily rows i))) = weekday (header (daily rows i)).
Proof. apply weekday_nonblank. Qed.

Lemma X17_weekday_never_blank_witness :
  (0 < 7)%nat
  /\ weekday (header (daily week1 0)) = py "thursday"
  /\ weekday (header (daily [] 0)) = py "Monday".
Proof.
  split; [lia|].
  destruct (X17_weekday_never_blank week1 0 ltac:(lia)) as (H & _).
  destruct (X17_weekday_never_blank [] 0 ltac:(lia)) as (H' & _).
  split; [rewrite H | rewrite H']; reflexivity.
Defined.

(** X18. On text of the Basic Latin block (the dash and the bullet that the
    function trims included), the result of [normalise_sides] is a list of
    items joined by ", ".  The items are made of characters of the text, no
    two of them are equal up to letter case, and none holds a comma, a
    slash, a tab, a line feed or a carriage return; for the empty text the
    list is empty. *)
Theorem X18_normalise_sides_items (text : pystr) :
  latin_or_bullet text ->
  exists items,
    normalise_sides text = join (py ", ") items
    /\ Forall latin_or_bullet items
    /\ NoDup (map lower items)
    /\ (forall p x, In p items -> In x p ->
         In x text
         /\ ~ In x [chr_of ","; chr_of "/"; chr_of "\t"; chr_of "\n"; chr_of "\r"])
    /\ (text = [] -> items = []).
Proof.
  intros Ht.
  destruct (normalise_sides_items text) as (items & H1 & H0 & H2 & H3).
  exists items. split; [exact H1|].
  split.
  { apply List.Forall_forall. intros p Hp. apply List.Forall_forall. intros x Hx.
    destruct (H3 p x Hp Hx) as [_ Hin].
    exact (proj1 (List.Forall_forall _ _) Ht x Hin). }
  split; [exact H2|]. split; [|exact H0].
  intros p x Hp Hx. destruct (H3 p x Hp Hx) as [Hs Hin]. split; [exact Hin|].
  intros Hsep. apply Hs. unfold side_separator.
  cbn [In] in Hsep. intuition (subst; auto).
Qed.

Lemma X18_normalise_sides_items_witness :
  latin_or_bullet (py "• Peas / peas\n– Chips.")
  /\ normalise_sides (py "• Peas / peas\n– Chips.") = py "Peas, Chips"
  /\ exists items,
       normalise_sides (py "• Peas / peas\n– Chips.") = join (py ", ") items
       /\ Forall latin_or_bullet items
       /\ NoDup (map lower items)
       /\ (forall p x, In p items -> In x p ->
            In x (py "• Peas / peas\n– Chips.")
            /\ ~ In x [chr_of ","; chr_of "/"; chr_of "\t"; chr_of "\n"; chr_of "\r"])
       /\ (py "• Peas / peas\n– Chips." = [] -> items = []).
Proof.
  assert (H : latin_or_bullet (py "• Peas / peas\n– Chips."))
    by (apply latin_or_bullet_forallb; reflexivity).
  split; [exact H|]. split; [reflexivity|].
  exact (X18_normalise_sides_items (py "• Peas / peas\n– Chips.") H).
Defined.

(** X19. On text of the Basic Latin block [sentence_case] is idempotent. *)
Theorem X19_sentence_case_idempotent (s : pystr) :
  Forall (fun c => c < 128) s ->
  sentence_case (sentence_case s) = sentence_case s.
Proof. intros _. apply sentence_case_idem. Qed.

Lemma X19_sentence_case_idempotent_witness :
  Forall (fun c => c < 128) (py "  1. apple PIE ")
  /\ sentence_case (py "  1. apple PIE ") = py "1. Apple pie"
  /\ sentence_case (py "1. Apple pie") = py "1. Apple pie".
Proof.
  assert (H : Forall (fun c => c < 128) (py "  1. apple PIE "))
    by (apply Forall_forall; intros c Hc; apply list_elem_of_In in Hc;
        vm_compute in Hc; intuition (subst; reflexivity)).
  split; [exact H|].
  pose proof (X19_sentence_case_idempotent (py "  1. apple PIE ") H) as E.
  assert (E1 : sentence_case (py "  1. apple PIE ") = py "1. Apple pie")
    by (vm_compute; reflexivity).
  rewrite E1 in E. split; [reflexivity | exact E].
Defined.

(* ------------------------------------------------------------------ *)
(** ** Properties of the allergens sheet *)

(** X20. [_find_allergen_table] returns the first table, in document order,
    that has a row with at least six recognised allergen headers among its
    first twelve rows, with the first such row of that table and that row's
    column map.  The title column is the first column of that row that is
    not an allergen column; only if every column of the row is an allergen
    column is it column 0.  The search fails exactly when no table has such
    a row. *)
Theorem X20_find_allergen_table (tables : list DocTable) :
  match _find_allergen_table tables with
  | Some (tbl, header_row_idx, title_col, col_map) =>
      exists before after row,
        tables = before ++ tbl :: after
        /\ Forall (fun t => Forall (fun r => (length (col_map_of r) < 6)%nat)
                              (firstn 12 t)) before
        /\ (header_row_idx < 12)%nat
        /\ nth_error tbl header_row_idx = Some row
        /\ Forall (fun r => (length (col_map_of r) < 6)%nat)
                  (firstn header_row_idx tbl)
        /\ col_map = col_map_of row /\ (6 <= length col_map)%nat
        /\ (((title_col < length row)%nat /\ ~ In title_col (map fst col_map)
             /\ forall j, (j < title_col)%nat -> In j (map fst col_map))
            \/ (title_col = 0%nat
                /\ forall j, (j < length row)%nat -> In j (map fst col_map)))
  | None =>
      Forall (fun t => Forall (fun r => (length (col_map_of r) < 6)%nat)
                         (firstn 12 t)) tables
  end.
Proof.
  destruct (_find_allergen_table tables) as [[[[tbl r] tc] cm]|] eqn:E.
  - apply find_allergen_table_some in E
      as (before & after & row & H1 & H2 & H3 & H4 & H5 & H6 & H7 & H8).
    exists before, after, row. repeat (split; [assumption|]).
    rewrite H8. apply title_col_of_spec.
  - now apply find_allergen_table_none.
Qed.

Example find_allergen_table_example :
  _find_allergen_table tables0
  = Some (nth 1 tables0 [], 1%nat, 0%nat,
          [(1%nat, py "Celery"); (2%nat, py "Cereals with Gluten");
           (3%nat, py "Eggs"); (4%nat, py "Fish"); (5%nat, py "Milk");
           (6%nat, py "Sulphur")]).
Proof. vm_compute. reflexivity. Qed.

(** X21. Filling the allergens table, for data rows wide enough for the
    title column and the allergen columns, and a title column that is not an
    allergen column: no error is raised; the rows down to the header row are
    left as they were; the data row of rank [i] is cleared and then holds
    item [i], its label in the title column (centred and bold for a
    heading) and a tick in each allergen column whose name is among the
    item's columns; data rows beyond the items are blank, and items beyond
    the data rows of the template are not written. *)
Theorem X21_fill_table (tbl : Sheet) (header_row_idx title_col : nat)
    (col_map : list (nat * pystr)) (rows : list Row) :
  Forall (fun cells => (title_col < length cells)%nat
                       /\ Forall (fun c_idx => (c_idx < length cells)%nat)
                                 (map fst col_map))
         (skipn (header_row_idx + 1) tbl) ->
  ~ In title_col (map fst col_map) ->
  exists sheet,
    fill_table tbl header_row_idx title_col col_map rows = inr sheet
    /\ length sheet = length tbl
    /\ firstn (header_row_idx + 1) sheet = firstn (header_row_idx + 1) tbl
    /\ forall i cells,
         tbl !! (header_row_idx + 1 + i)%nat = Some cells ->
         exists cells',
           sheet !! (header_row_idx + 1 + i)%nat = Some cells'
           /\ length cells' = length cells
           /\ forall c, (c < length cells)%nat ->
                cells' !! c = Some (cell_after title_col col_map (rows !! i) c).
Proof. apply fill_table_spec. Qed.

Lemma X21_fill_table_witness :
  Forall (fun cells => (0 < length cells)%nat
                       /\ Forall (fun c_idx => (c_idx < length cells)%nat)
                                 (map fst [(1%nat, py "Milk"); (2%nat, py "Eggs")]))
         (skipn (0 + 1) sheet0)
  /\ ~ In 0%nat (map fst [(1%nat, py "Milk"); (2%nat, py "Eggs")])
  /\ length items0 = 3%nat
  /\ fill_table sheet0 0 0 [(1%nat, py "Milk"); (2%nat, py "Eggs")] items0
     = inr [ [Template (py "Dish"); Template (py "Milk"); Template (py "Eggs")];
             [Label (py "— Standard —") true true; Blank; Blank];
             [Label (py "Omelette") false false; Blank; Tick] ].
Proof.
  assert (H1 : Forall (fun cells => (0 < length cells)%nat
                 /\ Forall (fun c_idx => (c_idx < length cells)%nat)
                           (map fst [(1%nat, py "Milk"); (2%nat, py "Eggs")]))
                 (skipn (0 + 1) sheet0)).
  { cbn. repeat constructor. }
  assert (H2 : ~ In 0%nat (map fst [(1%nat, py "Milk"); (2%nat, py "Eggs")])).
  { cbn. intros [F|[F|[]]]; discriminate. }
  split; [exact H1|]. split; [exact H2|]. split; [reflexivity|].
  destruct (X21_fill_table sheet0 0 0 [(1%nat, py "Milk"); (2%nat, py "Eggs")]
              items0 H1 H2) as (sheet & E & _).
  rewrite E. f_equal.
  assert (E' : inr sheet
               = fill_table sheet0 0 0 [(1%nat, py "Milk"); (2%nat, py "Eggs")] items0)
    by (now rewrite E).
  vm_compute in E'. injection E' as ->. vm_compute. reflexivity.
Defined.

(* ------------------------------------------------------------------ *)
(** ** Properties of the template paths *)

(** X22. [resolve_templates]: when the three template options are all given,
    they are returned as they are, and no file is looked for.  Otherwise the
    three paths are the options given, or else the standard file names in
    the templates folder; all three are then required to exist, and the
    error message names the first, in the order standard, vegan, allergens,
    that does not. *)
Theorem X22_resolve_templates (isfile : pystr -> bool)
    (path_join : pystr -> pystr -> pystr) (args : Args) :
  let explicit := given (a_standard_tpl args) && given (a_vegan_tpl args)
                  && given (a_allergens_tpl args) in
  let paths := template_paths path_join args in
  if explicit then
    exists std veg allg,
      a_standard_tpl args = Some std /\ a_vegan_tpl args = Some veg
      /\ a_allergens_tpl args = Some allg
      /\ resolve_templates isfile path_join args = inr (std, veg, allg)
  else
    match resolve_templates isfile path_join args with
    | inr (std, veg, allg) =>
        paths = [std; veg; allg] /\ forallb isfile paths = true
    | inl (SystemExit msg) =>
        exists found p rest,
          paths = found ++ p :: rest /\ forallb isfile found = true
          /\ isfile p = false /\ msg = py "Template not found: " ++ p
    end.
Proof.
  intros explicit paths.
  destruct (resolve_templates_spec isfile path_join args) as [H1 H2].
  fold explicit in H1, H2. fold paths in H2.
  destruct explicit; [now apply H1 | now apply H2].
Qed.
